(** * codex-darcula-theme: the archive patcher, embedded and verified

    A shallow embedding of [codex-darcula-theme.js]: the asar container
    codec ([parseAsar], [extractFileMap], [buildAsar]), the textual patch
    ([patchBundleSource]), the header digest ([getAsarHeaderHash]), the
    commands ([ensureBackup], [commandPatch], [commandStatus],
    [commandRestore]), the command line ([parseArgs]) and the entry point
    ([main]).

    Conventions.
    - A [Buffer] is a [list byte]; a JavaScript string is a [string] whose
      characters stand for code units; numbers are integers ([Z]): sizes and
      offsets of a container are integers, on which JavaScript's doubles are
      exact below 2^53.
    - A thrown exception is an [error]; a function that can throw returns a
      [result].
    - Built-ins of Node that are not part of the repository (SHA-256, the
      JSON codec, UTF-8, the conversion of a string to a number, PlistBuddy
      and codesign) are the methods of the class [Runtime]. *)

From Stdlib Require Import ZArith String Ascii List Lia Bool.
From Stdlib.Strings Require Import Byte.
From Stdlib Require Import DecimalString DecimalZ DecimalPos.
From stdpp Require Import base option list strings gmap.

Local Open Scope string_scope.
Local Open Scope list_scope.
Local Open Scope Z_scope.

(** ** Exceptions *)

Inductive error : Type :=
  | Error (message : string)   (* [throw new Error(message)] *)
  | TypeError                  (* a property read on [null] *)
  | SyntaxError                (* [JSON.parse] on malformed text *)
  | RangeError                 (* [writeUInt32LE] / [readUInt32LE] out of range *)
  | StackOverflow              (* recursion deeper than the allotted depth *)
  | ENOENT (path : string).    (* a file system call on a missing file *)

Inductive result (A : Type) : Type :=
  | Ok (a : A)
  | Throw (e : error).
Arguments Ok {A} a.
Arguments Throw {A} e.

Definition bind {A B} (r : result A) (k : A -> result B) : result B :=
  match r with
  | Ok a => k a
  | Throw e => Throw e
  end.

Notation "'let*' p ':=' r 'in' k" := (bind r (fun p => k))
  (at level 10, p pattern, r at level 100, k at level 200, only parsing).

(** A [for ... of] loop whose body can throw. *)
Fixpoint for_of {A S} (body : S -> A -> result S) (l : list A) (st : S) : result S :=
  match l with
  | [] => Ok st
  | x :: l' => let* st' := body st x in for_of body l' st'
  end.

(** ** JavaScript strings *)

Definition dquote : string := String (ascii_of_nat 34) EmptyString.
Definition newline : string := String (ascii_of_nat 10) EmptyString.

(** [s.startsWith(pat)] *)
Fixpoint startsWith (s pat : string) {struct pat} : bool :=
  match pat, s with
  | EmptyString, _ => true
  | String c pat', String d s' => if Ascii.eqb c d then startsWith s' pat' else false
  | String _ _, EmptyString => false
  end.

(** [s.indexOf(pat)], [None] standing for -1. *)
Fixpoint indexOf (s pat : string) : option nat :=
  if startsWith s pat then Some 0%nat
  else match s with
       | EmptyString => None
       | String _ s' => S <$> indexOf s' pat
       end.

(** [s.includes(pat)] *)
Definition includes (s pat : string) : bool :=
  match indexOf s pat with Some _ => true | None => false end.

Fixpoint string_take (n : nat) (s : string) : string :=
  match n, s with
  | S n', String c s' => String c (string_take n' s')
  | _, _ => EmptyString
  end.

Fixpoint string_drop (n : nat) (s : string) : string :=
  match n, s with
  | S n', String _ s' => string_drop n' s'
  | _, _ => s
  end.

(** ECMAScript's GetSubstitution for a string pattern (no capture groups):
    in the replacement text [$$] is a dollar, [$&] the matched text,
    [$`] the text before the match, [$'] the text after it, and every other
    character, a dollar included, stands for itself. *)
Fixpoint GetSubstitution (matched before after replacement : string) : string :=
  match replacement with
  | EmptyString => EmptyString
  | String a rest =>
      if Ascii.eqb a "$"%char then
        match rest with
        | String b rest' =>
            if Ascii.eqb b "$"%char then "$" +:+ GetSubstitution matched before after rest'
            else if Ascii.eqb b "&"%char then matched +:+ GetSubstitution matched before after rest'
            else if Ascii.eqb b "`"%char then before +:+ GetSubstitution matched before after rest'
            else if Ascii.eqb b "'"%char then after +:+ GetSubstitution matched before after rest'
            else String a (GetSubstitution matched before after rest)
        | EmptyString => String a EmptyString
        end
      else String a (GetSubstitution matched before after rest)
  end.

(** [s.replace(pat, replacement)] with a string pattern: the first
    occurrence only. *)
Definition replace (s pat replacement : string) : string :=
  match indexOf s pat with
  | None => s
  | Some i =>
      let before := string_take i s in
      let after := string_drop (i + String.length pat) s in
      before +:+ GetSubstitution pat before after replacement +:+ after
  end.

Definition is_whitespace (c : ascii) : bool :=
  let n := nat_of_ascii c in
  (Nat.eqb n 32 || (Nat.leb 9 n && Nat.leb n 13))%bool.

Fixpoint trimStart (s : string) : string :=
  match s with
  | String c s' => if is_whitespace c then trimStart s' else s
  | EmptyString => EmptyString
  end.

(** [s.trim()] (the ASCII white space). *)
Definition trim (s : string) : string :=
  String.rev (trimStart (String.rev (trimStart s))).

(** [String(n)] for an integer [n]: its decimal digits. *)
Definition NumberToString (n : Z) : string :=
  NilZero.string_of_int (Z.to_int n).

(** ** Buffers *)

Abbreviation Buffer := (list byte).

Definition byte_to_Z (b : byte) : Z := Z.of_N (Byte.to_N b).
Definition byte_of_Z (z : Z) : byte :=
  default x00 (Byte.of_N (Z.to_N (z mod 256))).

Definition Buffer_length (buf : Buffer) : Z := Z.of_nat (length buf).

(** [Buffer.alloc(n)]: [n] zero bytes. *)
Definition Buffer_alloc (n : nat) : Buffer := repeat x00 n.

(** [buf.slice(start, end)]: a negative index counts from the end, both are
    clamped to the buffer, and the result is empty when [end] is not past
    [start]. *)
Definition slice_index (len i : Z) : Z :=
  if i <? 0 then Z.max (len + i) 0 else Z.min i len.

Definition Buffer_slice (buf : Buffer) (start end_ : Z) : Buffer :=
  let len := Buffer_length buf in
  let s := slice_index len start in
  let e := slice_index len end_ in
  take (Z.to_nat (e - s)) (drop (Z.to_nat s) buf).

(** [buf.readUInt32LE(offset)] *)
Definition readUInt32LE (buf : Buffer) (offset : nat) : result Z :=
  match buf !! offset, buf !! (offset + 1)%nat,
        buf !! (offset + 2)%nat, buf !! (offset + 3)%nat with
  | Some b0, Some b1, Some b2, Some b3 =>
      Ok (byte_to_Z b0 + byte_to_Z b1 * 2 ^ 8
          + byte_to_Z b2 * 2 ^ 16 + byte_to_Z b3 * 2 ^ 24)
  | _, _, _, _ => Throw RangeError
  end.

(** [buf.writeUInt32LE(value, offset)]: the buffer after the write. *)
Definition writeUInt32LE (buf : Buffer) (value : Z) (offset : nat) : result Buffer :=
  if ((0 <=? value) && (value <? 2 ^ 32)
      && (Z.of_nat offset + 4 <=? Buffer_length buf))%bool
  then Ok (<[(offset + 3)%nat := byte_of_Z (value / 2 ^ 24)]>
           (<[(offset + 2)%nat := byte_of_Z (value / 2 ^ 16)]>
            (<[(offset + 1)%nat := byte_of_Z (value / 2 ^ 8)]>
             (<[offset := byte_of_Z value]> buf))))
  else Throw RangeError.

(** ** JSON values, as [JSON.parse] returns them *)

Unset Elimination Schemes.
Inductive json : Type :=
  | JNull
  | JBool (b : bool)
  | JNum (n : Z)
  | JStr (s : string)
  | JArr (items : list json)
  | JObj (fields : list (string * json)).
Set Elimination Schemes.
(** The fields of an object are its own properties in enumeration order;
    [None : option json] stands for [undefined]. *)

Fixpoint json_depth (v : json) : nat :=
  match v with
  | JArr items => S (foldr (fun x d => Nat.max (json_depth x) d) 0%nat items)
  | JObj fields => S (foldr (fun kv d => Nat.max (json_depth kv.2) d) 0%nat fields)
  | _ => 0%nat
  end.

(** ToBoolean *)
Definition truthy (v : option json) : bool :=
  match v with
  | None | Some JNull => false
  | Some (JBool b) => b
  | Some (JNum n) => negb (n =? 0)
  | Some (JStr s) => negb (String.eqb s "")
  | Some (JArr _) | Some (JObj _) => true
  end.

Fixpoint assoc (k : string) (fields : list (string * json)) : option json :=
  match fields with
  | [] => None
  | (k', v) :: rest => if String.eqb k k' then Some v else assoc k rest
  end.

(** [v.k] for a value [v] that is not [null] and one of the property names
    this program reads ([files], [unpacked], [offset], [size]): only an
    object can have it, neither an array, a string, a number or a boolean
    nor any built-in prototype does. *)
Definition get (v : json) (k : string) : option json :=
  match v with
  | JObj fields => assoc k fields
  | _ => None
  end.

(** [v.k] where [v] may be [null]. *)
Definition get_prop (v : json) (k : string) : result (option json) :=
  match v with
  | JNull => Throw TypeError
  | _ => Ok (get v k)
  end.

(** [v && v.k] *)
Definition and_get (v : json) (k : string) : option json :=
  if truthy (Some v) then get v k else Some v.

(** [Object.entries(v)] and the own properties copied by [{ ...v }]: the
    fields of an object, the indexed elements of an array, the indexed
    characters of a string, nothing for the other values. *)
Definition index_key (i : nat) : string := NumberToString (Z.of_nat i).

Definition Object_entries (v : json) : list (string * json) :=
  match v with
  | JObj fields => fields
  | JArr items => imap (fun i x => (index_key i, x)) items
  | JStr s => imap (fun i c => (index_key i, JStr (String c EmptyString)))
                   (list_ascii_of_string s)
  | _ => []
  end.

(** [{ ...v }] *)
Definition spread (v : json) : list (string * json) := Object_entries v.

(** CreateDataProperty, as [JSON.parse] and the spread use it: the value of
    an existing key is replaced in place, a new key is appended. *)
Fixpoint define_property (fields : list (string * json)) (k : string) (v : json)
  : list (string * json) :=
  match fields with
  | [] => [(k, v)]
  | (k', v') :: rest =>
      if String.eqb k k' then (k, v) :: rest
      else (k', v') :: define_property rest k v
  end.

(** The assignment [o[k] = v] on an ordinary object. The name [__proto__]
    is the accessor inherited from [Object.prototype]: assigning to it
    sets the prototype of [o] and creates no own property, so nothing of it
    is enumerated or serialised. *)
Definition obj_set (fields : list (string * json)) (k : string) (v : json)
  : list (string * json) :=
  if String.eqb k "__proto__" then fields else define_property fields k v.

(** ToString of an array element inside [Array.prototype.join]. *)
Fixpoint ToString (v : json) : string :=
  match v with
  | JNull => "null"
  | JBool true => "true"
  | JBool false => "false"
  | JNum n => NumberToString n
  | JStr s => s
  | JArr items =>
      (fix join (l : list json) : string :=
         match l with
         | [] => ""
         | [x] => match x with JNull => "" | _ => ToString x end
         | x :: l' => (match x with JNull => "" | _ => ToString x end) +:+ "," +:+ join l'
         end) items
  | JObj _ => "[object Object]"
  end.

(** ** The built-ins of Node and of the operating system *)

(** What [spawnSync] returns. *)
Record spawn_result : Type := {
  status : Z;
  spawn_stdout : string;
  spawn_stderr : string
}.

Class Runtime : Type := {
  (** [crypto.createHash("sha256").update(buffer).digest("hex")] *)
  sha256 : Buffer -> string;
  (** [JSON.parse(text)], [None] for a SyntaxError *)
  JSON_parse : string -> option json;
  (** [JSON.stringify(value)] *)
  JSON_stringify : json -> string;
  (** [JSON.stringify(value, null, 2)] *)
  JSON_stringify_indented : json -> string;
  (** [buffer.toString("utf8")] *)
  utf8_decode : Buffer -> string;
  (** [Buffer.from(text, "utf8")] *)
  utf8_encode : string -> Buffer;
  (** ToNumber on a string: [None] when the result is NaN or infinite *)
  StringToNumber : string -> option Z;
  (** the decimal digits of a natural number read back as that number *)
  StringToNumber_NumberToString :
    forall n : Z, 0 <= n -> StringToNumber (NumberToString n) = Some n;
  (** [PlistBuddy -c "Print :ElectronAsarIntegrity:Resources/app.asar:hash"]
      on a property list with the given content *)
  PlistBuddy_Print : Buffer -> spawn_result;
  (** [PlistBuddy -c "Set :ElectronAsarIntegrity:Resources/app.asar:hash h"]:
      what the process returns and the content it leaves in the file *)
  PlistBuddy_Set : string -> Buffer -> spawn_result * Buffer;
  (** the exit status of [codesign --force --deep --sign - appPath] *)
  codesign_status : string -> Z
}.

Section Codec.
Context `{RT : Runtime}.

Definition TARGET_BUNDLE_PATH : string := ".vite/build/main-CQwPb0Th.js".
Definition PATCH_MARKER : string := "/*codex-darcula-patch*/".
Definition INTEGRITY_BLOCK_SIZE : Z := 4 * 1024 * 1024.

(** [Number(v)]: [None] when the result is not a finite number. *)
Definition Number (v : option json) : option Z :=
  match v with
  | None => None
  | Some JNull => Some 0
  | Some (JBool b) => Some (if b then 1 else 0)
  | Some (JNum n) => Some n
  | Some (JStr s) => StringToNumber s
  | Some (JArr items) => StringToNumber (ToString (JArr items))
  | Some (JObj _) => None
  end.

(** ** The container codec *)

Definition getAsarHeaderHash (asarBuffer : Buffer) : result string :=
  if Buffer_length asarBuffer <? 20 then Throw (Error "Invalid asar: too small")
  else
    let* headerJsonLength := readUInt32LE asarBuffer 12 in
    let headerStart := 16 in
    let headerEnd := headerStart + headerJsonLength in
    if headerEnd >? Buffer_length asarBuffer
    then Throw (Error "Invalid asar: header length exceeds file size")
    else Ok (sha256 (Buffer_slice asarBuffer headerStart headerEnd)).

Record parsed_asar : Type := {
  header : json;
  headerJsonLength : Z;
  dataOffset : Z
}.

Definition parseAsar (buffer : Buffer) : result parsed_asar :=
  if Buffer_length buffer <? 20 then Throw (Error "Invalid asar: too small")
  else
    let* headerJsonLength := readUInt32LE buffer 12 in
    let headerStart := 16 in
    let headerEnd := headerStart + headerJsonLength in
    if headerEnd >? Buffer_length buffer
    then Throw (Error "Invalid asar: header length exceeds file size")
    else
      let headerJson := utf8_decode (Buffer_slice buffer headerStart headerEnd) in
      match JSON_parse headerJson with
      | None => Throw SyntaxError
      | Some header =>
          Ok {| header := header;
                headerJsonLength := headerJsonLength;
                dataOffset := headerEnd |}
      end.

(** [prefix ? `${prefix}/${name}` : name] *)
Definition join_path (prefix name : string) : string :=
  if String.eqb prefix "" then name else prefix +:+ "/" +:+ name.

(** [node && node.files ? node.files : {}] *)
Definition files_of (node : json) : json :=
  match and_get node "files" with
  | Some files => if truthy (Some files) then files else JObj []
  | None => JObj []
  end.

(** [entry && entry.files], as a condition *)
Definition is_directory (entry : json) : bool := truthy (and_get entry "files").

(** The visitor is a callback acting on a state [S]; [fuel] bounds the depth
    of the recursion. *)
Fixpoint walkLeafEntries {S : Type} (fuel : nat) (node : json) (prefix : string)
    (visitor : string -> json -> S -> result S) (st : S) : result S :=
  match fuel with
  | O => Throw StackOverflow
  | Datatypes.S fuel' =>
      let files := files_of node in
      for_of (fun st '(name, entry) =>
                let rel := join_path prefix name in
                if is_directory entry
                then walkLeafEntries fuel' entry rel visitor st
                else visitor rel entry st)
             (Object_entries files) st
  end.

(** The callback of [extractFileMap]. *)
Definition extract_visitor (asarBuffer : Buffer) (dataOffset : Z)
    (relPath : string) (entry : json) (map : gmap string Buffer)
  : result (gmap string Buffer) :=
  let* unpacked := get_prop entry "unpacked" in
  match unpacked with
  | Some (JBool true) => Ok map
  | _ =>
      match Number (get entry "offset"), Number (get entry "size") with
      | Some offset, Some size =>
          let start := dataOffset + offset in
          let end_ := start + size in
          if ((start <? 0) || (end_ >? Buffer_length asarBuffer))%bool
          then Throw (Error ("Invalid entry offsets for " +:+ relPath))
          else Ok (<[relPath := Buffer_slice asarBuffer start end_]> map)
      | _, _ => Throw (Error ("Invalid entry offsets for " +:+ relPath))
      end
  end.

Definition extractFileMap (asarBuffer : Buffer) (header : json) (dataOffset : Z)
  : result (gmap string Buffer) :=
  walkLeafEntries (S (json_depth header)) header ""
                  (extract_visitor asarBuffer dataOffset) ∅.

(** The loop of [computeEntryIntegrity]: [fuel] bounds its iterations. *)
Fixpoint integrity_blocks (fuel : nat) (fileBuffer : Buffer) (offset : Z)
    (blocks : list string) : list string :=
  match fuel with
  | O => blocks
  | S fuel' =>
      if offset <? Buffer_length fileBuffer then
        let chunk :=
          Buffer_slice fileBuffer offset
            (Z.min (offset + INTEGRITY_BLOCK_SIZE) (Buffer_length fileBuffer)) in
        integrity_blocks fuel' fileBuffer (offset + INTEGRITY_BLOCK_SIZE)
                         (blocks ++ [sha256 chunk])
      else blocks
  end.

Definition integrity_record (hash : string) (blocks : list string) : json :=
  JObj [("algorithm", JStr "SHA256");
        ("hash", JStr hash);
        ("blockSize", JNum INTEGRITY_BLOCK_SIZE);
        ("blocks", JArr (JStr <$> blocks))].

Definition computeEntryIntegrity (fileBuffer : Buffer) : json :=
  let blocks := integrity_blocks (length fileBuffer) fileBuffer 0 [] in
  integrity_record (sha256 fileBuffer) blocks.

(** The variables [chunks] and [runningOffset] that [rebuildNode] closes
    over. *)
Record build_state : Type := {
  chunks : list Buffer;
  runningOffset : Z
}.

(** The part of the loop of [rebuildNode] that handles a leaf [entry] at
    [relPath]: the entry to store under its name and the state after it. *)
Definition rebuild_leaf (fileMap : gmap string Buffer) (relPath : string)
    (entry : json) (st : build_state) : result (json * build_state) :=
  let* unpacked := get_prop entry "unpacked" in
  match unpacked with
  | Some (JBool true) => Ok (JObj (spread entry), st)
  | _ =>
      match fileMap !! relPath with
      | None => Throw (Error ("Missing data for file: " +:+ relPath))
      | Some fileBuffer =>
          let rebuiltEntry := spread entry in
          let rebuiltEntry :=
            obj_set rebuiltEntry "offset" (JStr (NumberToString (runningOffset st))) in
          let rebuiltEntry :=
            obj_set rebuiltEntry "size" (JNum (Buffer_length fileBuffer)) in
          let rebuiltEntry :=
            obj_set rebuiltEntry "integrity" (computeEntryIntegrity fileBuffer) in
          Ok (JObj rebuiltEntry,
              {| chunks := chunks st ++ [fileBuffer];
                 runningOffset := runningOffset st + Buffer_length fileBuffer |})
      end
  end.

(** One turn of the loop of [rebuildNode], on the entry [name] of
    [node.files]; [files] holds the properties of [out.files] so far, and
    [rebuild] is the recursive call. *)
Definition rebuild_entry
    (rebuild : json -> string -> build_state -> result (json * build_state))
    (fileMap : gmap string Buffer) (prefix : string)
    (acc : list (string * json) * build_state) (item : string * json)
  : result (list (string * json) * build_state) :=
  let '(files, st) := acc in
  let '(name, entry) := item in
  let relPath := join_path prefix name in
  let* (rebuilt, st') :=
    if is_directory entry then rebuild entry relPath st
    else rebuild_leaf fileMap relPath entry st in
  Ok (obj_set files name rebuilt, st').

Fixpoint rebuildNode (fuel : nat) (fileMap : gmap string Buffer) (node : json)
    (prefix : string) (st : build_state) : result (json * build_state) :=
  match fuel with
  | O => Throw StackOverflow
  | S fuel' =>
      let out := spread node in
      let* files := get_prop node "files" in
      match files with
      | Some node_files =>
          if negb (truthy (Some node_files)) then Ok (JObj out, st)
          else
            let* (out_files, st') :=
              for_of (rebuild_entry (rebuildNode fuel' fileMap) fileMap prefix)
                     (Object_entries node_files) ([], st) in
            Ok (JObj (obj_set out "files" (JObj out_files)), st')
      | None => Ok (JObj out, st)
      end
  end.

(** [rebuildNode(header, "")], from no chunks and the offset 0: the
    rebuilt header and the chunks it emits. *)
Definition rebuildHeader (header : json) (fileMap : gmap string Buffer)
  : result (json * build_state) :=
  rebuildNode (S (json_depth header)) fileMap header ""
              {| chunks := []; runningOffset := 0 |}.

Definition buildAsar (header : json) (fileMap : gmap string Buffer) : result Buffer :=
  let* (rebuiltHeader, st) := rebuildHeader header fileMap in
  let headerJsonBuffer := utf8_encode (JSON_stringify rebuiltHeader) in
  let prelude := Buffer_alloc 16 in
  let* prelude := writeUInt32LE prelude 4 0 in
  let* prelude := writeUInt32LE prelude (Buffer_length headerJsonBuffer + 8) 4 in
  let* prelude := writeUInt32LE prelude (Buffer_length headerJsonBuffer + 4) 8 in
  let* prelude := writeUInt32LE prelude (Buffer_length headerJsonBuffer) 12 in
  Ok (prelude ++ headerJsonBuffer ++ concat (chunks st)).


(** ** The patch engine *)

(** The lines of the template literal [DARCULA_CSS]; each ends with a line
    feed. *)
Definition DARCULA_CSS_lines : list string :=
  [ PATCH_MARKER;
    ":root,";
    "html,";
    "body,";
    "#root {";
    "  color-scheme: dark !important;";
    "  background: #2b2b2b !important;";
    "  color: #a9b7c6 !important;";
    "}";
    EmptyString;
    "* {";
    "  border-color: #4e5254 !important;";
    "}";
    EmptyString;
    "main,";
    "section,";
    "article,";
    "aside,";
    "header,";
    "footer,";
    "nav,";
    "div[data-panel],";
    "[data-theme=" +:+ dquote +:+ "dark" +:+ dquote +:+ "] {";
    "  background-color: #2b2b2b !important;";
    "  color: #a9b7c6 !important;";
    "}";
    EmptyString;
    "aside,";
    "nav,";
    "[data-sidebar],";
    "[role=" +:+ dquote +:+ "complementary" +:+ dquote +:+ "] {";
    "  background-color: #3c3f41 !important;";
    "}";
    EmptyString;
    "button,";
    "input,";
    "textarea,";
    "select,";
    "[role=" +:+ dquote +:+ "button" +:+ dquote +:+ "] {";
    "  background-color: #3c3f41 !important;";
    "  color: #a9b7c6 !important;";
    "  border-color: #5c6164 !important;";
    "}";
    EmptyString;
    "button:hover,";
    "[role=" +:+ dquote +:+ "button" +:+ dquote +:+ "]:hover {";
    "  background-color: #4b5052 !important;";
    "}";
    EmptyString;
    "a {";
    "  color: #589df6 !important;";
    "}";
    EmptyString;
    "a:hover {";
    "  color: #73b1ff !important;";
    "}";
    EmptyString;
    "pre,";
    "code {";
    "  background-color: #313335 !important;";
    "  color: #a9b7c6 !important;";
    "}";
    EmptyString;
    "::selection {";
    "  background: #214283 !important;";
    "  color: #dfe6ee !important;";
    "}";
    EmptyString;
    "::-webkit-scrollbar-thumb {";
    "  background: #5c6164 !important;";
    "  border-radius: 8px !important;";
    "}";
    EmptyString;
    "::-webkit-scrollbar-track {";
    "  background: #2b2b2b !important;";
    "}" ].

Definition DARCULA_CSS : string :=
  String.concat "" ((fun line => line +:+ newline) <$> DARCULA_CSS_lines).

Definition themeSourceAnchor : string :=
  "function dB(t){t===" +:+ dquote +:+ "light" +:+ dquote +:+ "||t===" +:+
  dquote +:+ "dark" +:+ dquote +:+
  "?U.nativeTheme.themeSource=t:U.nativeTheme.themeSource=" +:+ dquote +:+
  "system" +:+ dquote +:+ "}".

Definition cdpApplyDarcula_source : string :=
  "function cdpApplyDarcula(win){if(!win||win.isDestroyed())ret" +:+
  "urn;const apply=()=>{if(win.isDestroyed())return;try{const w" +:+
  "c=win.webContents;if(!wc||wc.isDestroyed())return;wc.insertC" +:+
  "SS(cdpDarculaCss).catch(()=>{});}catch{}};win.webContents.on" +:+
  "ce(" +:+ dquote +:+ "did-finish-load" +:+ dquote +:+
  ",apply);if(!win.webContents.isLoadingMainFrame())apply();}".

Definition helperCode : string :=
  themeSourceAnchor +:+ "const cdpDarculaCss="
  +:+ JSON_stringify (JStr DARCULA_CSS) +:+ ";"
  +:+ cdpApplyDarcula_source.

Definition windowCreationAnchor : string :=
  "this.installNativeContextMenu(y),l&&this.installLiquidGlass(" +:+
  "y,u),!U.app.isPackaged".

Definition windowCreationReplacement : string :=
  "this.installNativeContextMenu(y),l&&this.installLiquidGlass(" +:+
  "y,u),cdpApplyDarcula(y),!U.app.isPackaged".

Record patch_result : Type := {
  sourceText : string;
  alreadyPatched : bool
}.

Definition patchBundleSource (sourceText : string) : result patch_result :=
  if includes sourceText PATCH_MARKER
  then Ok {| sourceText := sourceText; alreadyPatched := true |}
  else if negb (includes sourceText themeSourceAnchor)
  then Throw (Error "Could not find nativeTheme anchor in bundle")
  else
    let patched := replace sourceText themeSourceAnchor helperCode in
    if negb (includes patched windowCreationAnchor)
    then Throw (Error "Could not find BrowserWindow hook anchor in bundle")
    else
      let patched := replace patched windowCreationAnchor windowCreationReplacement in
      if (negb (includes patched PATCH_MARKER)
          || negb (includes patched "cdpApplyDarcula(y)"))%bool
      then Throw (Error "Patch verification failed")
      else Ok {| sourceText := patched; alreadyPatched := false |}.

Record loaded_bundle : Type := {
  loaded_header : json;
  loaded_fileMap : gmap string Buffer;
  bundleSource : string
}.

Definition loadBundleSourceFromAsar (asarBuffer : Buffer) : result loaded_bundle :=
  let* parsed := parseAsar asarBuffer in
  let* fileMap := extractFileMap asarBuffer (header parsed) (dataOffset parsed) in
  match fileMap !! TARGET_BUNDLE_PATH with
  | None => Throw (Error ("Target bundle not found: " +:+ TARGET_BUNDLE_PATH))
  | Some bundle =>
      Ok {| loaded_header := header parsed;
            loaded_fileMap := fileMap;
            bundleSource := utf8_decode bundle |}
  end.

(** ** The traversal, as a list

    The leaves of the header tree in the order in which [walkLeafEntries]
    and [rebuildNode] visit them, each with its path. *)

Fixpoint leaves (fuel : nat) (node : json) (prefix : string) : list (string * json) :=
  match fuel with
  | O => []
  | S fuel' =>
      flat_map (fun '(name, entry) =>
                  let rel := join_path prefix name in
                  if is_directory entry then leaves fuel' entry rel
                  else [(rel, entry)])
               (Object_entries (files_of node))
  end.

Definition all_leaves (node : json) (prefix : string) : list (string * json) :=
  leaves (S (json_depth node)) node prefix.

(** The leaves below one entry of a listing. *)
Definition entry_leaves (prefix : string) (item : string * json) : list (string * json) :=
  if is_directory item.2 then all_leaves item.2 (join_path prefix item.1)
  else [(join_path prefix item.1, item.2)].

(** [entry.unpacked === true] *)
Definition is_unpacked (entry : json) : bool :=
  match get entry "unpacked" with
  | Some (JBool true) => true
  | _ => false
  end.

(** The names in every directory listing that the traversal reaches are
    distinct, as the property names of an object are, and none of them is
    [__proto__]. *)
Fixpoint names_ok (fuel : nat) (node : json) : bool :=
  match fuel with
  | O => true
  | S fuel' =>
      let entries := Object_entries (files_of node) in
      bool_decide (NoDup entries.*1)
      && bool_decide ("__proto__" ∉ entries.*1)
      && forallb (fun '(name, entry) =>
                    if is_directory entry then names_ok fuel' entry else true)
                 entries
  end.

Definition entry_names_ok (header : json) : bool :=
  names_ok (S (json_depth header)) header.

(** The paths of the packed leaves, in order. *)
Definition packed_paths (ls : list (string * json)) : list string :=
  (filter (fun leaf => is_unpacked leaf.2 = false) ls).*1.

(** The map after the bytes that [fileMap] holds for the packed leaves are
    set in it, leaf after leaf. *)
Definition reinserted (fileMap : gmap string Buffer) (ls : list (string * json))
    (map : gmap string Buffer) : gmap string Buffer :=
  foldl (fun map leaf =>
           if is_unpacked leaf.2 then map
           else match fileMap !! leaf.1 with
                | Some bytes => <[leaf.1 := bytes]> map
                | None => map
                end)
        map ls.

(** ** What the specification says of the rebuilt container *)

(** The bytes of an entry in consecutive blocks of [size] bytes, the last
    one possibly shorter. *)
Fixpoint blocks_of (fuel : nat) (size : nat) (bytes : Buffer) : list Buffer :=
  match fuel, bytes with
  | S fuel', _ :: _ => take size bytes :: blocks_of fuel' size (drop size bytes)
  | _, _ => []
  end.

Definition consecutive_blocks (size : nat) (bytes : Buffer) : list Buffer :=
  blocks_of (length bytes) size bytes.

(** The Integrity Record that the specification asks for. *)
Definition expected_integrity (bytes : Buffer) : json :=
  integrity_record
    (sha256 bytes)
    (sha256 <$> consecutive_blocks (Z.to_nat INTEGRITY_BLOCK_SIZE) bytes).

(** A packed entry laid out at the offset [running], with the size and the
    Integrity Record of [fileBuffer]; its other properties are kept. *)
Definition relaid_entry (entry : json) (running : Z) (fileBuffer : Buffer) : json :=
  JObj (obj_set
          (obj_set
             (obj_set (spread entry) "offset" (JStr (NumberToString running)))
             "size" (JNum (Buffer_length fileBuffer)))
          "integrity" (expected_integrity fileBuffer)).

(** The leaves laid out one after the other from the offset [running]: the
    rebuilt leaves, and the buffers of the packed ones in that order. *)
Fixpoint relayout (fileMap : gmap string Buffer) (running : Z)
    (ls : list (string * json)) : option (list (string * json) * list Buffer) :=
  match ls with
  | [] => Some ([], [])
  | (rel, entry) :: ls' =>
      if is_unpacked entry then
        '(out, data) ← relayout fileMap running ls';
        Some ((rel, entry) :: out, data)
      else
        fileBuffer ← fileMap !! rel;
        '(out, data) ← relayout fileMap (running + Buffer_length fileBuffer) ls';
        Some ((rel, relaid_entry entry running fileBuffer) :: out, fileBuffer :: data)
  end.

End Codec.

(** ** The file system and the console *)

Record world : Type := {
  fs : gmap string Buffer;        (* the files, by path *)
  console_log : list string;      (* the lines printed by [console.log] *)
  console_warn : list string;     (* the lines printed by [console.warn] *)
  codesign_runs : list string;    (* the bundle paths handed to [codesign] *)
  clock : string                  (* [new Date().toISOString()] *)
}.

(** A command acts on the world and returns or throws; what it changed
    before a throw stays changed. *)
Definition IO (A : Type) : Type := world -> result A * world.

Definition ret {A} (a : A) : IO A := fun w => (Ok a, w).
Definition throw {A} (e : error) : IO A := fun w => (Throw e, w).
Definition io_bind {A B} (m : IO A) (k : A -> IO B) : IO B :=
  fun w => match m w with
           | (Ok a, w') => k a w'
           | (Throw e, w') => (Throw e, w')
           end.
Definition lift {A} (r : result A) : IO A := fun w => (r, w).

Notation "'let!' p ':=' m 'in' k" := (io_bind m (fun p => k))
  (at level 10, p pattern, m at level 100, k at level 200, only parsing).
Notation "m ';;' k" := (io_bind m (fun _ => k))
  (at level 100, k at level 200, right associativity, only parsing).

Definition set_fs (f : gmap string Buffer -> gmap string Buffer) (w : world) : world :=
  {| fs := f (fs w); console_log := console_log w; console_warn := console_warn w;
     codesign_runs := codesign_runs w; clock := clock w |}.

Definition existsSync (path : string) : IO bool :=
  fun w => (Ok (bool_decide (is_Some (fs w !! path))), w).

Definition readFileSync (path : string) : IO Buffer :=
  fun w => match fs w !! path with
           | Some content => (Ok content, w)
           | None => (Throw (ENOENT path), w)
           end.

Definition writeFileSync (path : string) (content : Buffer) : IO unit :=
  fun w => (Ok tt, set_fs (insert path content) w).

Definition copyFileSync (src dest : string) : IO unit :=
  let! content := readFileSync src in writeFileSync dest content.

Definition renameSync (oldPath newPath : string) : IO unit :=
  let! content := readFileSync oldPath in
  fun w => (Ok tt, set_fs (fun files => <[newPath := content]> (delete oldPath files)) w).

Definition log (line : string) : IO unit :=
  fun w => (Ok tt,
            {| fs := fs w; console_log := console_log w ++ [line];
               console_warn := console_warn w;
               codesign_runs := codesign_runs w; clock := clock w |}).

Definition warn (line : string) : IO unit :=
  fun w => (Ok tt,
            {| fs := fs w; console_log := console_log w;
               console_warn := console_warn w ++ [line];
               codesign_runs := codesign_runs w; clock := clock w |}).

(** ** The commands *)

Section Commands.
Context `{RT : Runtime}.

Record Paths : Type := {
  appPath : string;
  infoPlistPath : string;
  infoPlistBackupPath : string;
  asarPath : string;
  backupPath : string;
  metaPath : string;
  tempPath : string
}.

(** [path.join] of two segments, without the normalisation it applies to
    the result. *)
Definition path_join (a b : string) : string := a +:+ "/" +:+ b.

Definition getPaths (appPath : string) : Paths :=
  let resourcesDir := path_join (path_join appPath "Contents") "Resources" in
  {| appPath := appPath;
     infoPlistPath := path_join (path_join appPath "Contents") "Info.plist";
     infoPlistBackupPath := path_join resourcesDir "Info.plist.bak-darcula";
     asarPath := path_join resourcesDir "app.asar";
     backupPath := path_join resourcesDir "app.asar.bak-darcula";
     metaPath := path_join resourcesDir "app.asar.darcula-meta.json";
     tempPath := path_join resourcesDir "app.asar.tmp-darcula" |}.

Definition ensureExists (filePath description : string) : IO unit :=
  let! found := existsSync filePath in
  if negb found then throw (Error (description +:+ " not found: " +:+ filePath))
  else ret tt.

Definition ensureBackup (paths : Paths) (currentAsarBuffer : Buffer) : IO unit :=
  let! found := existsSync (backupPath paths) in
  (if negb found then
     writeFileSync (backupPath paths) currentAsarBuffer ;;
     log ("Backup created: " +:+ backupPath paths)
   else log ("Backup exists: " +:+ backupPath paths)) ;;
  let! found := existsSync (infoPlistBackupPath paths) in
  if negb found then
    copyFileSync (infoPlistPath paths) (infoPlistBackupPath paths) ;;
    log ("Backup created: " +:+ infoPlistBackupPath paths)
  else log ("Backup exists: " +:+ infoPlistBackupPath paths).

(** [codesign] signs the executables of the bundle; it writes none of the
    files of [Paths]. *)
Definition tryCodeSign (appPath : string) : IO unit :=
  (fun w => (Ok tt,
             {| fs := fs w; console_log := console_log w;
                console_warn := console_warn w;
                codesign_runs := codesign_runs w ++ [appPath]; clock := clock w |})) ;;
  if negb (codesign_status appPath =? 0)
  then warn "codesign failed; app may still run, but macOS can reject it in some cases."
  else log "codesign completed.".

(** [result.stderr || result.stdout] *)
Definition spawn_message (r : spawn_result) : string :=
  if String.eqb (spawn_stderr r) "" then spawn_stdout r else spawn_stderr r.

Definition getInfoPlistAsarHash (infoPlistPath : string) : IO string :=
  let! content := readFileSync infoPlistPath in
  let result := PlistBuddy_Print content in
  if negb (status result =? 0)
  then throw (Error (trim ("Could not read asar hash from Info.plist: "
                           +:+ spawn_message result)))
  else ret (trim (spawn_stdout result)).

Definition setInfoPlistAsarHash (infoPlistPath hash : string) : IO unit :=
  let! content := readFileSync infoPlistPath in
  let '(result, content') := PlistBuddy_Set hash content in
  writeFileSync infoPlistPath content' ;;
  if negb (status result =? 0)
  then throw (Error (trim ("Could not update asar hash in Info.plist: "
                           +:+ spawn_message result)))
  else ret tt.

Definition meta_payload (paths : Paths) (patchedAt originalPlistHash originalHash
                                         rebuiltHash : string) : json :=
  JObj [("patchedAt", JStr patchedAt);
        ("backupPath", JStr (backupPath paths));
        ("infoPlistBackupPath", JStr (infoPlistBackupPath paths));
        ("targetBundlePath", JStr TARGET_BUNDLE_PATH);
        ("marker", JStr PATCH_MARKER);
        ("oldPlistSha256", JStr originalPlistHash);
        ("oldSha256", JStr originalHash);
        ("newPlistSha256", JStr rebuiltHash);
        ("newSha256", JStr rebuiltHash)].

Definition writeMeta (paths : Paths) (payload : json) : IO unit :=
  writeFileSync (metaPath paths) (utf8_encode (JSON_stringify_indented payload)).

Definition commandPatch (paths : Paths) (codeSign : bool) : IO unit :=
  ensureExists (infoPlistPath paths) "Info.plist" ;;
  ensureExists (asarPath paths) "app.asar" ;;
  let! originalAsar := readFileSync (asarPath paths) in
  ensureBackup paths originalAsar ;;
  let! originalHash := lift (getAsarHeaderHash originalAsar) in
  let! originalPlistHash := getInfoPlistAsarHash (infoPlistPath paths) in
  let! loaded := lift (loadBundleSourceFromAsar originalAsar) in
  let! patch := lift (patchBundleSource (bundleSource loaded)) in
  if alreadyPatched patch then
    if negb (String.eqb originalPlistHash originalHash) then
      setInfoPlistAsarHash (infoPlistPath paths) originalHash ;;
      log "Darcula patch already present; Info.plist hash fixed." ;;
      (if codeSign then tryCodeSign (appPath paths) else ret tt)
    else log "Darcula patch is already applied."
  else
    let fileMap :=
      <[TARGET_BUNDLE_PATH := utf8_encode (sourceText patch)]> (loaded_fileMap loaded) in
    let! rebuiltAsar := lift (buildAsar (loaded_header loaded) fileMap) in
    let! rebuiltHash := lift (getAsarHeaderHash rebuiltAsar) in
    writeFileSync (tempPath paths) rebuiltAsar ;;
    renameSync (tempPath paths) (asarPath paths) ;;
    setInfoPlistAsarHash (infoPlistPath paths) rebuiltHash ;;
    let! now := (fun w => (Ok (clock w), w)) in
    writeMeta paths (meta_payload paths now originalPlistHash originalHash rebuiltHash) ;;
    log "Darcula patch applied." ;;
    log ("old sha256: " +:+ originalHash) ;;
    log ("new sha256: " +:+ rebuiltHash) ;;
    if codeSign then tryCodeSign (appPath paths) else ret tt.

End Commands.

(** ** The command line *)

(** What [parseArgs] returns. *)
Module Args.
Record t : Type := {
  command : string;
  appPath : string;
  codeSign : bool
}.
End Args.

(** The loop of [parseArgs]: [rest] is [argv] from index [i] on.  An
    [--app] that no non-empty value follows falls through to the last
    test, and is thrown as an unknown argument. *)
Fixpoint parseArgs_loop (rest : list string) (parsed : Args.t) : result Args.t :=
  match rest with
  | [] => Ok parsed
  | arg :: rest' =>
      let otherwise :=
        if String.eqb arg "--no-codesign"
        then parseArgs_loop rest'
               {| Args.command := Args.command parsed;
                  Args.appPath := Args.appPath parsed;
                  Args.codeSign := false |}
        else Throw (Error ("Unknown argument: " +:+ arg)) in
      if String.eqb arg "--app" then
        match rest' with
        | value :: rest'' =>
            if negb (String.eqb value "")
            then parseArgs_loop rest''
                   {| Args.command := Args.command parsed;
                      Args.appPath := value;
                      Args.codeSign := Args.codeSign parsed |}
            else otherwise
        | [] => otherwise
        end
      else otherwise
  end.

Definition parseArgs (argv : list string) : result Args.t :=
  parseArgs_loop (drop 3 argv)
    {| Args.command :=
         match argv !! 2%nat with
         | Some c => if String.eqb c "" then "status" else c
         | None => "status"
         end;
       Args.appPath := "/Applications/Codex.app";
       Args.codeSign := true |}.

(** ** The other commands, and the entry point *)

Section Main.
Context `{RT : Runtime}.

Definition commandStatus (paths : Paths) : IO unit :=
  ensureExists (infoPlistPath paths) "Info.plist" ;;
  ensureExists (asarPath paths) "app.asar" ;;
  let! asarBuffer := readFileSync (asarPath paths) in
  let! loaded := lift (loadBundleSourceFromAsar asarBuffer) in
  let! headerHash := lift (getAsarHeaderHash asarBuffer) in
  let! plistHash := getInfoPlistAsarHash (infoPlistPath paths) in
  log ("app: " +:+ appPath paths) ;;
  log ("asar: " +:+ asarPath paths) ;;
  let! found := existsSync (backupPath paths) in
  log ("backup: " +:+ (if found then "yes" else "no")) ;;
  let! found := existsSync (infoPlistBackupPath paths) in
  log ("plist-backup: " +:+ (if found then "yes" else "no")) ;;
  log ("darcula-patched: "
       +:+ (if includes (bundleSource loaded) PATCH_MARKER then "yes" else "no")) ;;
  log ("asar-header-sha256: " +:+ headerHash) ;;
  log ("plist-sha256: " +:+ plistHash) ;;
  log ("integrity-match: "
       +:+ (if String.eqb headerHash plistHash then "yes" else "no")).

Definition commandRestore (paths : Paths) (codeSign : bool) : IO unit :=
  ensureExists (infoPlistPath paths) "Info.plist" ;;
  ensureExists (backupPath paths) "Darcula backup" ;;
  let! backupAsar := readFileSync (backupPath paths) in
  writeFileSync (tempPath paths) backupAsar ;;
  renameSync (tempPath paths) (asarPath paths) ;;
  let! found := existsSync (infoPlistBackupPath paths) in
  (if found then copyFileSync (infoPlistBackupPath paths) (infoPlistPath paths)
   else warn ("Info.plist backup not found (" +:+ infoPlistBackupPath paths
              +:+ "), keeping current Info.plist.")) ;;
  log "Original app.asar restored from backup." ;;
  if codeSign then tryCodeSign (appPath paths) else ret tt.

Definition printUsage : IO unit :=
  log "Usage:" ;;
  log "  node codex-darcula-theme.js status [--app /Applications/Codex.app]" ;;
  log "  node codex-darcula-theme.js patch  [--app /Applications/Codex.app] [--no-codesign]" ;;
  log "  node codex-darcula-theme.js restore [--app /Applications/Codex.app] [--no-codesign]".

(** [main], with [process.argv] as its argument. *)
Definition main (argv : list string) : IO unit :=
  let! args := lift (parseArgs argv) in
  let paths := getPaths (Args.appPath args) in
  if String.eqb (Args.command args) "status" then commandStatus paths
  else if String.eqb (Args.command args) "patch"
       then commandPatch paths (Args.codeSign args)
  else if String.eqb (Args.command args) "restore"
       then commandRestore paths (Args.codeSign args)
  else printUsage ;; throw (Error ("Unknown command: " +:+ Args.command args)).

End Main.

(** ** A small runtime, to run the model on examples

    A JSON printer and parser for the values of [json] (no white space on
    output; no fractions, no exponents; keys are kept in the order of the
    text), the identity on ASCII for UTF-8, a property list that holds the
    hash alone, and a short digest in place of SHA-256 (no statement below
    depends on its values). *)

Module Mini.

Definition dq : ascii := ascii_of_nat 34.
Definition backslash : ascii := ascii_of_nat 92.

Definition hex_digit (n : nat) : ascii :=
  ascii_of_nat (if Nat.ltb n 10 then 48 + n else 87 + n)%nat.

Definition escape_char (c : ascii) : string :=
  let n := nat_of_ascii c in
  if Ascii.eqb c dq then String backslash (String dq EmptyString)
  else if Ascii.eqb c backslash then String backslash (String backslash EmptyString)
  else if Nat.eqb n 8 then String backslash "b"
  else if Nat.eqb n 9 then String backslash "t"
  else if Nat.eqb n 10 then String backslash "n"
  else if Nat.eqb n 12 then String backslash "f"
  else if Nat.eqb n 13 then String backslash "r"
  else if Nat.ltb n 32
       then String backslash
              (String "u" (String "0" (String "0"
                 (String (hex_digit (n / 16)) (String (hex_digit (n mod 16)) EmptyString)))))
  else String c EmptyString.

Fixpoint escape (s : string) : string :=
  match s with
  | EmptyString => EmptyString
  | String c s' => escape_char c +:+ escape s'
  end.

(** QuoteJSONString *)
Definition quote (s : string) : string :=
  String dq (escape s +:+ String dq EmptyString).

Fixpoint stringify (v : json) : string :=
  match v with
  | JNull => "null"
  | JBool true => "true"
  | JBool false => "false"
  | JNum n => NumberToString n
  | JStr s => quote s
  | JArr items =>
      "[" +:+ (fix elements (l : list json) : string :=
                 match l with
                 | [] => EmptyString
                 | [x] => stringify x
                 | x :: l' => stringify x +:+ "," +:+ elements l'
                 end) items +:+ "]"
  | JObj fields =>
      "{" +:+ (fix members (l : list (string * json)) : string :=
                 match l with
                 | [] => EmptyString
                 | [(k, x)] => quote k +:+ ":" +:+ stringify x
                 | (k, x) :: l' => quote k +:+ ":" +:+ stringify x +:+ "," +:+ members l'
                 end) fields +:+ "}"
  end.

Fixpoint skip_ws (s : string) : string :=
  match s with
  | String c s' => if is_whitespace c then skip_ws s' else s
  | EmptyString => EmptyString
  end.

Definition hex_value (c : ascii) : option nat :=
  let n := nat_of_ascii c in
  if (Nat.leb 48 n && Nat.leb n 57)%bool then Some (n - 48)%nat
  else if (Nat.leb 97 n && Nat.leb n 102)%bool then Some (n - 87)%nat
  else if (Nat.leb 65 n && Nat.leb n 70)%bool then Some (n - 55)%nat
  else None.

(** The characters of a string literal, after its opening quote. *)
Fixpoint parse_chars (s : string) : option (string * string) :=
  match s with
  | EmptyString => None
  | String c rest =>
      if Ascii.eqb c dq then Some (EmptyString, rest)
      else if Ascii.eqb c backslash then
        match rest with
        | String e rest' =>
            if Ascii.eqb e "u" then
              match rest' with
              | String h1 (String h2 (String h3 (String h4 rest''))) =>
                  match hex_value h1, hex_value h2, hex_value h3, hex_value h4 with
                  | Some 0%nat, Some 0%nat, Some a, Some b =>
                      match parse_chars rest'' with
                      | Some (text, after) =>
                          Some (String (ascii_of_nat (16 * a + b)) text, after)
                      | None => None
                      end
                  | _, _, _, _ => None
                  end
              | _ => None
              end
            else
              let decoded :=
                if Ascii.eqb e "b" then Some (ascii_of_nat 8)
                else if Ascii.eqb e "t" then Some (ascii_of_nat 9)
                else if Ascii.eqb e "n" then Some (ascii_of_nat 10)
                else if Ascii.eqb e "f" then Some (ascii_of_nat 12)
                else if Ascii.eqb e "r" then Some (ascii_of_nat 13)
                else if (Ascii.eqb e dq || Ascii.eqb e backslash || Ascii.eqb e "/")%bool
                     then Some e
                else None in
              match decoded, parse_chars rest' with
              | Some c', Some (text, after) => Some (String c' text, after)
              | _, _ => None
              end
        | EmptyString => None
        end
      else if Nat.ltb (nat_of_ascii c) 32 then None
      else match parse_chars rest with
           | Some (text, after) => Some (String c text, after)
           | None => None
           end
  end.

Definition is_digit (c : ascii) : bool :=
  (Nat.leb 48 (nat_of_ascii c) && Nat.leb (nat_of_ascii c) 57)%bool.

Fixpoint parse_digits (s : string) (acc : Z) : Z * string :=
  match s with
  | String c s' =>
      if is_digit c then parse_digits s' (10 * acc + Z.of_nat (nat_of_ascii c - 48))
      else (acc, s)
  | EmptyString => (acc, s)
  end.

(** An integer literal; a fraction or an exponent is refused. *)
Definition parse_number (s : string) : option (Z * string) :=
  let '(negative, s) :=
    match s with
    | String "-" s' => (true, s')
    | _ => (false, s)
    end in
  match s with
  | String c _ =>
      if is_digit c then
        let '(n, rest) := parse_digits s 0 in
        match rest with
        | String "." _ | String "e" _ | String "E" _ => None
        | _ => Some (if negative then - n else n, rest)
        end
      else None
  | EmptyString => None
  end.

Definition expect (word : string) (v : json) (s : string) : option (json * string) :=
  if startsWith s word then Some (v, string_drop (String.length word) s) else None.

Fixpoint parse_value (fuel : nat) (s : string) : option (json * string) :=
  match fuel with
  | O => None
  | S fuel' =>
      match skip_ws s with
      | String c rest =>
          if Ascii.eqb c "n" then expect "null" JNull (String c rest)
          else if Ascii.eqb c "t" then expect "true" (JBool true) (String c rest)
          else if Ascii.eqb c "f" then expect "false" (JBool false) (String c rest)
          else if Ascii.eqb c dq then
            match parse_chars rest with
            | Some (text, after) => Some (JStr text, after)
            | None => None
            end
          else if Ascii.eqb c "[" then
            match skip_ws rest with
            | String "]" after => Some (JArr [], after)
            | _ => parse_elements fuel' rest []
            end
          else if Ascii.eqb c "{" then
            match skip_ws rest with
            | String "}" after => Some (JObj [], after)
            | _ => parse_members fuel' rest []
            end
          else match parse_number (String c rest) with
               | Some (n, after) => Some (JNum n, after)
               | None => None
               end
      | EmptyString => None
      end
  end
with parse_elements (fuel : nat) (s : string) (acc : list json) : option (json * string) :=
  match fuel with
  | O => None
  | S fuel' =>
      match parse_value fuel' s with
      | Some (v, after) =>
          match skip_ws after with
          | String "," rest => parse_elements fuel' rest (acc ++ [v])
          | String "]" rest => Some (JArr (acc ++ [v]), rest)
          | _ => None
          end
      | None => None
      end
  end
with parse_members (fuel : nat) (s : string) (acc : list (string * json))
  : option (json * string) :=
  match fuel with
  | O => None
  | S fuel' =>
      match skip_ws s with
      | String c rest =>
          if Ascii.eqb c dq then
            match parse_chars rest with
            | Some (key, after) =>
                match skip_ws after with
                | String ":" rest' =>
                    match parse_value fuel' rest' with
                    | Some (v, after') =>
                        match skip_ws after' with
                        | String "," rest'' =>
                            parse_members fuel' rest'' (define_property acc key v)
                        | String "}" rest'' =>
                            Some (JObj (define_property acc key v), rest'')
                        | _ => None
                        end
                    | None => None
                    end
                | _ => None
                end
            | None => None
            end
          else None
      | EmptyString => None
      end
  end.

Definition parse (text : string) : option json :=
  match parse_value (S (String.length text)) text with
  | Some (v, rest) =>
      match skip_ws rest with
      | EmptyString => Some v
      | _ => None
      end
  | None => None
  end.

(** ToNumber on a string, for the decimal integers. *)
Definition to_number (s : string) : option Z :=
  match NilZero.int_of_string s with
  | Some d => Some (Z.of_int d)
  | None => match s with EmptyString => Some 0 | _ => None end
  end.

Lemma to_number_decimal (n : Z) :
  0 <= n -> to_number (NumberToString n) = Some n.
Proof.
  intros _. unfold to_number, NumberToString.
  rewrite NilZero.isi.
  - now rewrite DecimalZ.of_to.
  - destruct n as [|p|p]; simpl; try discriminate.
    intros [= H]. now apply DecimalPos.Unsigned.to_uint_nonnil in H.
  - destruct n as [|p|p]; simpl; try discriminate.
    intros [= H]. now apply DecimalPos.Unsigned.to_uint_nonnil in H.
Qed.

(** A short checksum, printed in decimal. *)
Definition digest (buffer : Buffer) : string :=
  NumberToString
    (foldl (fun acc b => (acc * 31 + byte_to_Z b) mod 2 ^ 32) 7 buffer).

(** The property list holds the hash and nothing else. *)
Definition Print (content : Buffer) : spawn_result :=
  match content with
  | [] => {| status := 1; spawn_stdout := EmptyString;
             spawn_stderr := "Print: Entry, :ElectronAsarIntegrity, Does Not Exist" |}
  | _ => {| status := 0;
            spawn_stdout := string_of_list_byte content +:+ newline;
            spawn_stderr := EmptyString |}
  end.

Definition Set_ (hash : string) (content : Buffer) : spawn_result * Buffer :=
  ({| status := 0; spawn_stdout := EmptyString; spawn_stderr := EmptyString |},
   list_byte_of_string hash).

Definition runtime : Runtime := {|
  sha256 := digest;
  JSON_parse := parse;
  JSON_stringify := stringify;
  JSON_stringify_indented := stringify;
  utf8_decode := string_of_list_byte;
  utf8_encode := list_byte_of_string;
  StringToNumber := to_number;
  StringToNumber_NumberToString := to_number_decimal;
  PlistBuddy_Print := Print;
  PlistBuddy_Set := Set_;
  codesign_status := fun _ => 0
|}.

End Mini.

(** ** The error taxonomy of the specification

    The program throws plain [Error]s; the classes below are told apart by
    the message. *)

Inductive error_class : Type :=
  | FormatError
  | AnchorNotFoundError
  | PatchVerificationError
  | ManifestError
  | NotFoundError
  | Unclassified.

Definition class_of (e : error) : error_class :=
  match e with
  | Error message =>
      if (startsWith message "Invalid asar: "
          || startsWith message "Invalid entry offsets for ")%bool
      then FormatError
      else if (String.eqb message "Could not find nativeTheme anchor in bundle"
               || String.eqb message "Could not find BrowserWindow hook anchor in bundle")%bool
      then AnchorNotFoundError
      else if String.eqb message "Patch verification failed"
      then PatchVerificationError
      else if (startsWith message "Could not read asar hash from Info.plist"
               || startsWith message "Could not update asar hash in Info.plist")%bool
      then ManifestError
      else if includes message " not found: "
      then NotFoundError
      else Unclassified
  | _ => Unclassified
  end.

(** ** Inputs for the examples *)

Module Examples.

(** A bundle with both anchors, the first of them twice. *)
Definition bundle : string :=
  "var a=1;" +:+ themeSourceAnchor +:+ "var b=2;"
  +:+ windowCreationAnchor +:+ ";var c=3;" +:+ themeSourceAnchor +:+ "/*end*/".

(** A container written by hand: the four fields of the prelude, the header
    text and the data. *)
Definition le32 (n : Z) : Buffer :=
  [byte_of_Z n; byte_of_Z (n / 2 ^ 8); byte_of_Z (n / 2 ^ 16); byte_of_Z (n / 2 ^ 24)].

Definition container (headerJson data : string) : Buffer :=
  let n := Z.of_nat (String.length headerJson) in
  le32 4 ++ le32 (n + 8) ++ le32 (n + 4) ++ le32 n
  ++ list_byte_of_string headerJson ++ list_byte_of_string data.

Definition file_entry (offset : string) (size : Z) : json :=
  JObj [("size", JNum size); ("offset", JStr offset)].

Definition directory (entries : list (string * json)) : json :=
  JObj [("files", JObj entries)].

(** Two packed files, stored in the data region in the order opposite to
    the order of the header, and one unpacked file. *)
Definition small_header : json :=
  directory
    [("a.txt", file_entry "3" 2);
     ("lib", directory [("b.txt", file_entry "0" 3)]);
     ("n.node", JObj [("size", JNum 9); ("unpacked", JBool true)])].

Definition small_asar : Buffer := container (Mini.stringify small_header) "abcde".

(** A container that holds the bundle, and the application around it. *)
Definition app_header (bundle_size : Z) : json :=
  directory
    [(".vite", directory
        [("build", directory
            [("main-CQwPb0Th.js", file_entry "0" bundle_size)])]);
     ("package.json", file_entry (NumberToString bundle_size) 2)].

Definition app_asar (bundle_text : string) : Buffer :=
  container (Mini.stringify (app_header (Z.of_nat (String.length bundle_text))))
            (bundle_text +:+ "{}").

(** The entries of [small_header], as [extractFileMap] returns them. *)
Definition small_fileMap : gmap string Buffer :=
  <["a.txt" := list_byte_of_string "de"]>
    (<["lib/b.txt" := list_byte_of_string "abc"]> ∅).

(** The value of a [result], or a default. *)
Definition value_of {A : Type} (d : A) (r : result A) : A :=
  match r with Ok a => a | Throw _ => d end.

(** A container whose header is the empty object, followed by two bytes
    that no entry refers to; a container whose header is [null]; and a
    container with a file named [__proto__]. *)
Definition empty_asar : Buffer := container "{}" "ab".
Definition null_asar : Buffer := container "null" "".
Definition proto_header : json :=
  directory [("__proto__", file_entry "0" 3); ("b", file_entry "3" 2)].
Definition proto_asar : Buffer := container (Mini.stringify proto_header) "abcde".
Definition proto_fileMap : gmap string Buffer :=
  <["__proto__" := list_byte_of_string "abc"]>
    (<["b" := list_byte_of_string "de"]> ∅).

Definition paths : Paths := getPaths "/Applications/Codex.app".

Definition app_world (asar plist : Buffer) : world :=
  {| fs := <[asarPath paths := asar]> (<[infoPlistPath paths := plist]> ∅);
     console_log := []; console_warn := []; codesign_runs := [];
     clock := "2026-01-01T00:00:00.000Z" |}.

(** [w] with the two backup files in place. *)
Definition with_backups (asarBackup plistBackup : Buffer) (w : world) : world :=
  set_fs (fun files => <[backupPath paths := asarBackup]>
                         (<[infoPlistBackupPath paths := plistBackup]> files)) w.

End Examples.

(** [pat] occurs in [s] between [before] and [after], and nowhere earlier. *)
Definition first_occurrence (s pat before after : string) : Prop :=
  s = before +:+ pat +:+ after /\
  forall before' after' : string,
    s = before' +:+ pat +:+ after' -> (String.length before <= String.length before')%nat.

(** ** What it means for a container to be consistent *)

Section Consistency.
Context `{RT : Runtime}.

(** The data region holds [bytes] at [offset]. *)
Definition stored_at (data : Buffer) (offset : Z) (bytes : Buffer) : Prop :=
  0 <= offset /\ offset + Buffer_length bytes <= Buffer_length data /\
  take (length bytes) (drop (Z.to_nat offset) data) = bytes.

(** A packed entry tells where its bytes are, how many they are and what
    their digests are. *)
Definition entry_consistent (data : Buffer) (entry : json) : Prop :=
  is_unpacked entry = false ->
  exists (offset : Z) (bytes : Buffer),
    Number (get entry "offset") = Some offset /\
    Number (get entry "size") = Some (Buffer_length bytes) /\
    get entry "integrity" = Some (expected_integrity bytes) /\
    stored_at data offset bytes.

(** A value stored in a directory listing: consistent if it is a leaf, and
    with consistent leaves if it is a directory. *)
Definition tree_consistent (data : Buffer) (v : json) : Prop :=
  (is_directory v = false -> entry_consistent data v) /\
  forall (fuel : nat) (prefix : string) (leaf : string * json),
    leaf ∈ leaves fuel v prefix -> entry_consistent data leaf.2.

(** [runningOffset] is the number of bytes in [chunks]. *)
Definition state_consistent (st : build_state) : Prop :=
  runningOffset st = Buffer_length (concat (chunks st)).

End Consistency.

(** An action leaves the file at [path] as it is, whether it returns or
    throws. *)
Definition frames {A : Type} (path : string) (m : IO A) : Prop :=
  forall w : world, fs (m w).2 !! path = fs w !! path.

(** The six files of an application that the commands read or write. *)
Definition files (paths : Paths) : list string :=
  [infoPlistPath paths; infoPlistBackupPath paths; asarPath paths;
   backupPath paths; metaPath paths; tempPath paths].

(** An action takes every world to one that [R] relates to it, whether it
    returns or throws. *)
Definition respects {A : Type} (R : relation world) (m : IO A) : Prop :=
  forall w : world, R w (m w).2.

(** The file at [path] is as it was ([frames] is [respects (same_file path)]);
    a file that was at [path] is still there, with the same bytes; [codesign]
    has not run. *)
Definition same_file (path : string) : relation world :=
  fun w w' => fs w' !! path = fs w !! path.

Definition file_kept (path : string) : relation world :=
  fun w w' => forall content : Buffer,
      fs w !! path = Some content -> fs w' !! path = Some content.

Definition same_signatures : relation world :=
  fun w w' => codesign_runs w' = codesign_runs w.

(** A relation that does not look at the console. *)
Class ConsoleBlind (R : relation world) : Prop :=
  console_blind : forall (w : world) (logged warned : list string),
      R w {| fs := fs w; console_log := logged; console_warn := warned;
             codesign_runs := codesign_runs w; clock := clock w |}.

(** A file that was at [path] is still there, with whatever bytes. *)
Definition still_there (path : string) : relation world :=
  fun w w' => is_Some (fs w !! path) -> is_Some (fs w' !! path).

(** What [rebuildNode] asks of a leaf: that it is not [null], and that the
    map holds its bytes unless it is unpacked; and the leaf of a list on
    which, otherwise, [e] is thrown. *)
Definition leaf_ready (fileMap : gmap string Buffer) (leaf : string * json) : Prop :=
  leaf.2 <> JNull /\ (is_unpacked leaf.2 = true \/ is_Some (fileMap !! leaf.1)).

Definition thrown_on (fileMap : gmap string Buffer) (e : error)
    (ls : list (string * json)) : Prop :=
  exists (relPath : string) (entry : json),
    (relPath, entry) ∈ ls /\
    ((entry = JNull /\ e = TypeError) \/
     (entry <> JNull /\ is_unpacked entry = false /\ fileMap !! relPath = None /\
      e = Error ("Missing data for file: " +:+ relPath))).

(** * Properties *)

#[local] Arguments String.append !_ _ / : simpl nomatch.

(** ** Strings: searching and replacing *)

Section Text.

Lemma append_assoc (a b c : string) : (a +:+ b) +:+ c = a +:+ (b +:+ c).
Proof. induction a as [|x a IH]; simpl; [reflexivity | now rewrite IH]. Qed.

Lemma append_empty_r (s : string) : s +:+ EmptyString = s.
Proof. induction s as [|x s IH]; simpl; [reflexivity | now rewrite IH]. Qed.

Lemma length_append (a b : string) :
  String.length (a +:+ b) = (String.length a + String.length b)%nat.
Proof. induction a as [|x a IH]; simpl; [reflexivity | now rewrite IH]. Qed.

Lemma string_take_drop (n : nat) (s : string) :
  string_take n s +:+ string_drop n s = s.
Proof.
  revert s; induction n as [|n IH]; intros [|c s]; simpl; try reflexivity.
  now rewrite IH.
Qed.

Lemma string_drop_append (a b : string) : string_drop (String.length a) (a +:+ b) = b.
Proof. induction a as [|x a IH]; simpl; [now destruct b | exact IH]. Qed.

Lemma string_take_append (a b : string) : string_take (String.length a) (a +:+ b) = a.
Proof. induction a as [|x a IH]; simpl; [now destruct b | now rewrite IH]. Qed.

Lemma startsWith_append (pat rest : string) : startsWith (pat +:+ rest) pat = true.
Proof.
  induction pat as [|c pat IH]; simpl; [reflexivity |].
  now rewrite Ascii.eqb_refl.
Qed.

Lemma startsWith_split (s pat : string) :
  startsWith s pat = true -> s = pat +:+ string_drop (String.length pat) s.
Proof.
  revert s; induction pat as [|c pat IH]; intros s H; simpl in *.
  - now destruct s.
  - destruct s as [|d s]; [discriminate |].
    destruct (Ascii.eqb_spec c d) as [->|]; [|discriminate].
    simpl. f_equal. now apply IH.
Qed.

Lemma startsWith_iff (s pat : string) :
  startsWith s pat = true <-> exists rest, s = pat +:+ rest.
Proof.
  split.
  - intros H. eexists. now apply startsWith_split.
  - intros [rest ->]. apply startsWith_append.
Qed.

(** [indexOf] finds an occurrence. *)
Lemma indexOf_found (s pat : string) (i : nat) :
  indexOf s pat = Some i ->
  String.length (string_take i s) = i /\
  s = string_take i s +:+ pat +:+ string_drop (i + String.length pat) s.
Proof.
  revert i; induction s as [|c s IH]; intros i; simpl.
  - destruct (startsWith EmptyString pat) eqn:E; [|discriminate].
    intros [= <-]. split; [reflexivity |]. simpl.
    now apply startsWith_split in E.
  - destruct (startsWith (String c s) pat) eqn:E.
    + intros [= <-]. split; [reflexivity |]. simpl string_take.
      now apply startsWith_split in E.
    + destruct (indexOf s pat) as [j|] eqn:Ej; simpl; [|discriminate].
      intros [= <-]. destruct (IH j eq_refl) as [Hl Hs].
      simpl. split; [now rewrite Hl | now rewrite <- Hs].
Qed.

(** ... and no occurrence starts before it. *)
Lemma indexOf_first (s pat : string) (i : nat) :
  indexOf s pat = Some i ->
  forall before after : string,
    s = before +:+ pat +:+ after -> (i <= String.length before)%nat.
Proof.
  revert i; induction s as [|c s IH]; intros i; simpl.
  - destruct (startsWith EmptyString pat); [|discriminate].
    intros [= <-] ? ? _. lia.
  - destruct (startsWith (String c s) pat) eqn:E.
    + intros [= <-] ? ? _. lia.
    + destruct (indexOf s pat) as [j|] eqn:Ej; simpl; [|discriminate].
      intros [= <-] before after Hs.
      destruct before as [|b before]; simpl in Hs.
      * rewrite Hs, startsWith_append in E. discriminate.
      * injection Hs as -> Hs. simpl. apply le_n_S. now apply (IH j eq_refl _ after).
Qed.

Lemma indexOf_absent (s pat : string) :
  indexOf s pat = None ->
  forall before after : string, s <> before +:+ pat +:+ after.
Proof.
  induction s as [|c s IH]; simpl.
  - destruct (startsWith EmptyString pat) eqn:E; [discriminate |].
    intros _ [|b before] after Hs; simpl in Hs; [|discriminate].
    rewrite Hs, startsWith_append in E. discriminate.
  - destruct (startsWith (String c s) pat) eqn:E; [discriminate |].
    destruct (indexOf s pat) as [j|] eqn:Ej; simpl; [discriminate |].
    intros _ [|b before] after Hs; simpl in Hs.
    + rewrite Hs, startsWith_append in E. discriminate.
    + injection Hs as -> Hs. now apply (IH eq_refl before after).
Qed.

Lemma includes_iff (s pat : string) :
  includes s pat = true <-> exists before after, s = before +:+ pat +:+ after.
Proof.
  unfold includes. destruct (indexOf s pat) as [i|] eqn:E; split.
  - intros _. destruct (indexOf_found _ _ _ E) as [_ Hs]. eauto.
  - reflexivity.
  - discriminate.
  - intros (before & after & Hs). now apply (indexOf_absent _ _ E) in Hs.
Qed.

(** A replacement text without a dollar is inserted as it is. *)
Lemma GetSubstitution_plain (matched before after replacement : string) :
  includes replacement "$" = false ->
  GetSubstitution matched before after replacement = replacement.
Proof.
  induction replacement as [|a rest IH]; [reflexivity |].
  unfold includes in *.
  change (indexOf (String a rest) "$")
    with (if (if Ascii.eqb "$" a then true else false)
          then Some 0%nat else S <$> indexOf rest "$").
  change (GetSubstitution matched before after (String a rest))
    with (if Ascii.eqb a "$"
          then match rest with
               | String b rest' =>
                   if Ascii.eqb b "$" then "$" +:+ GetSubstitution matched before after rest'
                   else if Ascii.eqb b "&" then matched +:+ GetSubstitution matched before after rest'
                   else if Ascii.eqb b "`" then before +:+ GetSubstitution matched before after rest'
                   else if Ascii.eqb b "'" then after +:+ GetSubstitution matched before after rest'
                   else String a (GetSubstitution matched before after rest)
               | EmptyString => String a EmptyString
               end
          else String a (GetSubstitution matched before after rest)).
  rewrite (Ascii.eqb_sym a).
  destruct (Ascii.eqb "$" a); [discriminate |].
  destruct (indexOf rest "$") eqn:E; [discriminate |].
  intros _. f_equal. now apply IH.
Qed.

(** [replace] rewrites the first occurrence and nothing else. *)
Lemma replace_first_occurrence (s pat replacement : string) :
  includes s pat = true ->
  exists before after : string,
    first_occurrence s pat before after /\
    replace s pat replacement =
      before +:+ GetSubstitution pat before after replacement +:+ after.
Proof.
  unfold includes, replace. destruct (indexOf s pat) as [i|] eqn:E; [|discriminate].
  intros _. destruct (indexOf_found _ _ _ E) as [Hl Hs].
  exists (string_take i s), (string_drop (i + String.length pat) s).
  split; [split; [exact Hs |] | reflexivity].
  intros before' after' Hs'. rewrite Hl. now apply (indexOf_first _ _ _ E _ after').
Qed.

Lemma replace_absent (s pat replacement : string) :
  includes s pat = false -> replace s pat replacement = s.
Proof.
  unfold includes, replace. now destruct (indexOf s pat).
Qed.

End Text.

(** ** The patch engine *)

Section Patch.
Context `{RT : Runtime}.

Lemma patchBundleSource_marked (s : string) :
  includes s PATCH_MARKER = true ->
  patchBundleSource s = Ok {| sourceText := s; alreadyPatched := true |}.
Proof. unfold patchBundleSource. now intros ->. Qed.

(** A successful patch leaves the marker and the call of the helper in the
    text. *)
Lemma patchBundleSource_verified (s : string) (r : patch_result) :
  patchBundleSource s = Ok r ->
  includes (sourceText r) PATCH_MARKER = true /\
  (alreadyPatched r = false -> includes (sourceText r) "cdpApplyDarcula(y)" = true).
Proof.
  unfold patchBundleSource.
  destruct (includes s PATCH_MARKER) eqn:Hm.
  { intros [= <-]. simpl. split; [exact Hm | discriminate]. }
  destruct (includes s themeSourceAnchor); simpl; [|discriminate].
  destruct (includes (replace s themeSourceAnchor helperCode) windowCreationAnchor);
    simpl; [|discriminate].
  set (final := replace _ windowCreationAnchor _).
  destruct (includes final PATCH_MARKER) eqn:Hf; simpl; [|discriminate].
  destruct (includes final "cdpApplyDarcula(y)") eqn:Hc; simpl; [|discriminate].
  intros [= <-]. simpl. split; [exact Hf | intros _; exact Hc].
Qed.

End Patch.

(** C3. Applying [patchBundleSource] to its own result changes nothing: the
    second application finds the marker and returns the text it was given,
    flagged as already patched, so the text after two applications is the
    text after one and nothing is inserted twice. *)
Theorem patchBundleSource_idempotent `{RT : Runtime} (s : string) (r : patch_result) :
  patchBundleSource s = Ok r ->
  patchBundleSource (sourceText r)
  = Ok {| sourceText := sourceText r; alreadyPatched := true |}.
Proof.
  intros H. apply patchBundleSource_marked.
  now destruct (patchBundleSource_verified s r H).
Qed.

Lemma patchBundleSource_idempotent_witness :
  exists r : patch_result,
    patchBundleSource (RT := Mini.runtime) Examples.bundle = Ok r /\
    alreadyPatched r = false /\
    patchBundleSource (RT := Mini.runtime) (sourceText r)
    = Ok {| sourceText := sourceText r; alreadyPatched := true |}.
Proof.
  eexists. split; [vm_compute; reflexivity |]. split; [reflexivity |].
  apply (patchBundleSource_idempotent (RT := Mini.runtime) Examples.bundle).
  vm_compute; reflexivity.
Defined.

(** C6. On a text without the marker, [patchBundleSource] throws the error
    of a missing anchor when the first anchor is absent, the error of the
    same class when the second anchor is absent from the text after the
    first replacement, and the verification error when the final text lacks
    the marker or the call of the helper; it returns exactly when all three
    checks pass, and then its text contains both. *)
Theorem patchBundleSource_errors `{RT : Runtime} (s : string) :
  includes s PATCH_MARKER = false ->
  let step1 := replace s themeSourceAnchor helperCode in
  let step2 := replace step1 windowCreationAnchor windowCreationReplacement in
  let verified :=
    (includes step2 PATCH_MARKER && includes step2 "cdpApplyDarcula(y)")%bool in
  (includes s themeSourceAnchor = false ->
   patchBundleSource s = Throw (Error "Could not find nativeTheme anchor in bundle")
   /\ class_of (Error "Could not find nativeTheme anchor in bundle")
      = AnchorNotFoundError) /\
  (includes s themeSourceAnchor = true ->
   includes step1 windowCreationAnchor = false ->
   patchBundleSource s = Throw (Error "Could not find BrowserWindow hook anchor in bundle")
   /\ class_of (Error "Could not find BrowserWindow hook anchor in bundle")
      = AnchorNotFoundError) /\
  (includes s themeSourceAnchor = true ->
   includes step1 windowCreationAnchor = true ->
   verified = false ->
   patchBundleSource s = Throw (Error "Patch verification failed")
   /\ class_of (Error "Patch verification failed") = PatchVerificationError) /\
  (includes s themeSourceAnchor = true ->
   includes step1 windowCreationAnchor = true ->
   verified = true ->
   patchBundleSource s = Ok {| sourceText := step2; alreadyPatched := false |}) /\
  (forall r : patch_result,
     patchBundleSource s = Ok r ->
     includes (sourceText r) PATCH_MARKER = true /\
     includes (sourceText r) "cdpApplyDarcula(y)" = true).
Proof.
  intros Hm step1 step2 verified. unfold patchBundleSource. rewrite Hm.
  fold step1. fold step2. unfold verified.
  split; [|split; [|split; [|split]]].
  - intros ->. split; reflexivity.
  - intros -> ->. split; reflexivity.
  - intros -> -> Hv. simpl.
    destruct (includes step2 PATCH_MARKER), (includes step2 "cdpApplyDarcula(y)");
      simpl in *; try discriminate; split; reflexivity.
  - intros -> -> Hv. simpl.
    apply andb_true_iff in Hv as [-> ->]. reflexivity.
  - intros r H.
    destruct (includes s themeSourceAnchor); simpl in H; [|discriminate].
    destruct (includes step1 windowCreationAnchor); simpl in H; [|discriminate].
    destruct (includes step2 PATCH_MARKER) eqn:E1; simpl in H; [|discriminate].
    destruct (includes step2 "cdpApplyDarcula(y)") eqn:E2; simpl in H; [|discriminate].
    injection H as <-. split; [exact E1 | exact E2].
Qed.

Lemma patchBundleSource_errors_witness :
  includes "var a=1;" PATCH_MARKER = false /\
  patchBundleSource (RT := Mini.runtime) "var a=1;"
  = Throw (Error "Could not find nativeTheme anchor in bundle").
Proof.
  split; [reflexivity |].
  destruct (patchBundleSource_errors (RT := Mini.runtime) "var a=1;" eq_refl)
    as [H _].
  exact (proj1 (H eq_refl)).
Defined.

(** C10. On a text without the marker that is patched, only the first
    occurrence of each anchor is rewritten: the text splits around the first
    occurrence of the first anchor, what precedes and what follows it is
    kept as it is and the helper is put in its place; the text so obtained
    splits around the first occurrence of the second anchor, and the result
    keeps what precedes and what follows it and has the anchor with the call
    of the helper in its place. *)
Theorem patchBundleSource_first_occurrences `{RT : Runtime}
    (s : string) (r : patch_result) :
  includes s PATCH_MARKER = false ->
  patchBundleSource s = Ok r ->
  exists before1 after1 before2 after2 : string,
    first_occurrence s themeSourceAnchor before1 after1 /\
    let inserted := GetSubstitution themeSourceAnchor before1 after1 helperCode in
    (includes helperCode "$" = false -> inserted = helperCode) /\
    first_occurrence (before1 +:+ inserted +:+ after1)
                     windowCreationAnchor before2 after2 /\
    sourceText r = before2 +:+ windowCreationReplacement +:+ after2.
Proof.
  intros Hm. unfold patchBundleSource. rewrite Hm.
  destruct (includes s themeSourceAnchor) eqn:H1; cbn [negb]; [|discriminate].
  destruct (replace_first_occurrence s themeSourceAnchor helperCode H1)
    as (before1 & after1 & Hocc1 & ->).
  set (inserted := GetSubstitution themeSourceAnchor before1 after1 helperCode).
  destruct (includes (before1 +:+ inserted +:+ after1) windowCreationAnchor) eqn:H2;
    cbn [negb]; [|discriminate].
  destruct (replace_first_occurrence _ windowCreationAnchor
              windowCreationReplacement H2)
    as (before2 & after2 & Hocc2 & ->).
  rewrite (GetSubstitution_plain _ _ _ windowCreationReplacement) by reflexivity.
  destruct (_ || _)%bool; [discriminate |].
  intros [= <-]. exists before1, after1, before2, after2.
  repeat split; try apply Hocc1; try apply Hocc2.
  intros Hd. now apply GetSubstitution_plain.
Qed.

Lemma patchBundleSource_first_occurrences_witness :
  exists r before1 after1 before2 after2 : string,
    patchBundleSource (RT := Mini.runtime) Examples.bundle
    = Ok {| sourceText := r; alreadyPatched := false |} /\
    first_occurrence Examples.bundle themeSourceAnchor before1 after1 /\
    first_occurrence (before1 +:+ helperCode (RT := Mini.runtime) +:+ after1)
                     windowCreationAnchor before2 after2 /\
    r = before2 +:+ windowCreationReplacement +:+ after2.
Proof.
  assert (Hrun : exists r, patchBundleSource (RT := Mini.runtime) Examples.bundle
                           = Ok {| sourceText := r; alreadyPatched := false |})
    by (eexists; vm_compute; reflexivity).
  destruct Hrun as [r Hrun].
  destruct (patchBundleSource_first_occurrences (RT := Mini.runtime)
              Examples.bundle _ ltac:(vm_compute; reflexivity) Hrun)
    as (before1 & after1 & before2 & after2 & Ho1 & Hins & Ho2 & Hr).
  cbv zeta in Hins, Ho2.
  rewrite (Hins ltac:(vm_compute; reflexivity)) in Ho2.
  exists r, before1, after1, before2, after2. auto.
Defined.

(** ** Buffers *)

Section Buffers.

Lemma Buffer_slice_inside (buf : Buffer) (start end_ : Z) :
  0 <= start <= end_ -> end_ <= Buffer_length buf ->
  Buffer_slice buf start end_
  = take (Z.to_nat (end_ - start)) (drop (Z.to_nat start) buf)
  /\ Buffer_length (Buffer_slice buf start end_) = end_ - start.
Proof.
  intros Hs He. unfold Buffer_slice, slice_index, Buffer_length in *.
  destruct (Z.ltb_spec start 0); [lia |].
  destruct (Z.ltb_spec end_ 0); [lia |].
  rewrite !Z.min_l by lia. split; [reflexivity |].
  rewrite length_take, length_drop. lia.
Qed.

Lemma byte_to_Z_range (b : byte) : 0 <= byte_to_Z b < 256.
Proof.
  unfold byte_to_Z. pose proof (Byte.to_N_bounded b). lia.
Qed.

Lemma readUInt32LE_range (buf : Buffer) (offset : nat) (n : Z) :
  readUInt32LE buf offset = Ok n -> 0 <= n < 2 ^ 32.
Proof.
  unfold readUInt32LE.
  destruct (buf !! offset) as [b0|]; [|discriminate].
  destruct (buf !! (offset + 1)%nat) as [b1|]; [|discriminate].
  destruct (buf !! (offset + 2)%nat) as [b2|]; [|discriminate].
  destruct (buf !! (offset + 3)%nat) as [b3|]; [|discriminate].
  intros [= <-].
  pose proof (byte_to_Z_range b0). pose proof (byte_to_Z_range b1).
  pose proof (byte_to_Z_range b2). pose proof (byte_to_Z_range b3). lia.
Qed.

Lemma readUInt32LE_total (buf : Buffer) (offset : nat) :
  Z.of_nat offset + 4 <= Buffer_length buf ->
  exists n, readUInt32LE buf offset = Ok n.
Proof.
  unfold readUInt32LE, Buffer_length. intros H.
  destruct (lookup_lt_is_Some_2 buf offset) as [b0 ->]; [lia |].
  destruct (lookup_lt_is_Some_2 buf (offset + 1)) as [b1 ->]; [lia |].
  destruct (lookup_lt_is_Some_2 buf (offset + 2)) as [b2 ->]; [lia |].
  destruct (lookup_lt_is_Some_2 buf (offset + 3)) as [b3 ->]; [lia |].
  eauto.
Qed.

End Buffers.

(** ** Reading the prelude *)

(** C7. [parseAsar] throws a format error on every buffer shorter than the
    least size it accepts (20 bytes) and on every buffer whose header
    length field puts the end of the header past the end of the buffer; on
    every other buffer the field is read and the header is the slice of
    exactly that many bytes after the 16 bytes of the prelude, and only the
    JSON decoding of that slice can still fail. *)
Theorem parseAsar_prelude `{RT : Runtime} (buffer : Buffer) :
  (Buffer_length buffer < 20 ->
   parseAsar buffer = Throw (Error "Invalid asar: too small")
   /\ class_of (Error "Invalid asar: too small") = FormatError) /\
  (20 <= Buffer_length buffer ->
   exists n : Z,
     readUInt32LE buffer 12 = Ok n /\ 0 <= n < 2 ^ 32 /\
     (Buffer_length buffer < 16 + n ->
      parseAsar buffer = Throw (Error "Invalid asar: header length exceeds file size")
      /\ class_of (Error "Invalid asar: header length exceeds file size")
         = FormatError) /\
     (16 + n <= Buffer_length buffer ->
      let region := Buffer_slice buffer 16 (16 + n) in
      region = take (Z.to_nat n) (drop 16 buffer) /\
      Buffer_length region = n /\
      parseAsar buffer
      = match JSON_parse (utf8_decode region) with
        | Some header =>
            Ok {| header := header; headerJsonLength := n; dataOffset := 16 + n |}
        | None => Throw SyntaxError
        end)).
Proof.
  split.
  - intros H. unfold parseAsar.
    destruct (Z.ltb_spec (Buffer_length buffer) 20); [|lia]. split; reflexivity.
  - intros H. destruct (readUInt32LE_total buffer 12) as [n Hn]; [lia |].
    exists n. pose proof (readUInt32LE_range _ _ _ Hn) as Hr.
    split; [exact Hn |]. split; [exact Hr |].
    unfold parseAsar. destruct (Z.ltb_spec (Buffer_length buffer) 20); [lia |].
    rewrite Hn. cbn [bind]. split.
    + intros Hlen. destruct (Z.gtb_spec (16 + n) (Buffer_length buffer)); [|lia].
      split; reflexivity.
    + intros Hlen. destruct (Z.gtb_spec (16 + n) (Buffer_length buffer)); [lia |].
      destruct (Buffer_slice_inside buffer 16 (16 + n)) as [Hs Hl]; [lia | lia |].
      cbv zeta. rewrite Hs at 1. rewrite Hl.
      replace (16 + n - 16) with n by lia.
      split; [reflexivity |]. split; reflexivity.
Qed.

Lemma parseAsar_prelude_witness :
  parseAsar (RT := Mini.runtime) (list_byte_of_string "too short")
    = Throw (Error "Invalid asar: too small") /\
  readUInt32LE Examples.small_asar 12 = Ok 129 /\
  parseAsar (RT := Mini.runtime) Examples.small_asar
    = match Mini.parse (string_of_list_byte (Buffer_slice Examples.small_asar 16 145)) with
      | Some header =>
          Ok {| header := header; headerJsonLength := 129; dataOffset := 145 |}
      | None => Throw SyntaxError
      end.
Proof.
  split.
  - destruct (parseAsar_prelude (RT := Mini.runtime) (list_byte_of_string "too short"))
      as [H _].
    apply H. vm_compute; reflexivity.
  - destruct (parseAsar_prelude (RT := Mini.runtime) Examples.small_asar)
      as [_ H].
    destruct H as (n & Hn & _ & _ & H); [vm_compute; discriminate |].
    assert (Hlen : readUInt32LE Examples.small_asar 12 = Ok 129)
      by (vm_compute; reflexivity).
    split; [exact Hlen |].
    rewrite Hlen in Hn. injection Hn as <-.
    apply H. vm_compute; discriminate.
Defined.

(** ** The backup step *)

Section Backup.
Context `{RT : Runtime}.

Lemma bool_decide_is_Some {A : Type} (o : option A) :
  bool_decide (is_Some o) = match o with Some _ => true | None => false end.
Proof.
  destruct o.
  - apply bool_decide_eq_true_2. eauto.
  - apply bool_decide_eq_false_2. intros [? ?]. discriminate.
Qed.

(** What [ensureBackup] does to the files: a missing container backup is
    written from the buffer, then a missing manifest backup is copied from
    the manifest. *)
Lemma ensureBackup_fs (paths : Paths) (buf : Buffer) (w : world) :
  let files1 :=
    match fs w !! backupPath paths with
    | Some _ => fs w
    | None => <[backupPath paths := buf]> (fs w)
    end in
  match files1 !! infoPlistBackupPath paths with
  | Some _ => (ensureBackup paths buf w).1 = Ok tt /\ fs (ensureBackup paths buf w).2 = files1
  | None =>
      match files1 !! infoPlistPath paths with
      | Some plist =>
          (ensureBackup paths buf w).1 = Ok tt /\
          fs (ensureBackup paths buf w).2 = <[infoPlistBackupPath paths := plist]> files1
      | None =>
          (ensureBackup paths buf w).1 = Throw (ENOENT (infoPlistPath paths)) /\
          fs (ensureBackup paths buf w).2 = files1
      end
  end.
Proof.
  unfold ensureBackup, io_bind, existsSync, copyFileSync, readFileSync,
    writeFileSync, log, ret, io_bind, set_fs.
  rewrite !bool_decide_is_Some. cbn [fs console_log].
  destruct (fs w !! backupPath paths) as [b|] eqn:Hb; cbn.
  - rewrite bool_decide_is_Some.
    destruct (fs w !! infoPlistBackupPath paths) as [pb|] eqn:Hpb; cbn; [auto |].
    destruct (fs w !! infoPlistPath paths); cbn; auto.
  - rewrite bool_decide_is_Some.
    destruct (<[backupPath paths := buf]> (fs w) !! infoPlistBackupPath paths)
      as [pb|] eqn:Hpb; cbn; [auto |].
    destruct (<[backupPath paths := buf]> (fs w) !! infoPlistPath paths); cbn; auto.
Qed.

End Backup.

(** C9. [ensureBackup] never overwrites: whatever file exists before the
    call, a backup of the container or of the manifest among them, has the
    same bytes after it, whether the call returns or throws; and after a
    call that returns, the container backup it created is the buffer it was
    given, and a second call, with any buffer, returns and leaves every
    file as the first call left it. *)
Theorem ensureBackup_never_overwrites
    (paths : Paths) (buf : Buffer) (w : world) :
  (forall (p : string) (content : Buffer),
     fs w !! p = Some content ->
     fs (ensureBackup paths buf w).2 !! p = Some content) /\
  (forall w1 : world,
     ensureBackup paths buf w = (Ok tt, w1) ->
     (fs w !! backupPath paths = None -> fs w1 !! backupPath paths = Some buf) /\
     forall buf2 : Buffer,
       (ensureBackup paths buf2 w1).1 = Ok tt /\
       fs (ensureBackup paths buf2 w1).2 = fs w1).
Proof.
  pose proof (ensureBackup_fs paths buf w) as H. cbv zeta in H.
  split.
  - intros p content Hp.
    assert (Hkeep : forall (q : string) (c : Buffer) (files : gmap string Buffer),
               files !! p = Some content -> files !! q = None ->
               <[q := c]> files !! p = Some content).
    { intros q c files Hf Hq. rewrite lookup_insert_ne; [exact Hf | congruence]. }
    destruct (fs w !! backupPath paths) as [b|] eqn:Hb.
    + destruct (fs w !! infoPlistBackupPath paths) as [pb|] eqn:Hpb.
      * destruct H as [_ ->]. exact Hp.
      * destruct (fs w !! infoPlistPath paths) as [plist|];
          destruct H as [_ ->]; auto.
    + destruct (<[backupPath paths := buf]> (fs w) !! infoPlistBackupPath paths)
        as [pb|] eqn:Hpb.
      * destruct H as [_ ->]. auto.
      * destruct (<[backupPath paths := buf]> (fs w) !! infoPlistPath paths)
          as [plist|]; destruct H as [_ ->]; auto.
  - intros w1 Hrun. rewrite Hrun in H. cbn [fst snd] in H.
    assert (Hboth : (fs w !! backupPath paths = None ->
                     fs w1 !! backupPath paths = Some buf) /\
                    is_Some (fs w1 !! backupPath paths) /\
                    is_Some (fs w1 !! infoPlistBackupPath paths)).
    { destruct (fs w !! backupPath paths) as [b|] eqn:Hb.
      - destruct (fs w !! infoPlistBackupPath paths) as [pb|] eqn:Hpb.
        + destruct H as [_ ->]. rewrite Hb, Hpb. split; [discriminate | eauto].
        + destruct (fs w !! infoPlistPath paths) as [plist|];
            destruct H as [[=] ->].
          rewrite lookup_insert_eq. split; [discriminate |]. split; [|eauto].
          rewrite lookup_insert_ne by congruence. eauto.
      - destruct (<[backupPath paths := buf]> (fs w) !! infoPlistBackupPath paths)
          as [pb|] eqn:Hpb.
        + destruct H as [_ ->]. rewrite Hpb, lookup_insert_eq. eauto.
        + destruct (<[backupPath paths := buf]> (fs w) !! infoPlistPath paths)
            as [plist|]; destruct H as [[=] ->].
          rewrite lookup_insert_eq.
          assert (infoPlistBackupPath paths <> backupPath paths)
            by (intros E; rewrite E, lookup_insert_eq in Hpb; discriminate).
          rewrite lookup_insert_ne, lookup_insert_eq by done. eauto. }
    destruct Hboth as (Hnew & [b Hb] & [pb Hpb]). split; [exact Hnew |].
    intros buf2. pose proof (ensureBackup_fs paths buf2 w1) as H2. cbv zeta in H2.
    rewrite Hb, Hpb in H2. exact H2.
Qed.

Lemma ensureBackup_never_overwrites_witness :
  let asar := Examples.app_asar "x" in
  let w := Examples.app_world asar (list_byte_of_string "h0") in
  let w1 := (ensureBackup Examples.paths asar w).2 in
  (ensureBackup Examples.paths asar w).1 = Ok tt /\
  fs w1 !! backupPath Examples.paths = Some asar /\
  fs (ensureBackup Examples.paths [] w1).2 = fs w1.
Proof.
  intros asar w w1.
  assert (Hrun : (ensureBackup Examples.paths asar w).1 = Ok tt)
    by (vm_compute; reflexivity).
  split; [exact Hrun |].
  destruct (ensureBackup_never_overwrites Examples.paths asar w) as [_ H].
  destruct (H w1) as [Hnew Hagain].
  { rewrite (surjective_pairing (ensureBackup Examples.paths asar w)).
    now rewrite Hrun. }
  split; [apply Hnew; vm_compute; reflexivity | apply Hagain].
Defined.

(** ** The Integrity Record *)

Section Integrity.
Context `{RT : Runtime}.

Lemma INTEGRITY_BLOCK_SIZE_pos : 0 < INTEGRITY_BLOCK_SIZE.
Proof. reflexivity. Qed.

(** The blocks cover the bytes, in order. *)
Lemma blocks_of_concat (fuel size : nat) (bytes : Buffer) :
  (0 < size)%nat -> (length bytes <= fuel)%nat ->
  concat (blocks_of fuel size bytes) = bytes.
Proof.
  intros Hsize. revert bytes; induction fuel as [|fuel IH]; intros bytes Hlen.
  - destruct bytes; [reflexivity | simpl in Hlen; lia].
  - destruct bytes as [|b bytes]; [reflexivity |].
    cbn [blocks_of concat]. rewrite IH.
    + apply take_drop.
    + rewrite length_drop. simpl in *. lia.
Qed.

(** Every block is full, except the last, which is not empty. *)
Lemma blocks_of_sizes (fuel size : nat) (bytes : Buffer) :
  (0 < size)%nat -> (length bytes <= fuel)%nat ->
  forall (i : nat) (block : Buffer),
    blocks_of fuel size bytes !! i = Some block ->
    (0 < length block <= size)%nat /\
    (S i < length (blocks_of fuel size bytes) -> length block = size)%nat.
Proof.
  intros Hsize. revert bytes; induction fuel as [|fuel IH]; intros bytes Hlen i block.
  - destruct bytes; simpl; discriminate.
  - destruct bytes as [|b bytes]; [discriminate |].
    cbn [blocks_of]. destruct i as [|i]; cbn [lookup list_lookup length].
    + intros [= <-]. rewrite length_take. split; [simpl; lia |].
      intros Hmore. destruct (drop size (b :: bytes)) as [|b' rest] eqn:Hd.
      { destruct fuel; simpl in Hmore; lia. }
      assert (length (drop size (b :: bytes)) = S (length rest)) as Hl
          by now rewrite Hd.
      rewrite length_drop in Hl. lia.
    + intros Hi. destruct (IH (drop size (b :: bytes))
                             ltac:(rewrite length_drop; simpl in *; lia) i block Hi)
        as [H1 H2].
      split; [exact H1 |]. intros Hmore. apply H2. lia.
Qed.

Lemma blocks_of_enough (fuel1 fuel2 size : nat) (bytes : Buffer) :
  (0 < size)%nat -> (length bytes <= fuel1)%nat -> (length bytes <= fuel2)%nat ->
  blocks_of fuel1 size bytes = blocks_of fuel2 size bytes.
Proof.
  intros Hsize. revert fuel2 bytes; induction fuel1 as [|fuel1 IH];
    intros fuel2 bytes H1 H2.
  - destruct bytes; simpl in *; [now destruct fuel2 | lia].
  - destruct bytes as [|b bytes]; [now destruct fuel2 |].
    destruct fuel2 as [|fuel2]; [simpl in H2; lia |].
    cbn [blocks_of]. f_equal.
    apply IH; rewrite length_drop; simpl in *; lia.
Qed.

Lemma blocks_of_fuel (fuel size : nat) (bytes : Buffer) :
  (0 < size)%nat -> (length bytes <= fuel)%nat ->
  blocks_of fuel size bytes = consecutive_blocks size bytes.
Proof.
  intros Hsize Hlen. unfold consecutive_blocks.
  now apply blocks_of_enough.
Qed.

Lemma blocks_of_step (fuel size : nat) (bytes : Buffer) :
  (0 < length bytes)%nat ->
  blocks_of (S fuel) size bytes
  = take size bytes :: blocks_of fuel size (drop size bytes).
Proof. destruct bytes; simpl; [lia | reflexivity]. Qed.

(** The loop of [computeEntryIntegrity] hashes the consecutive blocks. *)
Lemma integrity_blocks_spec (fuel : nat) (fileBuffer : Buffer) (offset : Z)
    (blocks : list string) :
  0 <= offset ->
  (length (drop (Z.to_nat offset) fileBuffer) <= fuel)%nat ->
  integrity_blocks fuel fileBuffer offset blocks
  = blocks ++ (sha256 <$> blocks_of fuel (Z.to_nat INTEGRITY_BLOCK_SIZE)
                                    (drop (Z.to_nat offset) fileBuffer)).
Proof.
  pose proof INTEGRITY_BLOCK_SIZE_pos as Hpos.
  revert offset blocks; induction fuel as [|fuel IH]; intros offset blocks Hoff Hlen.
  - destruct (drop (Z.to_nat offset) fileBuffer); [|simpl in Hlen; lia].
    simpl. now rewrite app_nil_r.
  - cbn [integrity_blocks]. unfold Buffer_length in *.
    rewrite length_drop in Hlen.
    destruct (Z.ltb_spec offset (Z.of_nat (length fileBuffer))) as [Hlt|Hge].
    + rewrite IH; [| lia | rewrite length_drop; lia].
      rewrite <- app_assoc. f_equal.
      rewrite blocks_of_step by (rewrite length_drop; lia).
      cbn [fmap list_fmap app]. f_equal.
      * f_equal. unfold Buffer_slice, slice_index, Buffer_length.
        destruct (Z.ltb_spec offset 0); [lia |].
        destruct (Z.ltb_spec (Z.min (offset + INTEGRITY_BLOCK_SIZE)
                                    (Z.of_nat (length fileBuffer))) 0); [lia |].
        rewrite (Z.min_l offset) by lia.
        destruct (Z.le_ge_cases (offset + INTEGRITY_BLOCK_SIZE)
                                (Z.of_nat (length fileBuffer))) as [Hle|Hgt].
        -- rewrite !Z.min_l by lia. f_equal. lia.
        -- rewrite (Z.min_r (offset + INTEGRITY_BLOCK_SIZE)) by lia.
           rewrite Z.min_id.
           rewrite !take_ge; [reflexivity | |]; rewrite length_drop; lia.
      * rewrite drop_drop.
        replace (Z.to_nat (offset + INTEGRITY_BLOCK_SIZE))
          with (Z.to_nat offset + Z.to_nat INTEGRITY_BLOCK_SIZE)%nat by lia.
        reflexivity.
    + rewrite drop_ge by lia. simpl. now rewrite app_nil_r.
Qed.

Lemma computeEntryIntegrity_expected (fileBuffer : Buffer) :
  computeEntryIntegrity fileBuffer = expected_integrity fileBuffer.
Proof.
  unfold computeEntryIntegrity, expected_integrity. f_equal.
  rewrite integrity_blocks_spec by (rewrite ?length_drop; simpl; lia).
  cbn [app]. rewrite drop_0. reflexivity.
Qed.

End Integrity.

(** ** Objects *)

Section Objects.

Lemma assoc_define_property_eq (fields : list (string * json)) (k : string) (v : json) :
  assoc k (define_property fields k v) = Some v.
Proof.
  induction fields as [|[k' v'] fields IH]; simpl.
  - now rewrite String.eqb_refl.
  - destruct (String.eqb_spec k k') as [->|Hne]; simpl.
    + now rewrite String.eqb_refl.
    + destruct (String.eqb_spec k k'); [contradiction | exact IH].
Qed.

Lemma assoc_define_property_ne (fields : list (string * json)) (k k' : string) (v : json) :
  k <> k' -> assoc k' (define_property fields k v) = assoc k' fields.
Proof.
  intros Hne. induction fields as [|[k0 v0] fields IH]; simpl.
  - destruct (String.eqb_spec k' k); [congruence | reflexivity].
  - destruct (String.eqb_spec k k0) as [->|Hk]; simpl.
    + destruct (String.eqb_spec k' k0); [congruence | reflexivity].
    + destruct (String.eqb_spec k' k0); [reflexivity | exact IH].
Qed.

Lemma assoc_obj_set_eq (fields : list (string * json)) (k : string) (v : json) :
  k <> "__proto__" -> assoc k (obj_set fields k v) = Some v.
Proof.
  intros Hk. unfold obj_set.
  destruct (String.eqb_spec k "__proto__"); [contradiction |].
  apply assoc_define_property_eq.
Qed.

Lemma assoc_obj_set_ne (fields : list (string * json)) (k k' : string) (v : json) :
  k <> k' -> assoc k' (obj_set fields k v) = assoc k' fields.
Proof.
  intros Hne. unfold obj_set. destruct (String.eqb k "__proto__"); [reflexivity |].
  now apply assoc_define_property_ne.
Qed.

(** An assignment adds or replaces one value and keeps the others. *)
Lemma Forall_define_property (P : json -> Prop) (fields : list (string * json))
    (k : string) (v : json) :
  Forall (fun kv => P kv.2) fields -> P v ->
  Forall (fun kv => P kv.2) (define_property fields k v).
Proof.
  intros Hf Hv. induction Hf as [|[k' v'] fields Hx Hf IH]; simpl.
  - repeat constructor. exact Hv.
  - destruct (String.eqb k k'); constructor; auto.
Qed.

Lemma Forall_obj_set (P : json -> Prop) (fields : list (string * json))
    (k : string) (v : json) :
  Forall (fun kv => P kv.2) fields -> P v ->
  Forall (fun kv => P kv.2) (obj_set fields k v).
Proof.
  intros Hf Hv. unfold obj_set. destruct (String.eqb k "__proto__"); [exact Hf |].
  now apply Forall_define_property.
Qed.

(** Assigning a fresh name appends it. *)
Lemma define_property_fresh (fields : list (string * json)) (k : string) (v : json) :
  k ∉ fields.*1 -> define_property fields k v = fields ++ [(k, v)].
Proof.
  induction fields as [|[k' v'] fields IH]; simpl; [reflexivity |].
  intros Hk. apply not_elem_of_cons in Hk as [Hne Hk].
  destruct (String.eqb_spec k k'); [contradiction |]. now rewrite IH.
Qed.

(** The decimal digits of a natural number start with a digit. *)
Lemma index_key_head (i : nat) :
  exists (c : ascii) (rest : string),
    index_key i = String c rest /\ (48 <= nat_of_ascii c <= 57)%nat.
Proof.
  unfold index_key, NumberToString.
  destruct (Z.of_nat i) as [|p|p] eqn:E; [| |lia]; cbn [Z.to_int NilZero.string_of_int].
  - exists "0"%char, EmptyString. split; [reflexivity | vm_compute; lia].
  - pose proof (DecimalPos.Unsigned.to_uint_nonnil p) as Hnil.
    destruct (Pos.to_uint p) as [|u|u|u|u|u|u|u|u|u|u]; [contradiction | ..];
      cbn [NilZero.string_of_uint NilEmpty.string_of_uint];
      eexists _, _; (split; [reflexivity | vm_compute; lia]).
Qed.

(** No index of an array or of a string is one of the names this program
    reads or assigns. *)
Lemma assoc_indexed_from {A : Type} (k : string) (l : list A)
    (g : nat -> nat) (f : nat -> A -> json) :
  (forall c rest, k = String c rest -> ~ (48 <= nat_of_ascii c <= 57)%nat) ->
  assoc k (imap (fun i x => (index_key (g i), f i x)) l) = None.
Proof.
  intros Hk. revert g f.
  induction l as [|x l IH]; intros g f; [reflexivity |].
  cbn [imap assoc].
  destruct (String.eqb_spec k (index_key (g 0%nat))) as [E|_].
  - destruct (index_key_head (g 0%nat)) as (c & rest & Hc & Hd).
    rewrite Hc in E. now apply Hk in E.
  - apply (IH (g ∘ S) (f ∘ S)).
Qed.

Lemma assoc_indexed {A : Type} (k : string) (f : nat -> A -> json) (l : list A) :
  (forall c rest, k = String c rest -> ~ (48 <= nat_of_ascii c <= 57)%nat) ->
  assoc k (imap (fun i x => (index_key i, f i x)) l) = None.
Proof. apply (assoc_indexed_from k l id f). Qed.

End Objects.

(** ** Entries: directories, leaves and their rebuilt forms *)

Ltac not_a_digit := intros ? ? [= <- _]; vm_compute; lia.

Section Entries.
Context `{RT : Runtime}.

(** The spread of a value has the property [k] that the value has, for the
    names of this program. *)
Lemma assoc_spread (v : json) (k : string) :
  (forall c rest, k = String c rest -> ~ (48 <= nat_of_ascii c <= 57)%nat) ->
  assoc k (spread v) = get v k.
Proof.
  intros Hk. destruct v; try reflexivity.
  - apply (assoc_indexed k (fun _ c => JStr (String c EmptyString))), Hk.
  - apply (assoc_indexed k (fun _ x => x)), Hk.
Qed.

Lemma is_directory_get (entry : json) :
  is_directory entry = truthy (get entry "files").
Proof.
  unfold is_directory, and_get.
  destruct entry as [|[]|n|s|items|fields]; try reflexivity.
  - cbn. destruct (n =? 0) eqn:E; cbn; [now rewrite E | reflexivity].
  - cbn. destruct (String.eqb s "") eqn:E; cbn; [now rewrite E | reflexivity].
Qed.

Lemma files_of_leaf (entry : json) :
  is_directory entry = false -> files_of entry = JObj [].
Proof.
  unfold is_directory, files_of.
  destruct (and_get entry "files") as [files|]; [|reflexivity].
  now intros ->.
Qed.

Lemma files_of_directory (entry : json) :
  is_directory entry = true ->
  exists files, get entry "files" = Some files /\ truthy (Some files) = true
                /\ files_of entry = files /\ get_prop entry "files" = Ok (Some files).
Proof.
  rewrite is_directory_get. intros Hd.
  destruct (get entry "files") as [files|] eqn:Hg; [|discriminate].
  exists files. split; [reflexivity |]. split; [exact Hd |].
  destruct entry; try discriminate.
  unfold files_of, and_get, get_prop. cbn [truthy] in Hd |- *. rewrite Hg.
  cbv beta iota. rewrite Hd. auto.
Qed.

Lemma leaves_of_leaf (fuel : nat) (entry : json) (prefix : string) :
  is_directory entry = false -> leaves fuel entry prefix = [].
Proof.
  intros H. destruct fuel; [reflexivity |].
  cbn [leaves]. now rewrite files_of_leaf.
Qed.

Lemma get_relaid_entry (entry : json) (running : Z) (buf : Buffer) :
  get (relaid_entry entry running buf) "offset" = Some (JStr (NumberToString running)) /\
  get (relaid_entry entry running buf) "size" = Some (JNum (Buffer_length buf)) /\
  get (relaid_entry entry running buf) "integrity" = Some (expected_integrity buf) /\
  get (relaid_entry entry running buf) "files" = get entry "files" /\
  get (relaid_entry entry running buf) "unpacked" = get entry "unpacked".
Proof.
  unfold relaid_entry. cbn [get].
  repeat split.
  - rewrite !assoc_obj_set_ne by discriminate. now apply assoc_obj_set_eq.
  - rewrite assoc_obj_set_ne by discriminate. now apply assoc_obj_set_eq.
  - now apply assoc_obj_set_eq.
  - rewrite !assoc_obj_set_ne by discriminate. apply assoc_spread. not_a_digit.
  - rewrite !assoc_obj_set_ne by discriminate. apply assoc_spread. not_a_digit.
Qed.

(** What [rebuild_leaf] returns. *)
Lemma rebuild_leaf_cases (fileMap : gmap string Buffer) (relPath : string)
    (entry rebuilt : json) (st st' : build_state) :
  rebuild_leaf fileMap relPath entry st = Ok (rebuilt, st') ->
  (is_unpacked entry = true /\ rebuilt = entry /\ st' = st) \/
  (is_unpacked entry = false /\
   exists fileBuffer : Buffer,
     fileMap !! relPath = Some fileBuffer /\
     rebuilt = relaid_entry entry (runningOffset st) fileBuffer /\
     st' = {| chunks := chunks st ++ [fileBuffer];
              runningOffset := runningOffset st + Buffer_length fileBuffer |}).
Proof.
  assert (Hpacked :
            forall buf : Buffer,
              fileMap !! relPath = Some buf ->
              JObj (obj_set
                      (obj_set
                         (obj_set (spread entry) "offset"
                                  (JStr (NumberToString (runningOffset st))))
                         "size" (JNum (Buffer_length buf)))
                      "integrity" (computeEntryIntegrity buf)) = rebuilt ->
              {| chunks := chunks st ++ [buf];
                 runningOffset := runningOffset st + Buffer_length buf |} = st' ->
              exists fileBuffer : Buffer,
                fileMap !! relPath = Some fileBuffer /\
                rebuilt = relaid_entry entry (runningOffset st) fileBuffer /\
                st' = {| chunks := chunks st ++ [fileBuffer];
                         runningOffset := runningOffset st + Buffer_length fileBuffer |}).
  { intros buf Hb <- <-. exists buf. unfold relaid_entry.
    now rewrite computeEntryIntegrity_expected. }
  unfold rebuild_leaf, get_prop, is_unpacked.
  destruct entry as [|b|n|s|items|fields]; cbn [bind get]; try discriminate;
    try (destruct (fileMap !! relPath) as [buf|] eqn:Hb; [|discriminate];
         intros [= H1 H2]; right; split; [reflexivity | now apply (Hpacked buf)]).
  destruct (assoc "unpacked" fields) as [[|[]| | | |]|] eqn:Hu;
    try (destruct (fileMap !! relPath) as [buf|] eqn:Hb; [|discriminate];
         intros [= H1 H2]; right; split; [reflexivity | now apply (Hpacked buf)]).
  intros [= <- <-]. left. auto.
Qed.

Lemma rebuild_leaf_is_leaf (fileMap : gmap string Buffer) (relPath : string)
    (entry rebuilt : json) (st st' : build_state) :
  rebuild_leaf fileMap relPath entry st = Ok (rebuilt, st') ->
  is_directory rebuilt = is_directory entry /\
  is_unpacked rebuilt = is_unpacked entry.
Proof.
  intros H. apply rebuild_leaf_cases in H as [(_ & -> & _)|(_ & buf & _ & -> & _)].
  - auto.
  - destruct (get_relaid_entry entry (runningOffset st) buf) as (_ & _ & _ & Hf & Hu).
    rewrite !is_directory_get. unfold is_unpacked. now rewrite Hf, Hu.
Qed.

End Entries.

(** ** Rebuilding keeps the entries consistent with the data *)

Section Rebuild.
Context `{RT : Runtime}.
Variable fileMap : gmap string Buffer.

Lemma for_of_invariant {A S : Type} (I : S -> Prop) (body : S -> A -> result S)
    (l : list A) (st st' : S) :
  (forall s x s', x ∈ l -> I s -> body s x = Ok s' -> I s') ->
  I st -> for_of body l st = Ok st' -> I st'.
Proof.
  revert st; induction l as [|x l IH]; intros st Hstep Hst; cbn [for_of].
  - now intros [= <-].
  - destruct (body st x) as [s1|] eqn:E; cbn [bind]; [|discriminate].
    apply IH.
    + intros s y s' Hy. apply Hstep. now right.
    + apply (Hstep st x s1); [now left | exact Hst | exact E].
Qed.

Lemma stored_at_app (data more : Buffer) (offset : Z) (bytes : Buffer) :
  stored_at data offset bytes -> stored_at (data ++ more) offset bytes.
Proof.
  unfold stored_at, Buffer_length. intros (H0 & Hle & Ht).
  rewrite length_app. split; [lia |]. split; [lia |].
  rewrite drop_app_le by lia. rewrite take_app_le; [exact Ht |].
  rewrite length_drop. lia.
Qed.

Lemma entry_consistent_app (data more : Buffer) (entry : json) :
  entry_consistent data entry -> entry_consistent (data ++ more) entry.
Proof.
  intros H Hu. destruct (H Hu) as (offset & bytes & Ho & Hs & Hi & Hst).
  exists offset, bytes. auto using stored_at_app.
Qed.

Lemma tree_consistent_app (data more : Buffer) (v : json) :
  tree_consistent data v -> tree_consistent (data ++ more) v.
Proof.
  intros [H1 H2]. split.
  - intros Hd. now apply entry_consistent_app, H1.
  - intros fuel prefix leaf Hin. now apply entry_consistent_app, (H2 fuel prefix).
Qed.

Lemma relaid_entry_consistent (data : Buffer) (entry : json) (bytes : Buffer) :
  entry_consistent (data ++ bytes) (relaid_entry entry (Buffer_length data) bytes).
Proof.
  intros _. exists (Buffer_length data), bytes.
  destruct (get_relaid_entry entry (Buffer_length data) bytes) as (-> & -> & -> & _).
  unfold Buffer_length. cbn [Number].
  rewrite StringToNumber_NumberToString by lia.
  repeat split; try lia.
  - unfold Buffer_length. rewrite length_app. lia.
  - rewrite Nat2Z.id, drop_app_length. now rewrite take_ge.
Qed.

Lemma rebuild_leaf_consistent (relPath : string) (entry rebuilt : json)
    (st st' : build_state) :
  is_directory entry = false ->
  rebuild_leaf fileMap relPath entry st = Ok (rebuilt, st') ->
  state_consistent st ->
  state_consistent st' /\
  (exists more, concat (chunks st') = concat (chunks st) ++ more) /\
  tree_consistent (concat (chunks st')) rebuilt.
Proof.
  intros Hleaf Hrun Hst.
  destruct (rebuild_leaf_is_leaf _ _ _ _ _ _ Hrun) as [Hd _].
  rewrite Hleaf in Hd.
  assert (Hnone : forall data fuel prefix leaf,
             leaf ∈ leaves fuel rebuilt prefix -> entry_consistent data leaf.2).
  { intros data fuel prefix leaf. rewrite leaves_of_leaf by exact Hd.
    intros Hin. now apply elem_of_nil in Hin. }
  apply rebuild_leaf_cases in Hrun as [(Hu & -> & ->)|(Hu & buf & Hb & -> & ->)].
  - split; [exact Hst |]. split; [exists []; now rewrite app_nil_r |].
    split; [|apply Hnone]. intros _ Hu'. congruence.
  - unfold state_consistent in *. cbn [chunks runningOffset].
    rewrite concat_app. cbn [concat]. rewrite app_nil_r.
    split; [unfold Buffer_length in *; rewrite length_app; lia |].
    split; [eauto |]. split; [|apply Hnone].
    intros _. rewrite Hst. apply relaid_entry_consistent.
Qed.

Lemma is_null (v : json) : v = JNull \/ v <> JNull.
Proof. destruct v; auto; right; discriminate. Qed.

(** [rebuildNode], one level unfolded. *)
Lemma rebuildNode_step (fuel : nat) (node : json) (prefix : string) (st : build_state) :
  node <> JNull ->
  rebuildNode (S fuel) fileMap node prefix st
  = if is_directory node then
      let* (out_files, st') :=
        for_of (rebuild_entry (rebuildNode fuel fileMap) fileMap prefix)
               (Object_entries (files_of node)) ([], st) in
      Ok (JObj (obj_set (spread node) "files" (JObj out_files)), st')
    else Ok (JObj (spread node), st).
Proof.
  intros Hnull. cbn [rebuildNode].
  destruct (is_directory node) eqn:Hd.
  - destruct (files_of_directory node Hd) as (files & Hg & Ht & -> & ->).
    cbn [bind]. now rewrite Ht.
  - rewrite is_directory_get in Hd.
    replace (get_prop node "files") with (Ok (get node "files"))
      by (now destruct node).
    cbn [bind]. destruct (get node "files") as [files|]; [|reflexivity].
    now rewrite Hd.
Qed.

Lemma rebuildNode_null (fuel : nat) (prefix : string) (st : build_state) :
  rebuildNode (S fuel) fileMap JNull prefix st = Throw TypeError.
Proof. reflexivity. Qed.

Lemma is_directory_spread (node : json) :
  is_directory (JObj (spread node)) = is_directory node.
Proof.
  rewrite !is_directory_get. cbn [get]. f_equal. apply assoc_spread. not_a_digit.
Qed.

Lemma is_directory_rebuilt (node : json) (out_files : list (string * json)) :
  is_directory (JObj (obj_set (spread node) "files" (JObj out_files))) = true
  /\ files_of (JObj (obj_set (spread node) "files" (JObj out_files))) = JObj out_files.
Proof.
  unfold is_directory, files_of, and_get. cbn [truthy get].
  rewrite assoc_obj_set_eq by discriminate. auto.
Qed.

Lemma elem_of_leaves (fuel : nat) (node : json) (prefix : string) (leaf : string * json) :
  leaf ∈ leaves fuel node prefix ->
  exists (fuel' : nat) (name : string) (entry : json),
    fuel = S fuel' /\ (name, entry) ∈ Object_entries (files_of node) /\
    if is_directory entry then leaf ∈ leaves fuel' entry (join_path prefix name)
    else leaf = (join_path prefix name, entry).
Proof.
  destruct fuel as [|fuel']; cbn [leaves]; intros Hin.
  - now apply elem_of_nil in Hin.
  - apply list_elem_of_In, in_flat_map in Hin as ([name entry] & Hx & Hin).
    exists fuel', name, entry. split; [reflexivity |].
    split; [now apply list_elem_of_In |].
    destruct (is_directory entry).
    + now apply list_elem_of_In.
    + destruct Hin as [<-|[]]. reflexivity.
Qed.

Lemma rebuildNode_consistent (fuel : nat) :
  forall (node : json) (prefix : string) (st : build_state)
         (out : json) (st' : build_state),
    rebuildNode fuel fileMap node prefix st = Ok (out, st') ->
    state_consistent st ->
    state_consistent st' /\
    (exists more, concat (chunks st') = concat (chunks st) ++ more) /\
    is_directory out = is_directory node /\
    forall (fuel' : nat) (prefix' : string) (leaf : string * json),
      leaf ∈ leaves fuel' out prefix' ->
      entry_consistent (concat (chunks st')) leaf.2.
Proof.
  induction fuel as [|fuel IH]; intros node prefix st out st' Hrun Hst;
    [discriminate |].
  destruct (is_null node) as [->|Hnull]; [discriminate |].
  rewrite rebuildNode_step in Hrun by exact Hnull.
  destruct (is_directory node) eqn:Hd.
  - destruct (for_of _ _ _) as [[out_files st1]|] eqn:Hloop; [|discriminate].
    cbn [bind] in Hrun. injection Hrun as <- <-.
    pose (I := fun acc : list (string * json) * build_state =>
                 state_consistent acc.2 /\
                 (exists more, concat (chunks acc.2) = concat (chunks st) ++ more) /\
                 Forall (fun kv => tree_consistent (concat (chunks acc.2)) kv.2) acc.1).
    assert (HI : I (out_files, st1)).
    { refine (for_of_invariant I _ _ _ _ _ _ Hloop).
      - intros [files s] [name entry] [files' s'] _ (Hs & [more Hmore] & Hall) Hstep.
        cbn [fst snd] in *. unfold rebuild_entry in Hstep.
        destruct (is_directory entry) eqn:Hde.
        + destruct (rebuildNode fuel fileMap entry (join_path prefix name) s)
            as [[sub s1']|] eqn:Hsub; [|discriminate].
          cbn [bind] in Hstep. injection Hstep as <- <-. unfold I. cbn [fst snd].
          destruct (IH _ _ _ _ _ Hsub Hs) as (Hs1 & [more1 Hmore1] & Hdir & Hleaves).
          split; [exact Hs1 |]. split.
          { exists (more ++ more1). now rewrite Hmore1, Hmore, app_assoc. }
          apply Forall_obj_set.
          * rewrite Hmore1. eapply Forall_impl; [exact Hall |].
            intros kv. apply tree_consistent_app.
          * split; [rewrite Hdir, Hde; discriminate | exact Hleaves].
        + destruct (rebuild_leaf fileMap (join_path prefix name) entry s)
            as [[rebuilt s1']|] eqn:Hleaf; [|discriminate].
          cbn [bind] in Hstep. injection Hstep as <- <-. unfold I. cbn [fst snd].
          destruct (rebuild_leaf_consistent _ _ _ _ _ Hde Hleaf Hs)
            as (Hs1 & [more1 Hmore1] & Htree).
          split; [exact Hs1 |]. split.
          { exists (more ++ more1). now rewrite Hmore1, Hmore, app_assoc. }
          apply Forall_obj_set; [|exact Htree].
          rewrite Hmore1. eapply Forall_impl; [exact Hall |].
          intros kv. apply tree_consistent_app.
      - split; [exact Hst |]. split; [exists []; now rewrite app_nil_r |].
        constructor. }
    destruct HI as (Hs1 & Hmore & Hall). cbn [fst snd] in *.
    destruct (is_directory_rebuilt node out_files) as [Hdir Hfiles].
    split; [exact Hs1 |]. split; [exact Hmore |]. split; [exact Hdir |].
    intros fuel' prefix' leaf Hin.
    apply elem_of_leaves in Hin as (fuel'' & name & entry & -> & Hentry & Hleaf).
    rewrite Hfiles in Hentry. cbn [Object_entries] in Hentry.
    rewrite Forall_forall in Hall. destruct (Hall _ Hentry) as [H1 H2].
    cbn [snd] in *. destruct (is_directory entry) eqn:Hde.
    + now apply (H2 fuel'' (join_path prefix' name)).
    + subst leaf. now apply H1.
  - injection Hrun as <- <-.
    split; [exact Hst |]. split; [exists []; now rewrite app_nil_r |].
    rewrite is_directory_spread. split; [now rewrite Hd |].
    intros fuel' prefix' leaf.
    rewrite leaves_of_leaf by (now rewrite is_directory_spread).
    intros Hin. now apply elem_of_nil in Hin.
Qed.

End Rebuild.

(** ** The prelude *)

Section Prelude.

Lemma byte_to_Z_of_Z (z : Z) : byte_to_Z (byte_of_Z z) = z mod 256.
Proof.
  unfold byte_to_Z, byte_of_Z.
  pose proof (Z.mod_pos_bound z 256 ltac:(lia)) as Hm.
  destruct (Byte.of_N (Z.to_N (z mod 256))) as [b|] eqn:E.
  - apply Byte.to_of_N in E. cbn [from_option id]. rewrite E. lia.
  - apply Byte.of_N_None_iff in E. lia.
Qed.

Lemma le32_decompose (v : Z) :
  0 <= v < 2 ^ 32 ->
  v mod 256 + (v / 2 ^ 8) mod 256 * 2 ^ 8
  + (v / 2 ^ 16) mod 256 * 2 ^ 16 + (v / 2 ^ 24) mod 256 * 2 ^ 24 = v.
Proof.
  intros Hv. change (2 ^ 8) with 256. change (2 ^ 16) with 65536.
  change (2 ^ 24) with 16777216. change (2 ^ 32) with 4294967296 in Hv.
  Z.div_mod_to_equations. lia.
Qed.

Lemma writeUInt32LE_length (buf buf' : Buffer) (value : Z) (offset : nat) :
  writeUInt32LE buf value offset = Ok buf' -> length buf' = length buf.
Proof.
  unfold writeUInt32LE. destruct (_ && _)%bool; [|discriminate].
  intros [= <-]. now rewrite !length_insert.
Qed.

Lemma writeUInt32LE_inv (buf buf' : Buffer) (value : Z) (offset : nat) :
  writeUInt32LE buf value offset = Ok buf' ->
  0 <= value < 2 ^ 32 /\ Z.of_nat offset + 4 <= Buffer_length buf.
Proof.
  unfold writeUInt32LE. destruct (_ && _)%bool eqn:E; [|discriminate].
  intros _. apply andb_true_iff in E as [E E3]. apply andb_true_iff in E as [E1 E2].
  lia.
Qed.

Lemma writeUInt32LE_total (buf : Buffer) (value : Z) (offset : nat) :
  0 <= value < 2 ^ 32 -> Z.of_nat offset + 4 <= Buffer_length buf ->
  exists buf', writeUInt32LE buf value offset = Ok buf'.
Proof.
  intros Hv Ho. unfold writeUInt32LE.
  destruct (Z.leb_spec 0 value); [|lia].
  destruct (Z.ltb_spec value (2 ^ 32)); [|lia].
  destruct (Z.leb_spec (Z.of_nat offset + 4) (Buffer_length buf)); [|lia].
  cbn. eauto.
Qed.

Lemma writeUInt32LE_out_of_range (buf : Buffer) (value : Z) (offset : nat) :
  2 ^ 32 <= value -> writeUInt32LE buf value offset = Throw RangeError.
Proof.
  intros Hv. unfold writeUInt32LE.
  destruct (Z.ltb_spec value (2 ^ 32)); [lia |].
  now rewrite andb_false_r.
Qed.

(** A field that was written is read back, whatever follows the buffer. *)
Lemma readUInt32LE_written (buf buf' rest : Buffer) (value : Z) (offset : nat) :
  writeUInt32LE buf value offset = Ok buf' ->
  readUInt32LE (buf' ++ rest) offset = Ok value.
Proof.
  intros Hw. destruct (writeUInt32LE_inv _ _ _ _ Hw) as [Hv Ho].
  unfold Buffer_length in Ho.
  unfold writeUInt32LE in Hw. destruct (_ && _)%bool; [|discriminate].
  injection Hw as <-. unfold readUInt32LE.
  rewrite !lookup_app_l by (rewrite !length_insert; lia).
  rewrite list_lookup_insert_ne by lia.
  rewrite list_lookup_insert_ne by lia.
  rewrite list_lookup_insert_ne by lia.
  rewrite list_lookup_insert_eq by lia.
  rewrite list_lookup_insert_ne by lia.
  rewrite list_lookup_insert_ne by lia.
  rewrite list_lookup_insert_eq by (rewrite !length_insert; lia).
  rewrite list_lookup_insert_ne by lia.
  rewrite list_lookup_insert_eq by (rewrite !length_insert; lia).
  rewrite list_lookup_insert_eq by (rewrite !length_insert; lia).
  rewrite !byte_to_Z_of_Z. f_equal. now apply le32_decompose.
Qed.

End Prelude.

(** ** The container that [buildAsar] produces *)

Section Build.
Context `{RT : Runtime}.

Lemma buildAsar_inv (header : json) (fileMap : gmap string Buffer) (asar : Buffer) :
  buildAsar header fileMap = Ok asar ->
  exists (rebuilt : json) (st : build_state) (prelude : Buffer),
    rebuildHeader header fileMap = Ok (rebuilt, st) /\
    length prelude = 16%nat /\
    asar = prelude ++ utf8_encode (JSON_stringify rebuilt) ++ concat (chunks st) /\
    readUInt32LE asar 12 = Ok (Buffer_length (utf8_encode (JSON_stringify rebuilt))) /\
    Buffer_length (utf8_encode (JSON_stringify rebuilt)) + 8 < 2 ^ 32.
Proof.
  unfold buildAsar.
  destruct (rebuildHeader header fileMap) as [[rebuilt st]|] eqn:Hre; [|discriminate].
  cbn [bind]. set (hdr := utf8_encode (JSON_stringify rebuilt)).
  destruct (writeUInt32LE (Buffer_alloc 16) 4 0) as [p1|] eqn:H1; [|discriminate].
  cbn [bind].
  destruct (writeUInt32LE p1 (Buffer_length hdr + 8) 4) as [p2|] eqn:H2; [|discriminate].
  cbn [bind].
  destruct (writeUInt32LE p2 (Buffer_length hdr + 4) 8) as [p3|] eqn:H3; [|discriminate].
  cbn [bind].
  destruct (writeUInt32LE p3 (Buffer_length hdr) 12) as [p4|] eqn:H4; [|discriminate].
  cbn [bind]. intros [= <-]. exists rebuilt, st, p4.
  split; [reflexivity |]. split.
  { rewrite (writeUInt32LE_length _ _ _ _ H4), (writeUInt32LE_length _ _ _ _ H3),
      (writeUInt32LE_length _ _ _ _ H2), (writeUInt32LE_length _ _ _ _ H1).
    reflexivity. }
  split; [reflexivity |]. split.
  - now apply readUInt32LE_written with (buf := p3).
  - apply writeUInt32LE_inv in H2. apply H2.
Qed.

(** The bytes of an entry stored in the data region are the slice of the
    container that its offset and size denote. *)
Lemma slice_stored (prelude hdr data : Buffer) (offset : Z) (bytes : Buffer) :
  length prelude = 16%nat ->
  stored_at data offset bytes ->
  Buffer_slice (prelude ++ hdr ++ data)
               (16 + Buffer_length hdr + offset)
               (16 + Buffer_length hdr + offset + Buffer_length bytes) = bytes.
Proof.
  intros Hp (H0 & Hle & Ht). unfold Buffer_length in *.
  destruct (Buffer_slice_inside (prelude ++ hdr ++ data)
              (16 + Z.of_nat (length hdr) + offset)
              (16 + Z.of_nat (length hdr) + offset + Z.of_nat (length bytes)))
    as [-> _].
  - lia.
  - unfold Buffer_length. rewrite !length_app. lia.
  - replace (Z.to_nat (16 + Z.of_nat (length hdr) + offset))
      with (length prelude + (length hdr + Z.to_nat offset))%nat by lia.
    rewrite drop_app_add', drop_app_add' by reflexivity.
    rewrite <- Ht at 2. f_equal. lia.
Qed.

Lemma slice_header (prelude hdr data : Buffer) :
  length prelude = 16%nat ->
  Buffer_slice (prelude ++ hdr ++ data) 16 (16 + Buffer_length hdr) = hdr.
Proof.
  intros Hp. unfold Buffer_length.
  destruct (Buffer_slice_inside (prelude ++ hdr ++ data) 16
              (16 + Z.of_nat (length hdr))) as [-> _].
  - lia.
  - unfold Buffer_length. rewrite !length_app. lia.
  - replace (Z.to_nat 16) with (length prelude + 0)%nat by lia.
    rewrite drop_app_add' by reflexivity. rewrite drop_0.
    replace (Z.to_nat (16 + Z.of_nat (length hdr) - 16)) with (length hdr) by lia.
    now rewrite take_app_length.
Qed.

(** The rebuilt container is parsed back when the JSON codec reads the
    header back and the container has the least size. *)
Lemma parseAsar_built (prelude hdr data : Buffer) (rebuilt : json) :
  length prelude = 16%nat ->
  readUInt32LE (prelude ++ hdr ++ data) 12 = Ok (Buffer_length hdr) ->
  20 <= Buffer_length (prelude ++ hdr ++ data) ->
  JSON_parse (utf8_decode hdr) = Some rebuilt ->
  parseAsar (prelude ++ hdr ++ data)
  = Ok {| header := rebuilt;
          headerJsonLength := Buffer_length hdr;
          dataOffset := 16 + Buffer_length hdr |}.
Proof.
  intros Hp Hread H20 Hjson. unfold parseAsar.
  destruct (Z.ltb_spec (Buffer_length (prelude ++ hdr ++ data)) 20); [lia |].
  rewrite Hread. cbn [bind].
  destruct (Z.gtb_spec (16 + Buffer_length hdr)
              (Buffer_length (prelude ++ hdr ++ data))) as [Hgt|_].
  { unfold Buffer_length in Hgt. rewrite !length_app in Hgt. lia. }
  rewrite slice_header by exact Hp. now rewrite Hjson.
Qed.

(** [buildAsar] returns when the header is rebuilt and its text fits the
    fields of the prelude. *)
Lemma buildAsar_total (header : json) (fileMap : gmap string Buffer)
    (rebuilt : json) (st : build_state) :
  rebuildHeader header fileMap = Ok (rebuilt, st) ->
  Buffer_length (utf8_encode (JSON_stringify rebuilt)) + 8 < 2 ^ 32 ->
  exists asar, buildAsar header fileMap = Ok asar.
Proof.
  intros Hre Hlen. unfold buildAsar. rewrite Hre. cbn [bind].
  set (hdr := utf8_encode (JSON_stringify rebuilt)) in *.
  assert (Hn : 0 <= Buffer_length hdr) by (unfold Buffer_length; lia).
  assert (Hfits : forall (buf : Buffer) (value : Z) (offset : nat),
             length buf = 16%nat -> (offset <= 12)%nat ->
             0 <= value <= Buffer_length hdr + 8 ->
             exists buf', writeUInt32LE buf value offset = Ok buf'
                          /\ length buf' = 16%nat).
  { intros buf value offset Hb Ho Hv.
    destruct (writeUInt32LE_total buf value offset) as [buf' Hw].
    - lia.
    - unfold Buffer_length. lia.
    - exists buf'. split; [exact Hw |].
      now rewrite (writeUInt32LE_length _ _ _ _ Hw). }
  destruct (Hfits (Buffer_alloc 16) 4 0%nat) as (p1 & -> & L1);
    [reflexivity | lia | lia |]. cbn [bind].
  destruct (Hfits p1 (Buffer_length hdr + 8) 4%nat) as (p2 & -> & L2);
    [exact L1 | lia | lia |]. cbn [bind].
  destruct (Hfits p2 (Buffer_length hdr + 4) 8%nat) as (p3 & -> & L3);
    [exact L2 | lia | lia |]. cbn [bind].
  destruct (Hfits p3 (Buffer_length hdr) 12%nat) as (p4 & -> & L4);
    [exact L3 | lia | lia |]. cbn [bind].
  eauto.
Qed.

(** ... and throws when it does not fit. *)
Lemma buildAsar_header_too_long (header : json) (fileMap : gmap string Buffer)
    (rebuilt : json) (st : build_state) :
  rebuildHeader header fileMap = Ok (rebuilt, st) ->
  2 ^ 32 <= Buffer_length (utf8_encode (JSON_stringify rebuilt)) + 8 ->
  buildAsar header fileMap = Throw RangeError.
Proof.
  intros Hre Hlen. unfold buildAsar. rewrite Hre. cbn [bind].
  destruct (writeUInt32LE (Buffer_alloc 16) 4 0) as [p1|] eqn:H1; [|discriminate].
  cbn [bind]. now rewrite writeUInt32LE_out_of_range.
Qed.

End Build.

(** C2. In every container that [buildAsar] produces, the header it
    serialises gives every packed entry an Integrity Record computed from
    the bytes the container stores for that entry (the slice that the
    entry's offset and size denote): the hash is the SHA-256 digest of those
    bytes and the blocks are the digests, in order, of their consecutive
    blocks of [INTEGRITY_BLOCK_SIZE] bytes, the last one possibly shorter.
    The header is found in the container at the place the prelude tells,
    and it is the header [parseAsar] returns when the JSON codec reads back
    what it wrote. *)
Theorem buildAsar_integrity `{RT : Runtime}
    (header : json) (fileMap : gmap string Buffer) (asar : Buffer) :
  buildAsar header fileMap = Ok asar ->
  exists rebuiltHeader : json,
    let headerJsonBuffer := utf8_encode (JSON_stringify rebuiltHeader) in
    let dataOffset := 16 + Buffer_length headerJsonBuffer in
    readUInt32LE asar 12 = Ok (Buffer_length headerJsonBuffer) /\
    Buffer_slice asar 16 dataOffset = headerJsonBuffer /\
    (20 <= Buffer_length asar ->
     JSON_parse (utf8_decode headerJsonBuffer) = Some rebuiltHeader ->
     parseAsar asar = Ok {| header := rebuiltHeader;
                            headerJsonLength := Buffer_length headerJsonBuffer;
                            dataOffset := dataOffset |}) /\
    forall (relPath : string) (entry : json),
      (relPath, entry) ∈ all_leaves rebuiltHeader "" ->
      is_unpacked entry = false ->
      exists offset size : Z,
        Number (get entry "offset") = Some offset /\
        Number (get entry "size") = Some size /\
        let stored :=
          Buffer_slice asar (dataOffset + offset) (dataOffset + offset + size) in
        Buffer_length stored = size /\
        get entry "integrity"
        = Some (integrity_record
                  (sha256 stored)
                  (sha256 <$> consecutive_blocks (Z.to_nat INTEGRITY_BLOCK_SIZE) stored)).
Proof.
  intros Hbuild.
  destruct (buildAsar_inv _ _ _ Hbuild) as (rebuilt & st & prelude & Hre & Hp & -> & Hread & Hlen).
  exists rebuilt. cbv zeta.
  set (hdr := utf8_encode (JSON_stringify rebuilt)) in *.
  split; [exact Hread |]. split; [now apply slice_header |]. split.
  - intros H20 Hjson. now apply parseAsar_built.
  - intros relPath entry Hin Hu.
    destruct (rebuildNode_consistent fileMap _ _ _ _ _ _ Hre)
      as (_ & _ & _ & Hleaves); [reflexivity |].
    destruct (Hleaves _ _ _ Hin Hu) as (offset & bytes & Ho & Hs & Hi & Hst).
    exists offset, (Buffer_length bytes). cbn [snd] in *.
    split; [exact Ho |]. split; [exact Hs |].
    rewrite <- !Z.add_assoc, (Z.add_assoc (Buffer_length hdr)), !Z.add_assoc.
    rewrite slice_stored by assumption. split; [reflexivity | exact Hi].
Qed.

Lemma buildAsar_integrity_witness :
  let asar := Examples.value_of []
                (buildAsar (RT := Mini.runtime) Examples.small_header
                           Examples.small_fileMap) in
  buildAsar (RT := Mini.runtime) Examples.small_header Examples.small_fileMap
  = Ok asar /\
  exists rebuiltHeader : json,
    readUInt32LE asar 12
    = Ok (Buffer_length (utf8_encode (Runtime := Mini.runtime)
                           (JSON_stringify (Runtime := Mini.runtime) rebuiltHeader))) /\
    forall (relPath : string) (entry : json),
      (relPath, entry) ∈ all_leaves rebuiltHeader "" ->
      is_unpacked entry = false ->
      exists bytes : Buffer,
        get entry "integrity"
        = Some (integrity_record
                  (sha256 (Runtime := Mini.runtime) bytes)
                  (sha256 (Runtime := Mini.runtime)
                     <$> consecutive_blocks (Z.to_nat INTEGRITY_BLOCK_SIZE) bytes)).
Proof.
  intros asar.
  assert (Hbuild : buildAsar (RT := Mini.runtime) Examples.small_header
                             Examples.small_fileMap = Ok asar)
    by (vm_compute; reflexivity).
  split; [exact Hbuild |].
  destruct (buildAsar_integrity (RT := Mini.runtime) _ _ _ Hbuild)
    as (rebuilt & Hread & _ & _ & Hentries).
  exists rebuilt. split; [exact Hread |].
  intros relPath entry Hin Hu.
  destruct (Hentries relPath entry Hin Hu) as (offset & size & _ & _ & _ & Hi).
  eexists. exact Hi.
Defined.

(** ** The traversal *)

Section Traversal.
Context `{RT : Runtime}.

Lemma json_depth_field (fields : list (string * json)) (k : string) (v : json) :
  (k, v) ∈ fields -> (json_depth v < json_depth (JObj fields))%nat.
Proof.
  cbn [json_depth]. induction fields as [|[k' v'] fields IH]; intros Hin.
  - now apply elem_of_nil in Hin.
  - cbn [foldr snd]. apply elem_of_cons in Hin as [[= <- <-]|Hin]; [lia |].
    specialize (IH Hin). lia.
Qed.

Lemma json_depth_item (items : list json) (v : json) :
  v ∈ items -> (json_depth v < json_depth (JArr items))%nat.
Proof.
  cbn [json_depth]. induction items as [|v' items IH]; intros Hin.
  - now apply elem_of_nil in Hin.
  - cbn [foldr]. apply elem_of_cons in Hin as [<-|Hin]; [lia |].
    specialize (IH Hin). lia.
Qed.

Lemma assoc_elem_of (fields : list (string * json)) (k : string) (v : json) :
  assoc k fields = Some v -> (k, v) ∈ fields.
Proof.
  induction fields as [|[k' v'] fields IH]; cbn [assoc]; [discriminate |].
  destruct (String.eqb_spec k k') as [->|_].
  - intros [= ->]. now left.
  - intros H. right. now apply IH.
Qed.

(** A directory among the entries of a listing lies deeper than the
    listing, and the listing deeper than its node. *)
Lemma json_depth_entry (files : json) (name : string) (entry : json) :
  (name, entry) ∈ Object_entries files ->
  is_directory entry = true ->
  (json_depth entry < json_depth files)%nat.
Proof.
  intros Hin Hd. destruct files as [| | |s|items|fields]; cbn [Object_entries] in Hin;
    try (now apply elem_of_nil in Hin).
  - apply elem_of_lookup_imap in Hin as (i & c & [= _ ->] & _). discriminate.
  - apply elem_of_lookup_imap in Hin as (i & x & [= _ ->] & Hx).
    apply json_depth_item. now apply list_elem_of_lookup_2 in Hx.
  - now apply json_depth_field in Hin.
Qed.

Lemma json_depth_files (node : json) :
  is_directory node = true -> (json_depth (files_of node) < json_depth node)%nat.
Proof.
  intros Hd. destruct (files_of_directory node Hd) as (files & Hg & _ & -> & _).
  destruct node; try discriminate. cbn [get] in Hg.
  apply assoc_elem_of in Hg. now apply json_depth_field in Hg.
Qed.

Lemma json_depth_directory_entry (node : json) (name : string) (entry : json) :
  (name, entry) ∈ Object_entries (files_of node) ->
  is_directory entry = true ->
  (S (S (json_depth entry)) <= json_depth node)%nat.
Proof.
  intros Hin Hd. pose proof (json_depth_entry _ _ _ Hin Hd) as H1.
  destruct (is_directory node) eqn:Hn.
  - pose proof (json_depth_files node Hn). lia.
  - rewrite files_of_leaf in Hin by exact Hn. now apply elem_of_nil in Hin.
Qed.

Lemma flat_map_ext_elem {A B : Type} (f g : A -> list B) (l : list A) :
  (forall x, x ∈ l -> f x = g x) -> flat_map f l = flat_map g l.
Proof.
  induction l as [|x l IH]; intros H; [reflexivity |].
  cbn [flat_map]. rewrite (H x) by now left. f_equal. apply IH.
  intros y Hy. apply H. now right.
Qed.

(** With enough fuel the list of leaves does not depend on the fuel. *)
Lemma leaves_enough (fuel : nat) :
  forall (node : json) (prefix : string),
    (json_depth node < fuel)%nat -> leaves fuel node prefix = all_leaves node prefix.
Proof.
  induction fuel as [fuel IH] using lt_wf_ind. intros node prefix Hd.
  destruct fuel as [|fuel]; [lia |]. unfold all_leaves. cbn [leaves].
  apply flat_map_ext_elem. intros [name entry] Hin.
  destruct (is_directory entry) eqn:He; [|reflexivity].
  pose proof (json_depth_directory_entry _ _ _ Hin He).
  rewrite (IH fuel) by lia. symmetry. apply IH; lia.
Qed.

(** The leaves of a node: those of its directories and its own. *)
Lemma all_leaves_unfold (node : json) (prefix : string) :
  all_leaves node prefix
  = flat_map (fun '(name, entry) =>
                if is_directory entry then all_leaves entry (join_path prefix name)
                else [(join_path prefix name, entry)])
             (Object_entries (files_of node)).
Proof.
  unfold all_leaves at 1. cbn [leaves].
  apply flat_map_ext_elem. intros [name entry] Hin.
  destruct (is_directory entry) eqn:He; [|reflexivity].
  pose proof (json_depth_directory_entry _ _ _ Hin He).
  apply leaves_enough. lia.
Qed.

Lemma for_of_app {A S : Type} (body : S -> A -> result S) (l1 l2 : list A) (st : S) :
  for_of body (l1 ++ l2) st = let* st1 := for_of body l1 st in for_of body l2 st1.
Proof.
  revert st; induction l1 as [|x l1 IH]; intros st; [reflexivity |].
  cbn [for_of app]. destruct (body st x); cbn [bind]; [apply IH | reflexivity].
Qed.

(** [walkLeafEntries] calls the visitor on the leaves, in order. *)
Lemma walkLeafEntries_leaves {S : Type} (fuel : nat) :
  forall (node : json) (prefix : string)
         (visitor : string -> json -> S -> result S) (st : S),
    (json_depth node < fuel)%nat ->
    walkLeafEntries fuel node prefix visitor st
    = for_of (fun st leaf => visitor leaf.1 leaf.2 st) (all_leaves node prefix) st.
Proof.
  induction fuel as [|fuel IH]; intros node prefix visitor st Hd; [lia |].
  rewrite all_leaves_unfold. cbn [walkLeafEntries].
  assert (Hentries : forall name entry,
             (name, entry) ∈ Object_entries (files_of node) ->
             is_directory entry = true -> (json_depth entry < fuel)%nat).
  { intros name entry Hin He.
    pose proof (json_depth_directory_entry _ _ _ Hin He). lia. }
  revert st Hentries. generalize (Object_entries (files_of node)).
  intros entries. induction entries as [|[name entry] entries IHe]; intros st Hentries;
    [reflexivity |].
  cbn [for_of flat_map]. rewrite for_of_app.
  destruct (is_directory entry) eqn:He.
  - rewrite IH by (apply (Hentries name entry); [now left | exact He]).
    destruct (for_of _ (all_leaves entry _) st); cbn [bind]; [|reflexivity].
    apply IHe. intros n e Hin. apply (Hentries n e). now right.
  - cbn [for_of fst snd].
    destruct (visitor (join_path prefix name) entry st); cbn [bind]; [|reflexivity].
    apply IHe. intros n e Hin. apply (Hentries n e). now right.
Qed.

Lemma extractFileMap_leaves (asarBuffer : Buffer) (header : json) (dataOffset : Z) :
  extractFileMap asarBuffer header dataOffset
  = for_of (fun map leaf => extract_visitor asarBuffer dataOffset leaf.1 leaf.2 map)
           (all_leaves header "") ∅.
Proof. unfold extractFileMap. apply walkLeafEntries_leaves. lia. Qed.

End Traversal.

(** ** Rebuilding lays the leaves out in the order of the traversal *)

Section Layout.
Context `{RT : Runtime}.
Variable fileMap : gmap string Buffer.

Lemma all_leaves_entries (node : json) (prefix : string) :
  all_leaves node prefix
  = flat_map (entry_leaves prefix) (Object_entries (files_of node)).
Proof.
  rewrite all_leaves_unfold. apply flat_map_ext_elem. now intros [name entry] _.
Qed.

Lemma relayout_app (l1 l2 : list (string * json)) (running : Z) :
  relayout fileMap running (l1 ++ l2)
  = match relayout fileMap running l1 with
    | Some (out1, data1) =>
        match relayout fileMap (running + Buffer_length (concat data1)) l2 with
        | Some (out2, data2) => Some (out1 ++ out2, data1 ++ data2)
        | None => None
        end
    | None => None
    end.
Proof.
  revert running; induction l1 as [|[rel entry] l1 IH]; intros running.
  - cbn [app relayout concat]. unfold Buffer_length. cbn [length].
    rewrite Z.add_0_r. now destruct (relayout fileMap running l2) as [[? ?]|].
  - cbn [app relayout]. destruct (is_unpacked entry).
    + rewrite IH. destruct (relayout fileMap running l1) as [[out1 data1]|];
        cbn; [|reflexivity].
      now destruct (relayout fileMap _ l2) as [[out2 data2]|].
    + destruct (fileMap !! rel) as [buf|]; cbn; [|reflexivity].
      rewrite IH.
      destruct (relayout fileMap (running + Buffer_length buf) l1)
        as [[out1 data1]|]; cbn; [|reflexivity].
      unfold Buffer_length. rewrite length_app, Nat2Z.inj_add, Z.add_assoc.
      now destruct (relayout fileMap _ l2) as [[out2 data2]|].
Qed.

Lemma rebuildNode_is_directory (fuel : nat) (node : json) (prefix : string)
    (st : build_state) (out : json) (st' : build_state) :
  rebuildNode fuel fileMap node prefix st = Ok (out, st') ->
  is_directory out = is_directory node.
Proof.
  destruct fuel as [|fuel]; [discriminate |].
  destruct (is_null node) as [->|Hnull]; [discriminate |].
  rewrite rebuildNode_step by exact Hnull.
  destruct (is_directory node) eqn:Hd.
  - destruct (for_of _ _ _) as [[out_files st1]|]; [|discriminate].
    cbn [bind]. intros [= <- <-]. apply is_directory_rebuilt.
  - intros [= <- <-]. now rewrite is_directory_spread.
Qed.

(** One leaf, rebuilt by [rebuild_leaf], is laid out by [relayout]. *)
Lemma rebuild_leaf_relayout (relPath : string) (entry rebuilt : json)
    (st st' : build_state) :
  rebuild_leaf fileMap relPath entry st = Ok (rebuilt, st') ->
  exists data : list Buffer,
    relayout fileMap (runningOffset st) [(relPath, entry)]
    = Some ([(relPath, rebuilt)], data) /\
    chunks st' = chunks st ++ data /\
    runningOffset st' = runningOffset st + Buffer_length (concat data).
Proof.
  intros H. apply rebuild_leaf_cases in H as [(Hu & -> & ->)|(Hu & buf & Hb & -> & ->)];
    cbn [relayout]; rewrite Hu.
  - exists []. cbn. rewrite app_nil_r. split; [reflexivity |]. split; [reflexivity |].
    unfold Buffer_length. cbn. lia.
  - rewrite Hb. exists [buf]. cbn. rewrite app_nil_r. auto.
Qed.

(** The loop of [rebuildNode] appends the rebuilt entries under their names
    and lays their leaves out. *)
Lemma rebuild_entries_relayout (fuel : nat) (prefix : string)
    (IH : forall (node : json) (prefix : string) (st : build_state)
                 (out : json) (st' : build_state),
        rebuildNode fuel fileMap node prefix st = Ok (out, st') ->
        names_ok fuel node = true -> (json_depth node < fuel)%nat ->
        exists data : list Buffer,
          relayout fileMap (runningOffset st) (all_leaves node prefix)
          = Some (all_leaves out prefix, data) /\
          chunks st' = chunks st ++ data /\
          runningOffset st' = runningOffset st + Buffer_length (concat data)) :
  forall (entries acc : list (string * json)) (st : build_state)
         (files' : list (string * json)) (st' : build_state),
    for_of (rebuild_entry (rebuildNode fuel fileMap) fileMap prefix)
           entries (acc, st) = Ok (files', st') ->
    NoDup (acc.*1 ++ entries.*1) ->
    "__proto__" ∉ entries.*1 ->
    (forall name entry, (name, entry) ∈ entries -> is_directory entry = true ->
                        names_ok fuel entry = true /\ (json_depth entry < fuel)%nat) ->
    exists (new : list (string * json)) (data : list Buffer),
      files' = acc ++ new /\ new.*1 = entries.*1 /\
      relayout fileMap (runningOffset st) (flat_map (entry_leaves prefix) entries)
      = Some (flat_map (entry_leaves prefix) new, data) /\
      chunks st' = chunks st ++ data /\
      runningOffset st' = runningOffset st + Buffer_length (concat data).
Proof.
  induction entries as [|[name entry] entries IHe];
    intros acc st files' st' Hrun Hnodup Hproto Hdirs.
  - injection Hrun as <- <-. exists [], []. cbn. rewrite !app_nil_r.
    unfold Buffer_length. cbn. repeat split; lia.
  - cbn [for_of] in Hrun.
    destruct (rebuild_entry _ _ _ (acc, st) (name, entry)) as [[acc1 st1]|] eqn:Hstep;
      [|discriminate].
    cbn [bind] in Hrun. cbn [fmap list_fmap fst] in Hnodup, Hproto.
    apply not_elem_of_cons in Hproto as [Hname Hproto].
    assert (Hfresh : name ∉ acc.*1).
    { apply NoDup_app in Hnodup as (_ & Hdisj & _). intros Hin.
      apply (Hdisj name Hin). now left. }
    assert (Hacc1 : exists rebuilt data1,
               acc1 = acc ++ [(name, rebuilt)] /\
               relayout fileMap (runningOffset st) (entry_leaves prefix (name, entry))
               = Some (entry_leaves prefix (name, rebuilt), data1) /\
               chunks st1 = chunks st ++ data1 /\
               runningOffset st1 = runningOffset st + Buffer_length (concat data1)).
    { unfold rebuild_entry in Hstep. unfold entry_leaves. cbn [fst snd].
      assert (Hset : forall v, obj_set acc name v = acc ++ [(name, v)]).
      { intros v. unfold obj_set.
        destruct (String.eqb_spec name "__proto__"); [congruence |].
        now apply define_property_fresh. }
      destruct (is_directory entry) eqn:He.
      - destruct (rebuildNode fuel fileMap entry (join_path prefix name) st)
          as [[sub s1]|] eqn:Hsub; [|discriminate].
        cbn [bind] in Hstep. injection Hstep as <- <-.
        destruct (Hdirs name entry) as [Hok Hdepth]; [now left | exact He |].
        destruct (IH _ _ _ _ _ Hsub Hok Hdepth) as (data1 & Hre & Hc & Hr).
        exists sub, data1. rewrite (rebuildNode_is_directory _ _ _ _ _ _ Hsub), He.
        rewrite Hset. auto.
      - destruct (rebuild_leaf fileMap (join_path prefix name) entry st)
          as [[rebuilt s1]|] eqn:Hleaf; [|discriminate].
        cbn [bind] in Hstep. injection Hstep as <- <-.
        destruct (rebuild_leaf_is_leaf _ _ _ _ _ _ Hleaf) as [Hd _].
        destruct (rebuild_leaf_relayout _ _ _ _ _ Hleaf) as (data1 & Hre & Hc & Hr).
        exists rebuilt, data1. rewrite Hd, He, Hset. auto. }
    destruct Hacc1 as (rebuilt & data1 & -> & Hre1 & Hc1 & Hr1).
    destruct (IHe _ _ _ _ Hrun) as (new & data2 & -> & Hnames & Hre2 & Hc2 & Hr2).
    + rewrite fmap_app. cbn [fmap list_fmap fst]. rewrite <- app_assoc. exact Hnodup.
    + exact Hproto.
    + intros n e Hin. apply (Hdirs n e). now right.
    + exists ((name, rebuilt) :: new), (data1 ++ data2).
      rewrite <- app_assoc. split; [reflexivity |].
      split; [cbn [fmap list_fmap fst]; now rewrite Hnames |].
      cbn [flat_map]. rewrite relayout_app, Hre1, <- Hr1, Hre2.
      split; [reflexivity |]. rewrite Hc2, Hc1, Hr2, Hr1, app_assoc.
      split; [reflexivity |]. rewrite concat_app. unfold Buffer_length.
      rewrite length_app. lia.
Qed.

(** The leaves of the rebuilt header are the leaves of the header, laid out
    in the order of the traversal. *)
Lemma rebuildNode_relayout (fuel : nat) :
  forall (node : json) (prefix : string) (st : build_state)
         (out : json) (st' : build_state),
    rebuildNode fuel fileMap node prefix st = Ok (out, st') ->
    names_ok fuel node = true -> (json_depth node < fuel)%nat ->
    exists data : list Buffer,
      relayout fileMap (runningOffset st) (all_leaves node prefix)
      = Some (all_leaves out prefix, data) /\
      chunks st' = chunks st ++ data /\
      runningOffset st' = runningOffset st + Buffer_length (concat data).
Proof.
  induction fuel as [|fuel IH]; intros node prefix st out st' Hrun Hok Hdepth;
    [discriminate |].
  destruct (is_null node) as [->|Hnull]; [discriminate |].
  rewrite rebuildNode_step in Hrun by exact Hnull.
  rewrite !all_leaves_entries.
  destruct (is_directory node) eqn:Hd.
  - destruct (for_of _ _ _) as [[out_files st1]|] eqn:Hloop; [|discriminate].
    cbn [bind] in Hrun. injection Hrun as <- <-.
    cbn [names_ok] in Hok.
    apply andb_true_iff in Hok as [Hok Hsub]. apply andb_true_iff in Hok as [Hnd Hpr].
    apply bool_decide_eq_true_1 in Hnd. apply bool_decide_eq_true_1 in Hpr.
    destruct (rebuild_entries_relayout fuel prefix IH _ _ _ _ _ Hloop)
      as (new & data & -> & _ & Hre & Hc & Hr).
    + exact Hnd.
    + exact Hpr.
    + intros name entry Hin He. split.
      * rewrite forallb_forall in Hsub.
        apply list_elem_of_In, Hsub in Hin. cbn beta iota in Hin.
        now rewrite He in Hin.
      * pose proof (json_depth_directory_entry _ _ _ Hin He). lia.
    + exists data. destruct (is_directory_rebuilt node ([] ++ new)) as [_ ->].
      cbn [Object_entries app]. auto.
  - injection Hrun as <- <-. exists [].
    rewrite (files_of_leaf node Hd).
    rewrite (files_of_leaf (JObj (spread node))) by now rewrite is_directory_spread.
    cbn. rewrite app_nil_r. unfold Buffer_length. cbn.
    repeat split; lia.
Qed.

End Layout.

(** ** Extraction, and rebuilding what was extracted *)

Section Extraction.
Context `{RT : Runtime}.

Lemma extract_visitor_inv (asarBuffer : Buffer) (dataOffset : Z) (relPath : string)
    (entry : json) (map map' : gmap string Buffer) :
  extract_visitor asarBuffer dataOffset relPath entry map = Ok map' ->
  entry <> JNull /\
  ((is_unpacked entry = true /\ map' = map) \/
   (is_unpacked entry = false /\ exists bytes, map' = <[relPath := bytes]> map)).
Proof.
  assert (Hpacked :
            forall r : result (gmap string Buffer),
              r = match Number (get entry "offset"), Number (get entry "size") with
                  | Some offset, Some size =>
                      let start := dataOffset + offset in
                      let end_ := start + size in
                      if ((start <? 0) || (end_ >? Buffer_length asarBuffer))%bool
                      then Throw (Error ("Invalid entry offsets for " +:+ relPath))
                      else Ok (<[relPath := Buffer_slice asarBuffer start end_]> map)
                  | _, _ => Throw (Error ("Invalid entry offsets for " +:+ relPath))
                  end ->
              r = Ok map' -> exists bytes, map' = <[relPath := bytes]> map).
  { intros r -> H. destruct (Number _) as [offset|]; [|discriminate].
    destruct (Number _) as [size|]; [|discriminate]. cbv zeta in H.
    destruct (_ || _)%bool; [discriminate |]. injection H as <-. eauto. }
  unfold extract_visitor, get_prop, is_unpacked.
  destruct entry as [|b|n|s|items|fields]; cbn [bind]; try discriminate.
  intros H. split; [discriminate |]. cbn [get] in *.
  destruct (assoc "unpacked" fields) as [[|[]| | | |]|];
    solve [ injection H as <-; left; auto
          | right; split; [reflexivity | eapply Hpacked; [reflexivity | exact H]] ].
Qed.

(** What a successful extraction tells of the leaves and of the map. *)
Lemma extraction_facts (asarBuffer : Buffer) (dataOffset : Z) :
  forall (ls : list (string * json)) (map0 map : gmap string Buffer),
    for_of (fun map leaf => extract_visitor asarBuffer dataOffset leaf.1 leaf.2 map)
           ls map0 = Ok map ->
    (forall leaf, leaf ∈ ls ->
                  leaf.2 <> JNull /\
                  (is_unpacked leaf.2 = true \/ is_Some (map !! leaf.1))) /\
    (forall k, is_Some (map !! k) -> is_Some (map0 !! k) \/ k ∈ packed_paths ls) /\
    (forall k, is_Some (map0 !! k) -> is_Some (map !! k)).
Proof.
  induction ls as [|[rel entry] ls IH]; intros map0 map Hrun.
  - injection Hrun as <-. split; [|split]; auto.
    intros leaf Hin. now apply elem_of_nil in Hin.
  - cbn [for_of fst snd] in Hrun.
    destruct (extract_visitor asarBuffer dataOffset rel entry map0) as [map1|] eqn:Hv;
      [|discriminate].
    cbn [bind] in Hrun. destruct (IH _ _ Hrun) as (Hleaves & Hdom & Hmono).
    destruct (extract_visitor_inv _ _ _ _ _ _ Hv) as [Hnull Hcase].
    unfold packed_paths. cbn [filter list_filter].
    split; [|split].
    + intros leaf Hin. apply elem_of_cons in Hin as [->|Hin]; [|now apply Hleaves].
      cbn [fst snd]. split; [exact Hnull |].
      destruct Hcase as [(Hu & _)|(Hu & bytes & ->)]; [now left | right].
      apply Hmono. rewrite lookup_insert_eq. eauto.
    + intros k Hk. destruct (Hdom k Hk) as [Hk1|Hk1].
      * destruct Hcase as [(Hu & ->)|(Hu & bytes & ->)].
        -- left. exact Hk1.
        -- destruct (decide (rel = k)) as [<-|Hne].
           ++ right. rewrite decide_True by exact Hu. cbn. now left.
           ++ left. now rewrite lookup_insert_ne in Hk1.
      * right. destruct (decide (is_unpacked (rel, entry).2 = false)); cbn;
          [now right | exact Hk1].
    + intros k Hk. apply Hmono.
      destruct Hcase as [(Hu & ->)|(Hu & bytes & ->)]; [exact Hk |].
      destruct (decide (rel = k)) as [<-|Hne];
        [rewrite lookup_insert_eq; eauto | now rewrite lookup_insert_ne].
Qed.

Variable fileMap : gmap string Buffer.

(** [rebuildNode] returns when every leaf is an object or a primitive value
    and every packed leaf has its bytes in the map. *)
Lemma rebuild_leaf_total (relPath : string) (entry : json) (st : build_state) :
  entry <> JNull ->
  is_unpacked entry = true \/ is_Some (fileMap !! relPath) ->
  exists rebuilt st', rebuild_leaf fileMap relPath entry st = Ok (rebuilt, st').
Proof.
  intros Hnull Hcase. unfold rebuild_leaf, get_prop, is_unpacked in *.
  destruct entry as [|b|n|s|items|fields]; [contradiction | ..]; cbn [bind get] in *;
    try (destruct Hcase as [|[buf ->]]; [discriminate | eauto]).
  destruct (assoc "unpacked" fields) as [[|[]| | | |]|];
    try (destruct Hcase as [|[buf ->]]; [discriminate | eauto]).
  eauto.
Qed.

Lemma rebuild_entry_ok
    (rebuild : json -> string -> build_state -> result (json * build_state))
    (prefix name : string) (entry rebuilt : json)
    (acc : list (string * json)) (st st1 : build_state) :
  (if is_directory entry then rebuild entry (join_path prefix name) st
   else rebuild_leaf fileMap (join_path prefix name) entry st) = Ok (rebuilt, st1) ->
  rebuild_entry rebuild fileMap prefix (acc, st) (name, entry)
  = Ok (obj_set acc name rebuilt, st1).
Proof. unfold rebuild_entry. now intros ->. Qed.

Lemma rebuildNode_total (fuel : nat) :
  forall (node : json) (prefix : string) (st : build_state),
    node <> JNull -> (json_depth node < fuel)%nat ->
    (forall leaf, leaf ∈ all_leaves node prefix ->
                  leaf.2 <> JNull /\
                  (is_unpacked leaf.2 = true \/ is_Some (fileMap !! leaf.1))) ->
    exists out st', rebuildNode fuel fileMap node prefix st = Ok (out, st').
Proof.
  induction fuel as [|fuel IH]; intros node prefix st Hnull Hdepth Hleaves; [lia |].
  rewrite rebuildNode_step by exact Hnull.
  destruct (is_directory node) eqn:Hd; [|eauto].
  rewrite all_leaves_entries in Hleaves.
  assert (Hentries : forall name entry,
             (name, entry) ∈ Object_entries (files_of node) ->
             is_directory entry = true -> (json_depth entry < fuel)%nat).
  { intros name entry Hin He.
    pose proof (json_depth_directory_entry _ _ _ Hin He). lia. }
  assert (Hloop : forall entries acc st,
             (forall name entry, (name, entry) ∈ entries ->
                                 is_directory entry = true ->
                                 (json_depth entry < fuel)%nat) ->
             (forall leaf, leaf ∈ flat_map (entry_leaves prefix) entries ->
                           leaf.2 <> JNull /\
                           (is_unpacked leaf.2 = true \/ is_Some (fileMap !! leaf.1))) ->
             exists files' st',
               for_of (rebuild_entry (rebuildNode fuel fileMap) fileMap prefix)
                      entries (acc, st) = Ok (files', st')).
  { clear st Hleaves Hentries.
    induction entries as [|[name entry] entries IHe]; intros acc st Hdepths Hleaves;
      [cbn; eauto |].
    cbn [for_of].
    assert (Hone : exists rebuilt st1,
               (if is_directory entry
                then rebuildNode fuel fileMap entry (join_path prefix name) st
                else rebuild_leaf fileMap (join_path prefix name) entry st)
               = Ok (rebuilt, st1)).
    { destruct (is_directory entry) eqn:He.
      - apply IH.
        + destruct entry; discriminate.
        + apply (Hdepths name entry); [now left | exact He].
        + intros leaf Hin. apply Hleaves. cbn [flat_map].
          apply elem_of_app. left. unfold entry_leaves. cbn [fst snd]. now rewrite He.
      - destruct (Hleaves (join_path prefix name, entry)) as [Hn Hc].
        { cbn [flat_map]. apply elem_of_app. left. unfold entry_leaves.
          cbn [fst snd]. rewrite He. now left. }
        now apply rebuild_leaf_total. }
    destruct Hone as (rebuilt & st1 & Hone).
    rewrite (rebuild_entry_ok _ _ _ _ _ _ _ _ Hone). cbn [bind].
    apply IHe.
    - intros n e Hin. apply (Hdepths n e). now right.
    - intros leaf Hin. apply Hleaves. cbn [flat_map]. apply elem_of_app. now right. }
  destruct (Hloop _ [] st Hentries Hleaves) as (files' & st' & ->).
  cbn [bind]. eauto.
Qed.

End Extraction.

(** ** Extracting what was rebuilt *)

Section Reextraction.
Context `{RT : Runtime}.
Variable fileMap : gmap string Buffer.

Lemma reinserted_cons (rel : string) (entry : json) (ls : list (string * json))
    (map : gmap string Buffer) :
  reinserted fileMap ((rel, entry) :: ls) map
  = reinserted fileMap ls
      (if is_unpacked entry then map
       else match fileMap !! rel with
            | Some bytes => <[rel := bytes]> map
            | None => map
            end).
Proof. reflexivity. Qed.

Lemma extract_visitor_unpacked (asarBuffer : Buffer) (dataOffset : Z)
    (relPath : string) (entry : json) (map : gmap string Buffer) :
  is_unpacked entry = true ->
  extract_visitor asarBuffer dataOffset relPath entry map = Ok map.
Proof.
  unfold is_unpacked, extract_visitor, get_prop.
  destruct entry; try discriminate. cbn [bind].
  destruct (get _ "unpacked") as [[|[]| | | |]|]; try discriminate. reflexivity.
Qed.

Lemma extract_visitor_relaid (prelude hdr data : Buffer) (relPath : string)
    (entry : json) (offset : Z) (bytes : Buffer) (map : gmap string Buffer) :
  length prelude = 16%nat ->
  is_unpacked entry = false ->
  stored_at data offset bytes ->
  extract_visitor (prelude ++ hdr ++ data) (16 + Buffer_length hdr) relPath
                  (relaid_entry entry offset bytes) map
  = Ok (<[relPath := bytes]> map).
Proof.
  intros Hp Hu Hst. pose proof Hst as (H0 & Hle & _).
  destruct (get_relaid_entry entry offset bytes) as (Ho & Hs & _ & _ & Hun).
  unfold extract_visitor.
  replace (get_prop (relaid_entry entry offset bytes) "unpacked")
    with (Ok (get entry "unpacked")) by (now rewrite <- Hun).
  cbn [bind]. rewrite Ho, Hs. cbn [Number].
  rewrite StringToNumber_NumberToString by exact H0.
  assert (Hnot : match get entry "unpacked" with
                 | Some (JBool true) => false
                 | _ => true
                 end = true).
  { unfold is_unpacked in Hu. now destruct (get entry "unpacked") as [[|[]| | | |]|]. }
  cbv zeta. rewrite slice_stored by assumption.
  destruct (Z.ltb_spec (16 + Buffer_length hdr + offset) 0) as [Hneg|_].
  { unfold Buffer_length in *. lia. }
  destruct (Z.gtb_spec (16 + Buffer_length hdr + offset + Buffer_length bytes)
              (Buffer_length (prelude ++ hdr ++ data))) as [Hgt|_].
  { unfold Buffer_length in *. rewrite !length_app in Hgt. lia. }
  cbn [orb]. now destruct (get entry "unpacked") as [[|[]| | | |]|].
Qed.

(** Extraction from the rebuilt container sets, for every packed leaf, the
    bytes that the map held for it. *)
Lemma extract_relayout (prelude hdr : Buffer) :
  length prelude = 16%nat ->
  forall (ls : list (string * json)) (running : Z) (ls' : list (string * json))
         (data : list Buffer) (pre post : Buffer) (map : gmap string Buffer),
    relayout fileMap running ls = Some (ls', data) ->
    running = Buffer_length pre ->
    for_of (fun map leaf =>
              extract_visitor (prelude ++ hdr ++ (pre ++ concat data ++ post))
                              (16 + Buffer_length hdr) leaf.1 leaf.2 map)
           ls' map
    = Ok (reinserted fileMap ls map).
Proof.
  intros Hp. induction ls as [|[rel entry] ls IH];
    intros running ls' data pre post map Hre Hrun.
  - injection Hre as <- <-. reflexivity.
  - cbn [relayout] in Hre. rewrite reinserted_cons.
    destruct (is_unpacked entry) eqn:Hu.
    + destruct (relayout fileMap running ls) as [[out data1]|] eqn:Hrest;
        [|discriminate].
      cbn in Hre. injection Hre as <- <-.
      cbn [for_of fst snd]. rewrite extract_visitor_unpacked by exact Hu.
      cbn [bind]. now apply (IH running).
    + destruct (fileMap !! rel) as [buf|] eqn:Hb; [|discriminate]. cbn in Hre.
      destruct (relayout fileMap (running + Buffer_length buf) ls)
        as [[out data1]|] eqn:Hrest; [|discriminate].
      cbn in Hre. injection Hre as <- <-.
      cbn [for_of fst snd concat].
      rewrite extract_visitor_relaid; [| exact Hp | exact Hu |].
      * cbn [bind].
        replace (pre ++ (buf ++ concat data1) ++ post)
          with ((pre ++ buf) ++ concat data1 ++ post)
          by (now rewrite <- !app_assoc).
        apply (IH (running + Buffer_length buf)); [exact Hrest |].
        unfold Buffer_length. rewrite length_app. subst running.
        unfold Buffer_length. lia.
      * subst running. unfold stored_at, Buffer_length.
        rewrite !length_app. split; [lia |]. split; [lia |].
        rewrite Nat2Z.id, drop_app_length, <- app_assoc.
        now rewrite take_app_length.
Qed.

Lemma packed_paths_cons (rel : string) (entry : json) (ls : list (string * json)) :
  packed_paths ((rel, entry) :: ls)
  = if is_unpacked entry then packed_paths ls else rel :: packed_paths ls.
Proof.
  unfold packed_paths. rewrite filter_cons. cbn [snd].
  destruct (is_unpacked entry).
  - now rewrite decide_False by discriminate.
  - now rewrite decide_True by reflexivity.
Qed.

Lemma reinserted_lookup (ls : list (string * json)) :
  forall (map : gmap string Buffer) (k : string),
    (forall leaf, leaf ∈ ls -> is_unpacked leaf.2 = false -> is_Some (fileMap !! leaf.1)) ->
    reinserted fileMap ls map !! k
    = if decide (k ∈ packed_paths ls) then fileMap !! k else map !! k.
Proof.
  induction ls as [|[rel entry] ls IH]; intros map k Hall.
  - cbn. rewrite decide_False; [reflexivity |]. apply not_elem_of_nil.
  - rewrite packed_paths_cons, reinserted_cons.
    assert (Hrest : forall leaf, leaf ∈ ls -> is_unpacked leaf.2 = false ->
                                 is_Some (fileMap !! leaf.1))
      by (intros leaf Hin; apply Hall; now right).
    destruct (is_unpacked entry) eqn:Hu.
    + now apply IH.
    + destruct (Hall (rel, entry)) as [buf Hb]; [now left | exact Hu |].
      cbn [fst] in Hb. rewrite Hb, IH by exact Hrest.
      destruct (decide (k = rel)) as [->|Hne].
      * rewrite (decide_True (P := rel ∈ rel :: _)) by now left.
        destruct (decide _); [reflexivity |]. now rewrite lookup_insert_eq.
      * rewrite lookup_insert_ne by congruence.
        destruct (decide (k ∈ packed_paths ls)) as [Hin|Hnin].
        -- rewrite decide_True by now right. reflexivity.
        -- rewrite decide_False; [reflexivity |].
           intros Hin. apply elem_of_cons in Hin as [|]; contradiction.
Qed.

End Reextraction.

(** ** The round trip *)

Section RoundTrip.
Context `{RT : Runtime}.

(** Setting again, leaf after leaf, the bytes that an extracted map holds
    gives that map. *)
Lemma reinserted_extracted (asarBuffer : Buffer) (dataOffset : Z)
    (ls : list (string * json)) (fileMap : gmap string Buffer) :
  for_of (fun map leaf => extract_visitor asarBuffer dataOffset leaf.1 leaf.2 map)
         ls ∅ = Ok fileMap ->
  reinserted fileMap ls ∅ = fileMap.
Proof.
  intros Hrun. destruct (extraction_facts _ _ _ _ _ Hrun) as (Hleaves & Hdom & _).
  apply map_eq. intros k. rewrite reinserted_lookup.
  - destruct (decide (k ∈ packed_paths ls)) as [_|Hnot]; [reflexivity |].
    rewrite lookup_empty. destruct (fileMap !! k) as [bytes|] eqn:Hk; [|reflexivity].
    destruct (Hdom k) as [[? Habs]|Hin]; [eauto | | contradiction].
    now rewrite lookup_empty in Habs.
  - intros leaf Hin Hu. destruct (Hleaves leaf Hin) as [_ [Hu'|Hk]]; [congruence | exact Hk].
Qed.

End RoundTrip.

(** C1, amended. For every container that is parsed and whose entries are
    extracted, when the header is not [null] and no directory listing has an
    entry named [__proto__], rebuilding with the extracted map rebuilds the
    header; and when the rebuilt header text fits the 32-bit fields of the
    prelude, the rebuilt container has the 20 bytes that [parseAsar] asks
    for, and the JSON codec reads the rebuilt header back, then [buildAsar]
    returns a container that is parsed and whose extracted map is the
    original map, path by path and byte by byte. *)
Theorem parse_build_extract_roundtrip `{RT : Runtime}
    (asar : Buffer) (parsed : parsed_asar) (fileMap : gmap string Buffer) :
  parseAsar asar = Ok parsed ->
  extractFileMap asar (header parsed) (dataOffset parsed) = Ok fileMap ->
  header parsed <> JNull ->
  entry_names_ok (header parsed) = true ->
  exists (rebuilt : json) (st : build_state),
    rebuildHeader (header parsed) fileMap = Ok (rebuilt, st) /\
    let headerJsonBuffer := utf8_encode (JSON_stringify rebuilt) in
    (Buffer_length headerJsonBuffer + 8 < 2 ^ 32 ->
     4 <= Buffer_length headerJsonBuffer + Buffer_length (concat (chunks st)) ->
     JSON_parse (utf8_decode headerJsonBuffer) = Some rebuilt ->
     exists (asar' : Buffer) (parsed' : parsed_asar),
       buildAsar (header parsed) fileMap = Ok asar' /\
       parseAsar asar' = Ok parsed' /\
       extractFileMap asar' (header parsed') (dataOffset parsed') = Ok fileMap).
Proof.
  intros _ Hextract Hnull Hnames.
  rewrite extractFileMap_leaves in Hextract.
  destruct (extraction_facts _ _ _ _ _ Hextract) as (Hleaves & _ & _).
  destruct (rebuildNode_total fileMap (S (json_depth (header parsed)))
              (header parsed) "" {| chunks := []; runningOffset := 0 |})
    as (rebuilt & st & Hre); [exact Hnull | lia | exact Hleaves |].
  change (rebuildHeader (header parsed) fileMap = Ok (rebuilt, st)) in Hre.
  exists rebuilt, st. split; [exact Hre |]. cbv zeta.
  set (hdr := utf8_encode (JSON_stringify rebuilt)).
  intros Hfit Hsize Hjson.
  destruct (buildAsar_total _ _ _ _ Hre Hfit) as [asar' Hbuild].
  destruct (buildAsar_inv _ _ _ Hbuild)
    as (rebuilt' & st' & prelude & Hre' & Hp & -> & Hread & _).
  rewrite Hre in Hre'. injection Hre' as <- <-. fold hdr in Hread.
  unfold rebuildHeader in Hre.
  assert (Hparse : parseAsar (prelude ++ hdr ++ concat (chunks st))
                   = Ok {| header := rebuilt;
                           headerJsonLength := Buffer_length hdr;
                           dataOffset := 16 + Buffer_length hdr |}).
  { apply parseAsar_built; try assumption.
    unfold Buffer_length in *. rewrite !length_app. lia. }
  eexists _, _. split; [exact Hbuild |]. split; [exact Hparse |].
  cbn [header dataOffset].
  destruct (rebuildNode_relayout fileMap _ _ _ _ _ _ Hre Hnames)
    as (data & Hrelayout & Hchunks & _); [lia |].
  cbn [chunks runningOffset app] in Hrelayout, Hchunks.
  rewrite extractFileMap_leaves.
  pose proof (extract_relayout fileMap prelude hdr Hp _ _ _ _ [] [] ∅
                Hrelayout eq_refl) as Hre2.
  cbn [app] in Hre2. rewrite app_nil_r, <- Hchunks in Hre2.
  unfold hdr in *. rewrite Hre2. f_equal. now apply reinserted_extracted with (asarBuffer := asar)
                                                             (dataOffset := dataOffset parsed).
Qed.

Lemma parse_build_extract_roundtrip_witness :
  let parsed := {| header := Examples.small_header;
                   headerJsonLength := 129; dataOffset := 145 |} in
  parseAsar (RT := Mini.runtime) Examples.small_asar = Ok parsed /\
  extractFileMap (RT := Mini.runtime) Examples.small_asar (header parsed)
                 (dataOffset parsed) = Ok Examples.small_fileMap /\
  exists (asar' : Buffer) (parsed' : parsed_asar),
    buildAsar (RT := Mini.runtime) Examples.small_header Examples.small_fileMap
    = Ok asar' /\
    parseAsar (RT := Mini.runtime) asar' = Ok parsed' /\
    extractFileMap (RT := Mini.runtime) asar' (header parsed') (dataOffset parsed')
    = Ok Examples.small_fileMap.
Proof.
  intros parsed.
  assert (Hparse : parseAsar (RT := Mini.runtime) Examples.small_asar = Ok parsed)
    by (vm_compute; reflexivity).
  assert (Hextract : extractFileMap (RT := Mini.runtime) Examples.small_asar
                       (header parsed) (dataOffset parsed)
                     = Ok Examples.small_fileMap)
    by (vm_compute; reflexivity).
  split; [exact Hparse |]. split; [exact Hextract |].
  destruct (parse_build_extract_roundtrip (RT := Mini.runtime)
              Examples.small_asar parsed Examples.small_fileMap Hparse Hextract)
    as (rebuilt & st & Hre & Hround).
  - discriminate.
  - vm_compute; reflexivity.
  - assert (Hvalue : (rebuilt, st)
                     = Examples.value_of (JNull, {| chunks := []; runningOffset := 0 |})
                         (rebuildHeader (RT := Mini.runtime)
                            (header parsed) Examples.small_fileMap))
      by (now rewrite Hre).
    injection Hvalue as -> ->.
    apply Hround; vm_compute; solve [reflexivity | discriminate].
Defined.

(** The claim C1 as it is stated fails on three containers that are parsed
    and extracted: one whose header is the empty object (the rebuilt
    container has 18 bytes, and [parseAsar] asks for 20), one whose header
    is [null] ([rebuildNode] reads a property of [null]), and one with a
    file named [__proto__] (the rebuilt header has lost the entry). *)
Lemma roundtrip_fails_on_degenerate_containers :
  let stated (asar : Buffer) :=
    forall (parsed : parsed_asar) (fileMap : gmap string Buffer),
      parseAsar (RT := Mini.runtime) asar = Ok parsed ->
      extractFileMap (RT := Mini.runtime) asar (header parsed) (dataOffset parsed)
      = Ok fileMap ->
      exists (asar' : Buffer) (parsed' : parsed_asar),
        buildAsar (RT := Mini.runtime) (header parsed) fileMap = Ok asar' /\
        parseAsar (RT := Mini.runtime) asar' = Ok parsed' /\
        extractFileMap (RT := Mini.runtime) asar' (header parsed') (dataOffset parsed')
        = Ok fileMap in
  ~ stated Examples.empty_asar /\
  ~ stated Examples.null_asar /\
  ~ stated Examples.proto_asar.
Proof.
  intros stated. unfold stated. split; [|split]; intros H.
  - destruct (H {| header := JObj []; headerJsonLength := 2; dataOffset := 18 |} ∅)
      as (asar' & parsed' & Hbuild & Hparse & _);
      [vm_compute; reflexivity | vm_compute; reflexivity |].
    vm_compute in Hbuild. injection Hbuild as <-.
    vm_compute in Hparse. discriminate.
  - destruct (H {| header := JNull; headerJsonLength := 4; dataOffset := 20 |} ∅)
      as (asar' & parsed' & Hbuild & _);
      [vm_compute; reflexivity | vm_compute; reflexivity |].
    vm_compute in Hbuild. discriminate.
  - destruct (H {| header := Examples.proto_header;
                   headerJsonLength := 75; dataOffset := 91 |}
                Examples.proto_fileMap)
      as (asar' & parsed' & Hbuild & Hparse & Hextract);
      [vm_compute; reflexivity | vm_compute; reflexivity |].
    cbn [header] in Hbuild.
    assert (Hasar : asar' = Examples.value_of []
                              (buildAsar (RT := Mini.runtime) Examples.proto_header
                                         Examples.proto_fileMap))
      by (now rewrite Hbuild).
    subst asar'.
    assert (Hp : parsed' = Examples.value_of parsed' (parseAsar (RT := Mini.runtime)
                   (Examples.value_of []
                      (buildAsar (RT := Mini.runtime) Examples.proto_header
                                 Examples.proto_fileMap))))
      by (now rewrite Hparse).
    rewrite Hp in Hextract. clear Hp Hparse Hbuild.
    apply (f_equal (fun r => match r with
                             | Ok map => map !! "__proto__"
                             | Throw _ => None
                             end)) in Hextract.
    vm_compute in Hextract. discriminate.
Qed.

(** ** The layout of the rebuilt container *)

(** When no directory listing has an entry named [__proto__], the rebuilt
    header has the leaves of the header, in the order of the traversal that
    extraction follows: an unpacked leaf as it was, a packed leaf with the
    offset equal to the number of bytes emitted before it, the size of its
    buffer and its Integrity Record; and the data region is the buffers of
    the packed leaves in that order. *)
Lemma buildAsar_layout `{RT : Runtime}
    (header : json) (fileMap : gmap string Buffer) (asar : Buffer) :
  entry_names_ok header = true ->
  buildAsar header fileMap = Ok asar ->
  exists (rebuilt : json) (prelude : Buffer) (data : list Buffer),
    length prelude = 16%nat /\
    asar = prelude ++ utf8_encode (JSON_stringify rebuilt) ++ concat data /\
    relayout fileMap 0 (all_leaves header "") = Some (all_leaves rebuilt "", data).
Proof.
  intros Hnames Hbuild.
  destruct (buildAsar_inv _ _ _ Hbuild) as (rebuilt & st & prelude & Hre & Hp & -> & _).
  destruct (rebuildNode_relayout fileMap _ _ _ _ _ _ Hre Hnames)
    as (data & Hrelayout & Hchunks & _); [lia |].
  cbn [chunks runningOffset app] in Hrelayout, Hchunks.
  exists rebuilt, prelude, data. rewrite Hchunks. auto.
Qed.

(** C4, on a header with a file named [__proto__]: the header has two
    packed leaves, [__proto__] and [b], and [buildAsar] returns a container
    whose header has the leaf [b] alone, at the offset 3, and whose data
    region holds the three bytes of [__proto__] followed by the two bytes of
    [b]. The entry [__proto__] has not been carried to the rebuilt header:
    the assignment [out.files[name] = rebuiltEntry] sets the prototype of
    [out.files] when [name] is [__proto__]. *)
Theorem buildAsar_drops_proto_entry :
  let asar := Examples.value_of []
                (buildAsar (RT := Mini.runtime) Examples.proto_header
                           Examples.proto_fileMap) in
  buildAsar (RT := Mini.runtime) Examples.proto_header Examples.proto_fileMap = Ok asar /\
  (all_leaves Examples.proto_header "").*1 = ["__proto__"; "b"] /\
  exists (parsed : parsed_asar) (entry : json),
    parseAsar (RT := Mini.runtime) asar = Ok parsed /\
    all_leaves (header parsed) "" = [("b", entry)] /\
    get entry "offset" = Some (JStr "3") /\
    get entry "size" = Some (JNum 2) /\
    drop (Z.to_nat (dataOffset parsed)) asar = list_byte_of_string "abcde".
Proof.
  intros asar. split; [vm_compute; reflexivity |]. split; [vm_compute; reflexivity |].
  eexists _, _. split; [vm_compute; reflexivity |].
  split; [vm_compute; reflexivity |]. repeat split; vm_compute; reflexivity.
Qed.

(** ** The commands *)

Section CommandFacts.
Context `{RT : Runtime}.

Lemma append_cancel_l (a x y : string) : a +:+ x = a +:+ y -> x = y.
Proof. induction a as [|c a IH]; cbn; [auto | intros [= H]; auto]. Qed.

(** The six paths of an application are different files. *)
Lemma getPaths_distinct (appPath : string) :
  NoDup [infoPlistPath (getPaths appPath); infoPlistBackupPath (getPaths appPath);
         asarPath (getPaths appPath); backupPath (getPaths appPath);
         metaPath (getPaths appPath); tempPath (getPaths appPath)].
Proof.
  unfold getPaths, path_join. cbn [infoPlistPath infoPlistBackupPath asarPath
                                    backupPath metaPath tempPath].
  rewrite !append_assoc.
  repeat (apply NoDup_cons; split;
          [rewrite ?elem_of_cons, elem_of_nil;
           intros H; repeat (destruct H as [H|H]);
           try (apply append_cancel_l in H; discriminate H); exact H |]).
  apply NoDup_nil_2.
Qed.

Lemma paths_differ (appPath : string) (i j : nat) (p q : string) :
  [infoPlistPath (getPaths appPath); infoPlistBackupPath (getPaths appPath);
   asarPath (getPaths appPath); backupPath (getPaths appPath);
   metaPath (getPaths appPath); tempPath (getPaths appPath)] !! i = Some p ->
  [infoPlistPath (getPaths appPath); infoPlistBackupPath (getPaths appPath);
   asarPath (getPaths appPath); backupPath (getPaths appPath);
   metaPath (getPaths appPath); tempPath (getPaths appPath)] !! j = Some q ->
  i <> j -> p <> q.
Proof.
  intros Hi Hj Hne ->. apply Hne.
  exact (NoDup_lookup _ i j q (getPaths_distinct appPath) Hi Hj).
Qed.

Lemma io_bind_inv {A B : Type} (m : IO A) (k : A -> IO B) (w w' : world) (b : B) :
  io_bind m k w = (Ok b, w') ->
  exists (a : A) (w1 : world), m w = (Ok a, w1) /\ k a w1 = (Ok b, w').
Proof.
  unfold io_bind. destruct (m w) as [[a|e] w1]; [eauto | discriminate].
Qed.

Lemma ensureExists_inv (p d : string) (w w1 : world) (a : unit) :
  ensureExists p d w = (Ok a, w1) -> w1 = w /\ is_Some (fs w !! p).
Proof.
  unfold ensureExists, io_bind, existsSync, throw, ret.
  rewrite bool_decide_is_Some. destruct (fs w !! p); cbn; [|discriminate].
  intros [= <-]. eauto.
Qed.

Lemma readFileSync_inv (p : string) (w w1 : world) (c : Buffer) :
  readFileSync p w = (Ok c, w1) -> w1 = w /\ fs w !! p = Some c.
Proof.
  unfold readFileSync. destruct (fs w !! p); [|discriminate]. now intros [= <- <-].
Qed.

Lemma lift_inv {A : Type} (r : result A) (w w1 : world) (a : A) :
  lift r w = (Ok a, w1) -> r = Ok a /\ w1 = w.
Proof. unfold lift. now intros [= -> <-]. Qed.

(** [ensureBackup] writes the two backup files and nothing else. *)
Lemma ensureBackup_other (paths : Paths) (buf : Buffer) (w : world) (p : string) :
  p <> backupPath paths -> p <> infoPlistBackupPath paths ->
  fs (ensureBackup paths buf w).2 !! p = fs w !! p.
Proof.
  intros H1 H2. pose proof (ensureBackup_fs paths buf w) as H. cbv zeta in H.
  assert (Hfiles1 : match fs w !! backupPath paths with
                    | Some _ => fs w
                    | None => <[backupPath paths := buf]> (fs w)
                    end !! p = fs w !! p).
  { destruct (fs w !! backupPath paths); [reflexivity |].
    now rewrite lookup_insert_ne. }
  destruct (_ !! infoPlistBackupPath paths).
  - destruct H as [_ ->]. exact Hfiles1.
  - destruct (_ !! infoPlistPath paths); destruct H as [_ ->];
      [rewrite lookup_insert_ne by congruence |]; exact Hfiles1.
Qed.

Lemma getInfoPlistAsarHash_inv (p : string) (w w1 : world) (h : string) :
  getInfoPlistAsarHash p w = (Ok h, w1) ->
  w1 = w /\ exists c, fs w !! p = Some c /\ status (PlistBuddy_Print c) = 0
                      /\ h = trim (spawn_stdout (PlistBuddy_Print c)).
Proof.
  unfold getInfoPlistAsarHash, io_bind, readFileSync, throw, ret.
  destruct (fs w !! p) as [c|]; [|discriminate].
  destruct (Z.eqb_spec (status (PlistBuddy_Print c)) 0) as [E|_]; cbn; [|discriminate].
  intros [= <- <-]. eauto.
Qed.

Lemma setInfoPlistAsarHash_inv (p h : string) (w w1 : world) (a : unit) :
  setInfoPlistAsarHash p h w = (Ok a, w1) ->
  exists c, fs w !! p = Some c /\ status (PlistBuddy_Set h c).1 = 0
            /\ fs w1 = <[p := (PlistBuddy_Set h c).2]> (fs w).
Proof.
  unfold setInfoPlistAsarHash, io_bind, readFileSync, writeFileSync, throw, ret.
  destruct (fs w !! p) as [c|]; [|discriminate].
  destruct (PlistBuddy_Set h c) as [r c'] eqn:E. cbn.
  destruct (Z.eqb_spec (status r) 0) as [E0|_]; cbn; [|discriminate].
  intros [= Hw]. subst w1. exists c. rewrite E. cbn. auto.
Qed.

Lemma writeFileSync_inv (p : string) (c : Buffer) (w w1 : world) (a : unit) :
  writeFileSync p c w = (Ok a, w1) -> fs w1 = <[p := c]> (fs w).
Proof. unfold writeFileSync. intros [= Hw]. now subst w1. Qed.

Lemma renameSync_inv (old new : string) (w w1 : world) (a : unit) :
  renameSync old new w = (Ok a, w1) ->
  exists c, fs w !! old = Some c /\ fs w1 = <[new := c]> (delete old (fs w)).
Proof.
  unfold renameSync, io_bind, readFileSync.
  destruct (fs w !! old) as [c|]; [|discriminate]. intros [= Hw]. subst w1. eauto.
Qed.

Lemma log_inv (line : string) (w w1 : world) (a : unit) :
  log line w = (Ok a, w1) -> fs w1 = fs w.
Proof. unfold log. intros [= Hw]. now subst w1. Qed.

Lemma tryCodeSign_fs (appPath : string) (w : world) :
  (tryCodeSign appPath w).1 = Ok tt /\ fs (tryCodeSign appPath w).2 = fs w.
Proof.
  unfold tryCodeSign, io_bind, warn, log. now destruct (negb _).
Qed.

Lemma patchBundleSource_unmarked (s : string) (r : patch_result) :
  includes s PATCH_MARKER = false -> patchBundleSource s = Ok r ->
  alreadyPatched r = false.
Proof.
  intros Hm. unfold patchBundleSource. rewrite Hm.
  destruct (negb _); [discriminate |].
  destruct (negb _); [discriminate |].
  destruct (_ || _)%bool; [discriminate |]. now intros [= <-].
Qed.

End CommandFacts.

(** C5. After every patch command that returns and that has rewritten the
    container (the bundle it found had no marker), the live container has a
    header digest, the SHA-256 digest of exactly the bytes that follow the
    16 bytes of the prelude up to the length the prelude declares, and that
    digest is the value PlistBuddy was asked to set, with success, in the
    manifest: the manifest file holds what that command left. *)
Theorem commandPatch_manifest_matches_header `{RT : Runtime}
    (app : string) (codeSign : bool) (w w' : world)
    (asar : Buffer) (loaded : loaded_bundle) :
  let paths := getPaths app in
  fs w !! asarPath paths = Some asar ->
  loadBundleSourceFromAsar asar = Ok loaded ->
  includes (bundleSource loaded) PATCH_MARKER = false ->
  commandPatch paths codeSign w = (Ok tt, w') ->
  exists (rebuiltAsar plist : Buffer) (hash : string) (n : Z),
    fs w' !! asarPath paths = Some rebuiltAsar /\
    readUInt32LE rebuiltAsar 12 = Ok n /\
    hash = sha256 (Buffer_slice rebuiltAsar 16 (16 + n)) /\
    getAsarHeaderHash rebuiltAsar = Ok hash /\
    fs w !! infoPlistPath paths = Some plist /\
    status (PlistBuddy_Set hash plist).1 = 0 /\
    fs w' !! infoPlistPath paths = Some (PlistBuddy_Set hash plist).2.
Proof.
  intros paths Hasar Hload Hmark Hrun.
  assert (Hdiff : forall i j p q,
             [infoPlistPath paths; infoPlistBackupPath paths; asarPath paths;
              backupPath paths; metaPath paths; tempPath paths] !! i = Some p ->
             [infoPlistPath paths; infoPlistBackupPath paths; asarPath paths;
              backupPath paths; metaPath paths; tempPath paths] !! j = Some q ->
             i <> j -> p <> q)
    by apply paths_differ.
  unfold commandPatch in Hrun.
  apply io_bind_inv in Hrun as ([] & w1 & H1 & Hrun).
  apply ensureExists_inv in H1 as [-> [plist Hp]].
  apply io_bind_inv in Hrun as ([] & w1 & H1 & Hrun).
  apply ensureExists_inv in H1 as [-> _].
  apply io_bind_inv in Hrun as (originalAsar & w1 & H1 & Hrun).
  apply readFileSync_inv in H1 as [-> Horig].
  rewrite Hasar in Horig. injection Horig as <-.
  apply io_bind_inv in Hrun as ([] & w1 & H1 & Hrun).
  assert (Hw1 : forall p, p <> backupPath paths -> p <> infoPlistBackupPath paths ->
                          fs w1 !! p = fs w !! p).
  { intros p Hp1 Hp2. rewrite <- (ensureBackup_other paths asar w p Hp1 Hp2).
    now rewrite H1. }
  clear H1.
  apply io_bind_inv in Hrun as (originalHash & w2 & H1 & Hrun).
  apply lift_inv in H1 as [_ ->].
  apply io_bind_inv in Hrun as (originalPlistHash & w2 & H1 & Hrun).
  apply getInfoPlistAsarHash_inv in H1 as [-> _].
  apply io_bind_inv in Hrun as (loaded' & w2 & H1 & Hrun).
  apply lift_inv in H1 as [H1 ->]. rewrite Hload in H1. injection H1 as <-.
  apply io_bind_inv in Hrun as (patch & w2 & H1 & Hrun).
  apply lift_inv in H1 as [Hpatch ->].
  rewrite (patchBundleSource_unmarked _ _ Hmark Hpatch) in Hrun.
  apply io_bind_inv in Hrun as (rebuiltAsar & w2 & H1 & Hrun).
  apply lift_inv in H1 as [_ ->].
  apply io_bind_inv in Hrun as (rebuiltHash & w2 & H1 & Hrun).
  apply lift_inv in H1 as [Hhash ->].
  apply io_bind_inv in Hrun as ([] & w2 & H1 & Hrun).
  apply writeFileSync_inv in H1 as Hfs2.
  apply io_bind_inv in Hrun as ([] & w3 & H2 & Hrun).
  apply renameSync_inv in H2 as (c & Hc & Hfs3).
  rewrite Hfs2, lookup_insert_eq in Hc. injection Hc as <-.
  apply io_bind_inv in Hrun as ([] & w4 & H3 & Hrun).
  apply setInfoPlistAsarHash_inv in H3 as (plist' & Hp' & Hstatus & Hfs4).
  assert (Hplist' : plist' = plist).
  { rewrite Hfs3, lookup_insert_ne, lookup_delete_ne, Hfs2, lookup_insert_ne, Hw1, Hp
      in Hp'.
    - congruence.
    - apply (Hdiff 0 3)%nat; [reflexivity | reflexivity | discriminate].
    - apply (Hdiff 0 1)%nat; [reflexivity | reflexivity | discriminate].
    - apply (Hdiff 5 0)%nat; [reflexivity | reflexivity | discriminate].
    - apply (Hdiff 5 0)%nat; [reflexivity | reflexivity | discriminate].
    - apply (Hdiff 2 0)%nat; [reflexivity | reflexivity | discriminate]. }
  subst plist'.
  apply io_bind_inv in Hrun as (now & w5 & H4 & Hrun).
  injection H4 as _ <-.
  apply io_bind_inv in Hrun as ([] & w5 & H5 & Hrun).
  apply writeFileSync_inv in H5 as Hfs5.
  apply io_bind_inv in Hrun as ([] & w6 & H6 & Hrun). apply log_inv in H6 as Hfs6.
  apply io_bind_inv in Hrun as ([] & w7 & H7 & Hrun). apply log_inv in H7 as Hfs7.
  apply io_bind_inv in Hrun as ([] & w8 & H8 & Hrun). apply log_inv in H8 as Hfs8.
  assert (Hfs' : fs w' = fs w8).
  { destruct codeSign.
    - pose proof (tryCodeSign_fs (appPath paths) w8) as [_ Hfs].
      now rewrite Hrun in Hfs.
    - now injection Hrun as <-. }
  rewrite Hfs', Hfs8, Hfs7, Hfs6, Hfs5, Hfs4.
  pose proof Hhash as Hhash'. unfold getAsarHeaderHash in Hhash'.
  destruct (Buffer_length rebuiltAsar <? 20); [discriminate |].
  destruct (readUInt32LE rebuiltAsar 12) as [n|] eqn:Hn; [|discriminate].
  cbn [bind] in Hhash'.
  destruct (16 + n >? Buffer_length rebuiltAsar); [discriminate |].
  injection Hhash' as Hhash'.
  exists rebuiltAsar, plist, rebuiltHash, n.
  split.
  { rewrite lookup_insert_ne, lookup_insert_ne, Hfs3, lookup_insert_eq; [reflexivity | |].
    - apply (Hdiff 0 2)%nat; [reflexivity | reflexivity | discriminate].
    - apply (Hdiff 4 2)%nat; [reflexivity | reflexivity | discriminate]. }
  split; [exact Hn |]. split; [now symmetry |]. split; [exact Hhash |].
  split; [exact Hp |]. split; [exact Hstatus |].
  rewrite lookup_insert_ne, lookup_insert_eq; [reflexivity |].
  apply (Hdiff 4 0)%nat; [reflexivity | reflexivity | discriminate].
Qed.

Lemma commandPatch_manifest_matches_header_witness :
  let asar := Examples.app_asar Examples.bundle in
  let w := Examples.app_world asar (list_byte_of_string "h0") in
  let w' := (commandPatch (RT := Mini.runtime) Examples.paths false w).2 in
  exists (rebuiltAsar plist : Buffer) (hash : string) (n : Z),
    fs w' !! asarPath Examples.paths = Some rebuiltAsar /\
    readUInt32LE rebuiltAsar 12 = Ok n /\
    hash = Mini.digest (Buffer_slice rebuiltAsar 16 (16 + n)) /\
    getAsarHeaderHash (RT := Mini.runtime) rebuiltAsar = Ok hash /\
    fs w !! infoPlistPath Examples.paths = Some plist /\
    status (Mini.Set_ hash plist).1 = 0 /\
    fs w' !! infoPlistPath Examples.paths = Some (Mini.Set_ hash plist).2.
Proof.
  intros asar w w'.
  assert (Hrun : (commandPatch (RT := Mini.runtime) Examples.paths false w).1 = Ok tt)
    by (vm_compute; reflexivity).
  destruct (loadBundleSourceFromAsar (RT := Mini.runtime) asar) as [loaded | e] eqn:Hload;
    [| vm_compute in Hload; discriminate].
  apply (commandPatch_manifest_matches_header (RT := Mini.runtime)
           "/Applications/Codex.app" false w w' asar loaded).
  - vm_compute; reflexivity.
  - exact Hload.
  - vm_compute in Hload. injection Hload as <-. vm_compute; reflexivity.
  - rewrite (surjective_pairing (commandPatch Examples.paths false w)).
    now rewrite Hrun.
Defined.

(** ** The command on a container that carries the marker *)

Section AlreadyPatched.
Context `{RT : Runtime}.

Lemma io_bind_run {A B : Type} (m : IO A) (k : A -> IO B) (w w1 : world) (a : A) :
  m w = (Ok a, w1) -> io_bind m k w = k a w1.
Proof. unfold io_bind. now intros ->. Qed.

Lemma ensureExists_ok (p d : string) (w : world) (c : Buffer) :
  fs w !! p = Some c -> ensureExists p d w = (Ok tt, w).
Proof.
  intros H. unfold ensureExists, io_bind, existsSync, throw, ret.
  now rewrite bool_decide_is_Some, H.
Qed.

Lemma readFileSync_ok (p : string) (w : world) (c : Buffer) :
  fs w !! p = Some c -> readFileSync p w = (Ok c, w).
Proof. intros H. unfold readFileSync. now rewrite H. Qed.

(** The two functions read the prelude with the same checks. *)
Lemma getAsarHeaderHash_loaded (asar : Buffer) (loaded : loaded_bundle) :
  loadBundleSourceFromAsar asar = Ok loaded ->
  exists h : string, getAsarHeaderHash asar = Ok h.
Proof.
  unfold loadBundleSourceFromAsar, parseAsar, getAsarHeaderHash.
  destruct (Buffer_length asar <? 20); [discriminate |].
  destruct (readUInt32LE asar 12) as [n|]; cbn [bind]; [|discriminate].
  destruct (16 + n >? Buffer_length asar); [discriminate | eauto].
Qed.

(** With the manifest in place, [ensureBackup] returns. *)
Lemma ensureBackup_ok (app : string) (buf plist : Buffer) (w : world) :
  fs w !! infoPlistPath (getPaths app) = Some plist ->
  ensureBackup (getPaths app) buf w = (Ok tt, (ensureBackup (getPaths app) buf w).2).
Proof.
  intros Hp. pose proof (ensureBackup_fs (getPaths app) buf w) as H. cbv zeta in H.
  assert (Hfiles1 : match fs w !! backupPath (getPaths app) with
                    | Some _ => fs w
                    | None => <[backupPath (getPaths app) := buf]> (fs w)
                    end !! infoPlistPath (getPaths app) = Some plist).
  { destruct (fs w !! backupPath (getPaths app)); [exact Hp |].
    rewrite lookup_insert_ne; [exact Hp |].
    apply (paths_differ app 3 0); [reflexivity | reflexivity | discriminate]. }
  rewrite (surjective_pairing (ensureBackup (getPaths app) buf w)) at 1.
  f_equal.
  destruct (_ !! infoPlistBackupPath (getPaths app)); [apply H |].
  rewrite Hfiles1 in H. apply H.
Qed.

(** When the two backups are there, [ensureBackup] says so and writes
    nothing. *)
Lemma ensureBackup_present (paths : Paths) (buf b pb : Buffer) (w : world) :
  fs w !! backupPath paths = Some b ->
  fs w !! infoPlistBackupPath paths = Some pb ->
  fs (ensureBackup paths buf w).2 = fs w /\
  console_log (ensureBackup paths buf w).2 =
    console_log w ++ ["Backup exists: " +:+ backupPath paths;
                      "Backup exists: " +:+ infoPlistBackupPath paths].
Proof.
  intros Hb Hpb.
  unfold ensureBackup, io_bind, existsSync, log.
  rewrite bool_decide_is_Some, Hb. cbn [negb fs].
  rewrite bool_decide_is_Some, Hpb. cbn [negb fs snd console_log].
  now rewrite <- app_assoc.
Qed.

(** [ensureBackup] warns of nothing and signs nothing. *)
Lemma ensureBackup_quiet (paths : Paths) (buf : Buffer) (w : world) :
  console_warn (ensureBackup paths buf w).2 = console_warn w /\
  codesign_runs (ensureBackup paths buf w).2 = codesign_runs w.
Proof.
  unfold ensureBackup, io_bind, existsSync, copyFileSync, readFileSync,
    writeFileSync, log, set_fs, io_bind.
  repeat (match goal with
          | |- context [bool_decide ?P] => destruct (bool_decide P)
          | |- context [match ?m !! ?k with Some _ => _ | None => _ end] =>
              destruct (m !! k)
          end;
          cbn [negb fs console_log console_warn codesign_runs clock fst snd]);
    auto.
Qed.

(** A backup that is there stays as it is. *)
Lemma ensureBackup_kept (paths : Paths) (buf : Buffer) (w : world) (p : string)
    (c : Buffer) :
  fs w !! p = Some c -> fs (ensureBackup paths buf w).2 !! p = Some c.
Proof.
  intros Hc. pose proof (ensureBackup_fs paths buf w) as H. cbv zeta in H.
  assert (Hfiles1 : match fs w !! backupPath paths with
                    | Some _ => fs w
                    | None => <[backupPath paths := buf]> (fs w)
                    end !! p = Some c).
  { destruct (fs w !! backupPath paths) eqn:Hb; [exact Hc |].
    rewrite lookup_insert_ne; [exact Hc | congruence]. }
  destruct (_ !! infoPlistBackupPath paths) eqn:Hpb.
  - destruct H as [_ ->]. exact Hfiles1.
  - destruct (_ !! infoPlistPath paths); destruct H as [_ ->]; [| exact Hfiles1].
    rewrite lookup_insert_ne; [exact Hfiles1 | congruence].
Qed.

(** *** Frames *)

Lemma frames_bind {A B : Type} (q : string) (m : IO A) (k : A -> IO B) :
  frames q m -> (forall a, frames q (k a)) -> frames q (io_bind m k).
Proof.
  intros Hm Hk w. unfold io_bind. specialize (Hm w).
  destruct (m w) as [[a|e] w1]; cbn [snd] in *; [rewrite Hk |]; exact Hm.
Qed.

Lemma frames_ret {A : Type} (q : string) (a : A) : frames q (ret a).
Proof. now intros w. Qed.

Lemma frames_throw {A : Type} (q : string) (e : error) : frames q (throw (A := A) e).
Proof. now intros w. Qed.

Lemma frames_log (q line : string) : frames q (log line).
Proof. now intros w. Qed.

Lemma frames_readFileSync (q p : string) : frames q (readFileSync p).
Proof. intros w. unfold readFileSync. now destruct (fs w !! p). Qed.

Lemma frames_writeFileSync (q p : string) (c : Buffer) :
  q <> p -> frames q (writeFileSync p c).
Proof. intros Hq w. cbn. now rewrite lookup_insert_ne. Qed.

Lemma frames_tryCodeSign (q a : string) : frames q (tryCodeSign a).
Proof. intros w. now destruct (tryCodeSign_fs a w) as [_ ->]. Qed.

Lemma frames_getInfoPlistAsarHash (q p : string) : frames q (getInfoPlistAsarHash p).
Proof.
  apply frames_bind; [apply frames_readFileSync |].
  intros c. cbv beta zeta. destruct (negb _); [apply frames_throw | apply frames_ret].
Qed.

Lemma frames_setInfoPlistAsarHash (q p h : string) :
  q <> p -> frames q (setInfoPlistAsarHash p h).
Proof.
  intros Hq. apply frames_bind; [apply frames_readFileSync |].
  intros c. cbv beta. destruct (PlistBuddy_Set h c) as [r c'].
  apply frames_bind; [now apply frames_writeFileSync |].
  intros _. cbv beta. destruct (negb _); [apply frames_throw | apply frames_ret].
Qed.

(** The command on a container that carries the marker: what is left of
    it once the backups are seen to. *)
Lemma commandPatch_marked (app : string) (codeSign : bool) (w : world)
    (asar plist : Buffer) (loaded : loaded_bundle) (h : string) :
  let paths := getPaths app in
  fs w !! asarPath paths = Some asar ->
  fs w !! infoPlistPath paths = Some plist ->
  loadBundleSourceFromAsar asar = Ok loaded ->
  includes (bundleSource loaded) PATCH_MARKER = true ->
  getAsarHeaderHash asar = Ok h ->
  commandPatch paths codeSign w =
    (let! originalPlistHash := getInfoPlistAsarHash (infoPlistPath paths) in
     if negb (String.eqb originalPlistHash h) then
       setInfoPlistAsarHash (infoPlistPath paths) h ;;
       log "Darcula patch already present; Info.plist hash fixed." ;;
       (if codeSign then tryCodeSign (appPath paths) else ret tt)
     else log "Darcula patch is already applied.")
      (ensureBackup paths asar w).2.
Proof.
  intros paths Ha Hp Hload Hmark Hh. unfold commandPatch.
  rewrite (io_bind_run _ _ w w tt (ensureExists_ok _ _ w plist Hp)).
  rewrite (io_bind_run _ _ w w tt (ensureExists_ok _ _ w asar Ha)).
  rewrite (io_bind_run _ _ w w asar (readFileSync_ok _ w asar Ha)).
  rewrite (io_bind_run _ _ w _ tt (ensureBackup_ok app asar plist w Hp)).
  rewrite Hh, Hload. unfold io_bind, lift.
  destruct (getInfoPlistAsarHash _ _) as [[ph|e] w2]; [| reflexivity].
  cbv beta iota. rewrite (patchBundleSource_marked _ Hmark). reflexivity.
Qed.

Lemma getInfoPlistAsarHash_ok (p : string) (w : world) (c : Buffer) :
  fs w !! p = Some c -> status (PlistBuddy_Print c) = 0 ->
  getInfoPlistAsarHash p w = (Ok (trim (spawn_stdout (PlistBuddy_Print c))), w).
Proof.
  intros Hc Hs. unfold getInfoPlistAsarHash, io_bind, readFileSync.
  now rewrite Hc, Hs.
Qed.

(** Past the backups, the command writes the manifest at most. *)
Lemma frames_marked_tail (q p a h : string) (codeSign : bool) :
  q <> p ->
  frames q (let! originalPlistHash := getInfoPlistAsarHash p in
            if negb (String.eqb originalPlistHash h) then
              setInfoPlistAsarHash p h ;;
              log "Darcula patch already present; Info.plist hash fixed." ;;
              (if codeSign then tryCodeSign a else ret tt)
            else log "Darcula patch is already applied.").
Proof.
  intros Hq. apply frames_bind; [apply frames_getInfoPlistAsarHash |].
  intros ph. destruct (negb _); [| apply frames_log].
  apply frames_bind; [now apply frames_setInfoPlistAsarHash |].
  intros _. apply frames_bind; [apply frames_log |].
  intros _. destruct codeSign; [apply frames_tryCodeSign | apply frames_ret].
Qed.

End AlreadyPatched.

(** C8. Run again on an application that a patch run has left, where the
    container carries the marker and the two backups are in place, the
    patch command makes no change to the bytes of the container and none to
    the two backups, whatever its outcome.  When the manifest holds the
    digest of the header of the container, the command returns and has
    written no file at all: the container, the manifest and the two backups
    are as they were, and no file is created.  It warns of nothing and
    signs nothing, and after the two lines that say that the backups exist
    it prints "Darcula patch is already applied." and no other line. *)
Theorem commandPatch_already_patched `{RT : Runtime} (app : string) (codeSign : bool)
    (w : world) (asar plist asarBackup plistBackup : Buffer) (loaded : loaded_bundle) :
  let paths := getPaths app in
  let r := commandPatch paths codeSign w in
  fs w !! asarPath paths = Some asar ->
  fs w !! infoPlistPath paths = Some plist ->
  fs w !! backupPath paths = Some asarBackup ->
  fs w !! infoPlistBackupPath paths = Some plistBackup ->
  loadBundleSourceFromAsar asar = Ok loaded ->
  includes (bundleSource loaded) PATCH_MARKER = true ->
  fs r.2 !! asarPath paths = Some asar /\
  fs r.2 !! backupPath paths = Some asarBackup /\
  fs r.2 !! infoPlistBackupPath paths = Some plistBackup /\
  (status (PlistBuddy_Print plist) = 0 ->
   getAsarHeaderHash asar = Ok (trim (spawn_stdout (PlistBuddy_Print plist))) ->
   r.1 = Ok tt /\
   fs r.2 = fs w /\
   console_log r.2 =
     console_log w ++ ["Backup exists: " +:+ backupPath paths;
                       "Backup exists: " +:+ infoPlistBackupPath paths;
                       "Darcula patch is already applied."] /\
   console_warn r.2 = console_warn w /\
   codesign_runs r.2 = codesign_runs w).
Proof.
  intros paths r Ha Hp Hb Hpb Hload Hmark.
  assert (Hdiff : forall i j p q,
             [infoPlistPath paths; infoPlistBackupPath paths; asarPath paths;
              backupPath paths; metaPath paths; tempPath paths] !! i = Some p ->
             [infoPlistPath paths; infoPlistBackupPath paths; asarPath paths;
              backupPath paths; metaPath paths; tempPath paths] !! j = Some q ->
             i <> j -> p <> q)
    by apply paths_differ.
  destruct (getAsarHeaderHash_loaded asar loaded Hload) as [h Hh].
  pose proof (commandPatch_marked app codeSign w asar plist loaded h
                Ha Hp Hload Hmark Hh) as Hrun.
  cbv zeta in Hrun. fold paths in Hrun. fold r in Hrun.
  destruct (ensureBackup_present paths asar asarBackup plistBackup w Hb Hpb)
    as [Hfs Hlog].
  destruct (ensureBackup_quiet paths asar w) as [Hwarn Hsign].
  assert (Hframe : forall q, q <> infoPlistPath paths -> fs r.2 !! q = fs w !! q).
  { intros q Hq. rewrite Hrun, <- Hfs.
    exact (frames_marked_tail q (infoPlistPath paths) (appPath paths) h codeSign Hq
             (ensureBackup paths asar w).2). }
  split; [| split; [| split]].
  - rewrite Hframe; [exact Ha |].
    apply (Hdiff 2 0)%nat; [reflexivity | reflexivity | discriminate].
  - rewrite Hframe; [exact Hb |].
    apply (Hdiff 3 0)%nat; [reflexivity | reflexivity | discriminate].
  - rewrite Hframe; [exact Hpb |].
    apply (Hdiff 1 0)%nat; [reflexivity | reflexivity | discriminate].
  - intros Hst Hh'. rewrite Hh in Hh'. injection Hh' as Hh'.
    assert (Hp1 : fs (ensureBackup paths asar w).2 !! infoPlistPath paths = Some plist)
      by (now rewrite Hfs).
    assert (Hr : r = log "Darcula patch is already applied."
                       (ensureBackup paths asar w).2).
    { rewrite Hrun.
      rewrite (io_bind_run _ _ _ _ _ (getInfoPlistAsarHash_ok _ _ plist Hp1 Hst)).
      now rewrite <- Hh', String.eqb_refl. }
    rewrite Hr. unfold log. cbn [fst snd fs console_log console_warn codesign_runs].
    split; [reflexivity |]. split; [exact Hfs |].
    split; [rewrite Hlog, <- app_assoc; reflexivity |].
    split; [exact Hwarn | exact Hsign].
Qed.

Lemma commandPatch_already_patched_witness :
  let w0 := Examples.app_world (Examples.app_asar Examples.bundle)
                               (list_byte_of_string "h0") in
  let w := (commandPatch (RT := Mini.runtime) Examples.paths true w0).2 in
  let r := commandPatch (RT := Mini.runtime) Examples.paths true w in
  (commandPatch (RT := Mini.runtime) Examples.paths true w0).1 = Ok tt /\
  fs w !! asarPath Examples.paths <> fs w0 !! asarPath Examples.paths /\
  r.1 = Ok tt /\
  fs r.2 = fs w /\
  console_log r.2 =
    console_log w ++ ["Backup exists: " +:+ backupPath Examples.paths;
                      "Backup exists: " +:+ infoPlistBackupPath Examples.paths;
                      "Darcula patch is already applied."] /\
  codesign_runs r.2 = codesign_runs w.
Proof.
  intros w0 w r.
  split; [vm_compute; reflexivity |]. split; [vm_compute; discriminate |].
  destruct (fs w !! asarPath Examples.paths) as [asar|] eqn:Ha;
    [| vm_compute in Ha; discriminate].
  destruct (fs w !! infoPlistPath Examples.paths) as [plist|] eqn:Hp;
    [| vm_compute in Hp; discriminate].
  destruct (loadBundleSourceFromAsar (RT := Mini.runtime) asar) as [loaded | e] eqn:Hload;
    [| vm_compute in Ha; injection Ha as <-; vm_compute in Hload; discriminate].
  destruct (commandPatch_already_patched (RT := Mini.runtime)
              "/Applications/Codex.app" true w asar plist
              (Examples.app_asar Examples.bundle) (list_byte_of_string "h0") loaded)
    as (_ & _ & _ & H).
  - exact Ha.
  - exact Hp.
  - vm_compute; reflexivity.
  - vm_compute; reflexivity.
  - exact Hload.
  - vm_compute in Ha. injection Ha as <-.
    vm_compute in Hload. injection Hload as <-. vm_compute; reflexivity.
  - destruct H as (Hok & Hfs & Hlog & _ & Hsign).
    + vm_compute in Hp. injection Hp as <-. vm_compute; reflexivity.
    + vm_compute in Ha. injection Ha as <-.
      vm_compute in Hp. injection Hp as <-. vm_compute; reflexivity.
    + split; [exact Hok |]. split; [exact Hfs |]. split; [exact Hlog | exact Hsign].
Defined.

(** ** The command line *)

Section Arguments.

(** One turn of the loop: an [--app] with its value, a [--no-codesign], or
    a throw. *)
Lemma parseArgs_loop_cases (arg : string) (rest : list string) (parsed : Args.t) :
  (arg = "--app" /\
   exists (value : string) (rest' : list string),
     rest = value :: rest' /\ value <> "" /\
     parseArgs_loop (arg :: rest) parsed
     = parseArgs_loop rest' {| Args.command := Args.command parsed;
                               Args.appPath := value;
                               Args.codeSign := Args.codeSign parsed |}) \/
  (arg = "--no-codesign" /\
   parseArgs_loop (arg :: rest) parsed
   = parseArgs_loop rest {| Args.command := Args.command parsed;
                            Args.appPath := Args.appPath parsed;
                            Args.codeSign := false |}) \/
  (arg <> "--no-codesign" /\
   (arg = "--app" -> forall value rest', rest = value :: rest' -> value = "") /\
   parseArgs_loop (arg :: rest) parsed = Throw (Error ("Unknown argument: " +:+ arg))).
Proof.
  cbn [parseArgs_loop].
  destruct (String.eqb_spec arg "--app") as [-> | Happ].
  - change (String.eqb "--app" "--no-codesign") with false. cbv iota.
    destruct rest as [|value rest'].
    + right. right. split; [discriminate |]. split; [discriminate | reflexivity].
    + destruct (String.eqb_spec value "") as [-> | Hv]; cbn [negb].
      * right. right. split; [discriminate |]. split; [| reflexivity].
        now intros _ value rest'' [= <- _].
      * left. split; [reflexivity |]. now exists value, rest'.
  - destruct (String.eqb_spec arg "--no-codesign") as [-> | Hno].
    + right. left. auto.
    + right. right. split; [exact Hno |]. split; [contradiction | reflexivity].
Qed.

(** The options are read from left to right: what follows a list of
    options that is read to its end is read from the record it gave. *)
Lemma parseArgs_loop_app (n : nat) :
  forall (l1 l2 : list string) (parsed parsed1 : Args.t),
    (length l1 <= n)%nat ->
    parseArgs_loop l1 parsed = Ok parsed1 ->
    parseArgs_loop (l1 ++ l2) parsed = parseArgs_loop l2 parsed1.
Proof.
  induction n as [|n IH]; intros [|arg rest] l2 parsed parsed1 Hlen Hrun;
    cbn [length] in Hlen; try lia;
    try (injection Hrun as <-; reflexivity).
  destruct (parseArgs_loop_cases arg rest parsed)
    as [(-> & value & rest' & -> & Hv & E) | [(-> & E) | (_ & _ & E)]];
    rewrite E in Hrun; [| | discriminate].
  - cbn [app].
    destruct (parseArgs_loop_cases "--app" (value :: rest' ++ l2) parsed)
      as [(_ & value' & rest2 & [= <- <-] & _ & E') | [([=] & _) | (_ & Habs & _)]].
    + rewrite E'. apply IH; [cbn [length] in Hlen; lia | exact Hrun].
    + now specialize (Habs eq_refl value (rest' ++ l2) eq_refl).
  - cbn [app].
    destruct (parseArgs_loop_cases "--no-codesign" (rest ++ l2) parsed)
      as [([=] & _) | [(_ & E') | (Habs & _)]]; [| contradiction].
    rewrite E'. apply IH; [lia | exact Hrun].
Qed.

(** What the loop returns comes from the record it was given or from the
    options. *)
Lemma parseArgs_loop_result (n : nat) :
  forall (l : list string) (parsed parsed1 : Args.t),
    (length l <= n)%nat ->
    parseArgs_loop l parsed = Ok parsed1 ->
    Args.command parsed1 = Args.command parsed /\
    (Args.codeSign parsed1 = Args.codeSign parsed \/
     (Args.codeSign parsed1 = false /\ "--no-codesign" ∈ l)) /\
    (Args.appPath parsed1 = Args.appPath parsed \/
     (Args.appPath parsed1 <> "" /\
      exists before after : list string,
        l = before ++ "--app" :: Args.appPath parsed1 :: after)).
Proof.
  induction n as [|n IH]; intros [|arg rest] parsed parsed1 Hlen Hrun;
    cbn [length] in Hlen; try lia;
    try (injection Hrun as <-; auto).
  destruct (parseArgs_loop_cases arg rest parsed)
    as [(-> & value & rest' & -> & Hv & E) | [(-> & E) | (_ & _ & E)]];
    rewrite E in Hrun; [| | discriminate].
  - destruct (IH rest' _ _ ltac:(cbn [length] in Hlen; lia) Hrun) as (Hc & Hs & Ha).
    cbn in Hc, Hs, Ha. split; [exact Hc |]. split.
    + destruct Hs as [Hs | [Hs Hin]]; [now left | right].
      split; [exact Hs |]. right. now right.
    + right. destruct Ha as [-> | (Hne & before & after & ->)].
      * split; [exact Hv |]. now exists [], rest'.
      * split; [exact Hne |]. now exists ("--app" :: value :: before), after.
  - destruct (IH rest _ _ ltac:(lia) Hrun) as (Hc & Hs & Ha). cbn in Hc, Hs, Ha.
    split; [exact Hc |]. split.
    + right. split; [| now left]. destruct Hs as [Hs | [Hs _]]; exact Hs.
    + destruct Ha as [Ha | (Hne & before & after & ->)]; [now left | right].
      split; [exact Hne |]. now exists ("--no-codesign" :: before), after.
Qed.

(** The loop throws on an argument that it does not know, and on nothing
    else. *)
Lemma parseArgs_loop_error (n : nat) :
  forall (l : list string) (parsed : Args.t) (e : error),
    (length l <= n)%nat ->
    parseArgs_loop l parsed = Throw e ->
    exists arg : string,
      arg ∈ l /\ arg <> "--no-codesign" /\ e = Error ("Unknown argument: " +:+ arg).
Proof.
  induction n as [|n IH]; intros [|arg rest] parsed e Hlen Hrun;
    cbn [length] in Hlen; try lia; try discriminate.
  destruct (parseArgs_loop_cases arg rest parsed)
    as [(-> & value & rest' & -> & Hv & E) | [(-> & E) | (Hno & _ & E)]];
    rewrite E in Hrun.
  - destruct (IH rest' _ _ ltac:(cbn [length] in Hlen; lia) Hrun) as (a & Hin & Hne & ->).
    exists a. split; [right; now right | auto].
  - destruct (IH rest _ _ ltac:(lia) Hrun) as (a & Hin & Hne & ->).
    exists a. split; [now right | auto].
  - injection Hrun as <-. exists arg. split; [now left | auto].
Qed.

Lemma parseArgs_app (argv more : list string) (parsed : Args.t) :
  (3 <= length argv)%nat -> parseArgs argv = Ok parsed ->
  parseArgs (argv ++ more) = parseArgs_loop more parsed.
Proof.
  intros Hlen Hrun. unfold parseArgs in *.
  rewrite lookup_app_l by lia. rewrite drop_app_le by lia.
  now apply (parseArgs_loop_app (length (drop 3 argv))).
Qed.

End Arguments.

(** X1. An option added at the end of a command line that [parseArgs]
    accepts is read after the others: [--app] with a value that is not
    empty replaces the application path and nothing else, [--no-codesign]
    turns signing off and nothing else, and any other argument, an [--app]
    with no value or with an empty one among them, is thrown as unknown. *)
Theorem parseArgs_appended_option (argv : list string) (parsed : Args.t) :
  (3 <= length argv)%nat ->
  parseArgs argv = Ok parsed ->
  (forall value : string,
     value <> "" ->
     parseArgs (argv ++ ["--app"; value])
     = Ok {| Args.command := Args.command parsed;
             Args.appPath := value;
             Args.codeSign := Args.codeSign parsed |}) /\
  parseArgs (argv ++ ["--no-codesign"])
  = Ok {| Args.command := Args.command parsed;
          Args.appPath := Args.appPath parsed;
          Args.codeSign := false |} /\
  (forall arg : string,
     arg <> "--no-codesign" ->
     parseArgs (argv ++ [arg]) = Throw (Error ("Unknown argument: " +:+ arg))) /\
  (forall rest : list string,
     parseArgs (argv ++ "--app" :: "" :: rest)
     = Throw (Error "Unknown argument: --app")).
Proof.
  intros Hlen Hrun. repeat split.
  - intros value Hv. rewrite (parseArgs_app _ _ _ Hlen Hrun).
    destruct (parseArgs_loop_cases "--app" [value] parsed)
      as [(_ & v & r & [= <- <-] & _ & ->) | [([=] & _) | (_ & Habs & _)]];
      [reflexivity |].
    now specialize (Habs eq_refl value [] eq_refl).
  - now rewrite (parseArgs_app _ _ _ Hlen Hrun).
  - intros arg Hno. rewrite (parseArgs_app _ _ _ Hlen Hrun).
    destruct (parseArgs_loop_cases arg [] parsed)
      as [(_ & v & r & [=] & _) | [(-> & _) | (_ & _ & ->)]];
      [contradiction | reflexivity].
  - intros rest. now rewrite (parseArgs_app _ _ _ Hlen Hrun).
Qed.

Lemma parseArgs_appended_option_witness :
  parseArgs ["node"; "codex-darcula-theme.js"; "patch"; "--no-codesign";
             "--app"; "/tmp/Codex.app"]
  = Ok {| Args.command := "patch"; Args.appPath := "/tmp/Codex.app";
          Args.codeSign := false |} /\
  parseArgs ["node"; "codex-darcula-theme.js"; "patch"; "--no-codesign"; "--app"]
  = Throw (Error "Unknown argument: --app").
Proof.
  destruct (parseArgs_appended_option
              ["node"; "codex-darcula-theme.js"; "patch"; "--no-codesign"]
              {| Args.command := "patch"; Args.appPath := "/Applications/Codex.app";
                 Args.codeSign := false |})
    as (Happ & _ & Hunknown & _).
  - cbn [length]. lia.
  - reflexivity.
  - split.
    + apply (Happ "/tmp/Codex.app"). discriminate.
    + apply (Hunknown "--app"). discriminate.
Defined.

(** X2. What [parseArgs] returns comes from the command line or from the
    defaults: the command is never empty, and is [argv[2]] or "status";
    signing is off only if [--no-codesign] is among the arguments; and the
    application path is the default or a non-empty argument that follows an
    [--app]. *)
Theorem parseArgs_result (argv : list string) (parsed : Args.t) :
  parseArgs argv = Ok parsed ->
  Args.command parsed <> "" /\
  (argv !! 2%nat = Some (Args.command parsed) \/ Args.command parsed = "status") /\
  (Args.codeSign parsed = false -> "--no-codesign" ∈ drop 3 argv) /\
  (Args.appPath parsed = "/Applications/Codex.app" \/
   (Args.appPath parsed <> "" /\
    exists before after : list string,
      drop 3 argv = before ++ "--app" :: Args.appPath parsed :: after)).
Proof.
  unfold parseArgs. intros Hrun.
  destruct (parseArgs_loop_result _ _ _ _ (Nat.le_refl _) Hrun) as (Hc & Hs & Ha).
  cbn [Args.command Args.appPath Args.codeSign] in Hc, Hs, Ha.
  rewrite Hc. split; [| split; [| split]].
  - destruct (argv !! 2%nat) as [c|]; [| discriminate].
    destruct (String.eqb_spec c ""); [discriminate | assumption].
  - destruct (argv !! 2%nat) as [c|]; [| now right].
    destruct (String.eqb_spec c ""); [now right | now left].
  - intros Hoff. destruct Hs as [Hs | [_ Hin]]; [congruence | exact Hin].
  - exact Ha.
Qed.

Lemma parseArgs_result_witness :
  let argv := ["node"; "codex-darcula-theme.js"; ""; "--app"; "--no-codesign"] in
  let parsed := {| Args.command := "status"; Args.appPath := "--no-codesign";
                   Args.codeSign := true |} in
  parseArgs argv = Ok parsed /\
  (argv !! 2%nat = Some (Args.command parsed) \/ Args.command parsed = "status") /\
  (Args.appPath parsed = "/Applications/Codex.app" \/
   (Args.appPath parsed <> "" /\
    exists before after : list string,
      drop 3 argv = before ++ "--app" :: Args.appPath parsed :: after)).
Proof.
  intros argv parsed.
  assert (Hrun : parseArgs argv = Ok parsed) by reflexivity.
  destruct (parseArgs_result argv parsed Hrun) as (_ & Hc & _ & Ha).
  split; [exact Hrun | split; [exact Hc | exact Ha]].
Defined.

(** X3. [parseArgs] throws nothing but "Unknown argument", and names an
    argument of the command line, after the command, that is not
    [--no-codesign]. *)
Theorem parseArgs_error (argv : list string) (e : error) :
  parseArgs argv = Throw e ->
  exists arg : string,
    arg ∈ drop 3 argv /\ arg <> "--no-codesign" /\
    e = Error ("Unknown argument: " +:+ arg).
Proof.
  unfold parseArgs. intros Hrun.
  exact (parseArgs_loop_error _ _ _ _ (Nat.le_refl _) Hrun).
Qed.

Lemma parseArgs_error_witness :
  exists arg : string,
    arg ∈ ["--no-codesign"; "--verbose"; "--app"] /\ arg <> "--no-codesign" /\
    Error "Unknown argument: --verbose" = Error ("Unknown argument: " +:+ arg).
Proof.
  apply (parseArgs_error ["node"; "codex-darcula-theme.js"; "restore";
                          "--no-codesign"; "--verbose"; "--app"]).
  reflexivity.
Defined.

(** ** What the commands leave alone *)

#[global] Instance same_file_reflexive (path : string) : Reflexive (same_file path).
Proof. now intros w. Qed.

#[global] Instance same_file_transitive (path : string) : Transitive (same_file path).
Proof. unfold same_file. intros w1 w2 w3 H1 H2. congruence. Qed.

#[global] Instance file_kept_reflexive (path : string) : Reflexive (file_kept path).
Proof. now intros w content. Qed.

#[global] Instance file_kept_transitive (path : string) : Transitive (file_kept path).
Proof. unfold file_kept. intros w1 w2 w3 H1 H2 content H. auto. Qed.

#[global] Instance same_signatures_reflexive : Reflexive same_signatures.
Proof. now intros w. Qed.

#[global] Instance same_signatures_transitive : Transitive same_signatures.
Proof. unfold same_signatures. intros w1 w2 w3 H1 H2. congruence. Qed.

#[global] Instance same_file_console_blind (path : string) : ConsoleBlind (same_file path).
Proof. now intros w logged warned. Qed.

#[global] Instance file_kept_console_blind (path : string) : ConsoleBlind (file_kept path).
Proof. now intros w logged warned content. Qed.

#[global] Instance same_signatures_console_blind : ConsoleBlind same_signatures.
Proof. now intros w logged warned. Qed.

#[global] Instance still_there_reflexive (path : string) : Reflexive (still_there path).
Proof. now intros w. Qed.

#[global] Instance still_there_transitive (path : string) : Transitive (still_there path).
Proof. unfold still_there. intros w1 w2 w3 H1 H2 H. auto. Qed.

#[global] Instance still_there_console_blind (path : string) : ConsoleBlind (still_there path).
Proof. now intros w logged warned. Qed.

Create HintDb respects discriminated.

Section Effects.
Context `{RT : Runtime}.

Lemma respects_bind {A B : Type} (R : relation world) `{!Transitive R}
    (m : IO A) (k : A -> IO B) :
  respects R m -> (forall a, respects R (k a)) -> respects R (io_bind m k).
Proof.
  intros Hm Hk w. unfold io_bind. specialize (Hm w).
  destruct (m w) as [[a|e] w1]; cbn [snd] in *; [| exact Hm].
  etransitivity; [exact Hm | apply Hk].
Qed.

Lemma respects_ret {A : Type} (R : relation world) `{!Reflexive R} (a : A) :
  respects R (ret a).
Proof. intros w. reflexivity. Qed.

Lemma respects_throw {A : Type} (R : relation world) `{!Reflexive R} (e : error) :
  respects R (throw (A := A) e).
Proof. intros w. reflexivity. Qed.

Lemma respects_lift {A : Type} (R : relation world) `{!Reflexive R} (r : result A) :
  respects R (lift r).
Proof. intros w. reflexivity. Qed.

Lemma respects_existsSync (R : relation world) `{!Reflexive R} (p : string) :
  respects R (existsSync p).
Proof. intros w. reflexivity. Qed.

Lemma respects_readFileSync (R : relation world) `{!Reflexive R} (p : string) :
  respects R (readFileSync p).
Proof. intros w. unfold readFileSync. destruct (fs w !! p); reflexivity. Qed.

Lemma respects_clock (R : relation world) `{!Reflexive R} :
  respects R (fun w => (Ok (clock w), w)).
Proof. intros w. reflexivity. Qed.

Lemma respects_log (R : relation world) `{!ConsoleBlind R} (line : string) :
  respects R (log line).
Proof. intros w. apply console_blind. Qed.

Lemma respects_warn (R : relation world) `{!ConsoleBlind R} (line : string) :
  respects R (warn line).
Proof. intros w. apply console_blind. Qed.

(** The files. *)
Lemma same_file_writeFileSync (q p : string) (c : Buffer) :
  q <> p -> respects (same_file q) (writeFileSync p c).
Proof. intros Hq w. unfold same_file. cbn. now rewrite lookup_insert_ne. Qed.

Lemma same_file_copyFileSync (q src dest : string) :
  q <> dest -> respects (same_file q) (copyFileSync src dest).
Proof.
  intros Hq. apply respects_bind; [apply _ | now apply respects_readFileSync |].
  intros c. now apply same_file_writeFileSync.
Qed.

Lemma same_file_renameSync (q old new : string) :
  q <> old -> q <> new -> respects (same_file q) (renameSync old new).
Proof.
  intros Ho Hn. apply respects_bind; [apply _ | now apply respects_readFileSync |].
  intros c w. unfold same_file. cbn.
  now rewrite lookup_insert_ne, lookup_delete_ne.
Qed.

Lemma same_file_tryCodeSign (q a : string) : respects (same_file q) (tryCodeSign a).
Proof. intros w. unfold same_file. now destruct (tryCodeSign_fs a w) as [_ ->]. Qed.

Lemma same_file_ensureBackup (q : string) (paths : Paths) (buf : Buffer) :
  q <> backupPath paths -> q <> infoPlistBackupPath paths ->
  respects (same_file q) (ensureBackup paths buf).
Proof. intros H1 H2 w. now apply ensureBackup_other. Qed.

Lemma file_kept_of_same_file {A : Type} (q : string) (m : IO A) :
  respects (same_file q) m -> respects (file_kept q) m.
Proof. intros H w content Hc. now rewrite H. Qed.

Lemma file_kept_ensureBackup (q : string) (paths : Paths) (buf : Buffer) :
  respects (file_kept q) (ensureBackup paths buf).
Proof. intros w content. apply ensureBackup_kept. Qed.

Lemma file_kept_writeFileSync (q p : string) (c : Buffer) :
  q <> p -> respects (file_kept q) (writeFileSync p c).
Proof. intros Hq. now apply file_kept_of_same_file, same_file_writeFileSync. Qed.

Lemma file_kept_copyFileSync (q src dest : string) :
  q <> dest -> respects (file_kept q) (copyFileSync src dest).
Proof. intros Hq. now apply file_kept_of_same_file, same_file_copyFileSync. Qed.

Lemma file_kept_renameSync (q old new : string) :
  q <> old -> q <> new -> respects (file_kept q) (renameSync old new).
Proof. intros Ho Hn. now apply file_kept_of_same_file, same_file_renameSync. Qed.

Lemma file_kept_tryCodeSign (q a : string) : respects (file_kept q) (tryCodeSign a).
Proof. apply file_kept_of_same_file, same_file_tryCodeSign. Qed.

Lemma still_there_of_file_kept {A : Type} (q : string) (m : IO A) :
  respects (file_kept q) m -> respects (still_there q) m.
Proof. intros H w [content Hc]. exists content. now apply H. Qed.

Lemma still_there_writeFileSync (q p : string) (c : Buffer) :
  respects (still_there q) (writeFileSync p c).
Proof.
  intros w [content Hc]. cbn. destruct (decide (p = q)) as [->|Hne].
  - rewrite lookup_insert_eq. eauto.
  - rewrite lookup_insert_ne by exact Hne. eauto.
Qed.

Lemma still_there_copyFileSync (q src dest : string) :
  respects (still_there q) (copyFileSync src dest).
Proof.
  apply respects_bind; [apply _ | now apply respects_readFileSync |].
  intros c. apply still_there_writeFileSync.
Qed.

Lemma still_there_renameSync (q old new : string) :
  q <> old -> respects (still_there q) (renameSync old new).
Proof.
  intros Ho. apply respects_bind; [apply _ | now apply respects_readFileSync |].
  intros c w [content Hc]. cbn. destruct (decide (new = q)) as [->|Hne].
  - rewrite lookup_insert_eq. eauto.
  - rewrite lookup_insert_ne, lookup_delete_ne by congruence. eauto.
Qed.

Lemma still_there_tryCodeSign (q a : string) : respects (still_there q) (tryCodeSign a).
Proof. apply still_there_of_file_kept, file_kept_tryCodeSign. Qed.

Lemma still_there_ensureBackup (q : string) (paths : Paths) (buf : Buffer) :
  respects (still_there q) (ensureBackup paths buf).
Proof. apply still_there_of_file_kept, file_kept_ensureBackup. Qed.

(** The signatures. *)
Lemma same_signatures_writeFileSync (p : string) (c : Buffer) :
  respects same_signatures (writeFileSync p c).
Proof. now intros w. Qed.

Lemma same_signatures_copyFileSync (src dest : string) :
  respects same_signatures (copyFileSync src dest).
Proof.
  apply respects_bind; [apply _ | now apply respects_readFileSync |].
  intros c. apply same_signatures_writeFileSync.
Qed.

Lemma same_signatures_renameSync (old new : string) :
  respects same_signatures (renameSync old new).
Proof.
  apply respects_bind; [apply _ | now apply respects_readFileSync |].
  now intros c w.
Qed.

End Effects.

#[global] Hint Resolve respects_ret respects_throw respects_lift respects_existsSync
  respects_readFileSync respects_clock respects_log respects_warn
  same_file_writeFileSync same_file_copyFileSync same_file_renameSync
  same_file_tryCodeSign same_file_ensureBackup
  file_kept_ensureBackup file_kept_writeFileSync file_kept_copyFileSync
  file_kept_renameSync file_kept_tryCodeSign
  still_there_writeFileSync still_there_copyFileSync still_there_renameSync
  still_there_tryCodeSign still_there_ensureBackup
  same_signatures_writeFileSync same_signatures_copyFileSync
  same_signatures_renameSync : respects.

#[global] Hint Extern 1 (Reflexive _) => typeclasses eauto : respects.
#[global] Hint Extern 1 (ConsoleBlind _) => typeclasses eauto : respects.
#[global] Hint Extern 1 (_ <> _) => congruence : respects.

(** The step through a command: an action that is known, a sequence, or a
    choice. *)
Ltac respects_step :=
  first
    [ solve [eauto 3 with respects]
    | match goal with
      | |- respects _ (if ?b then _ else _) => destruct b
      | |- respects _ (let '(_, _) := ?p in _) => destruct p
      end
    | apply respects_bind; [typeclasses eauto | | intros ?]
    | progress cbv beta zeta
    | progress unfold ensureExists, getInfoPlistAsarHash, setInfoPlistAsarHash,
        writeMeta, printUsage ].

Ltac respects_auto := repeat respects_step.

Section CommandEffects.
Context `{RT : Runtime}.

Lemma same_signatures_ensureBackup (paths : Paths) (buf : Buffer) :
  respects same_signatures (ensureBackup paths buf).
Proof. intros w. apply ensureBackup_quiet. Qed.

(** Two of the six files that stand at different places of the list are
    different files. *)
Lemma files_differ (paths : Paths) (i j : nat) (p q : string) :
  NoDup (files paths) ->
  files paths !! i = Some p -> files paths !! j = Some q -> i <> j -> p <> q.
Proof.
  intros Hd Hi Hj Hne ->. apply Hne. exact (NoDup_lookup _ i j q Hd Hi Hj).
Qed.

Lemma not_in_files (paths : Paths) (q : string) :
  q ∉ files paths ->
  q <> infoPlistPath paths /\ q <> infoPlistBackupPath paths /\
  q <> asarPath paths /\ q <> backupPath paths /\
  q <> metaPath paths /\ q <> tempPath paths.
Proof.
  unfold files. rewrite !not_elem_of_cons. tauto.
Qed.

(** With signing off, a command writes none but the six files, and runs no
    [codesign]. *)
Lemma commandStatus_same_file (q : string) (paths : Paths) :
  respects (same_file q) (commandStatus paths).
Proof. unfold commandStatus. respects_auto. Qed.

Lemma commandStatus_same_signatures (paths : Paths) :
  respects same_signatures (commandStatus paths).
Proof. unfold commandStatus. respects_auto. Qed.

Lemma commandPatch_same_file (q : string) (paths : Paths) :
  q ∉ files paths -> respects (same_file q) (commandPatch paths false).
Proof.
  intros Hq. destruct (not_in_files _ _ Hq) as (H1 & H2 & H3 & H4 & H5 & H6).
  unfold commandPatch. respects_auto.
Qed.

Lemma commandPatch_same_signatures (paths : Paths) :
  respects same_signatures (commandPatch paths false).
Proof. unfold commandPatch. pose proof same_signatures_ensureBackup. respects_auto. Qed.

Lemma commandRestore_same_file (q : string) (paths : Paths) :
  q ∉ files paths -> respects (same_file q) (commandRestore paths false).
Proof.
  intros Hq. destruct (not_in_files _ _ Hq) as (H1 & H2 & H3 & H4 & H5 & H6).
  unfold commandRestore. respects_auto.
Qed.

Lemma commandRestore_same_signatures (paths : Paths) :
  respects same_signatures (commandRestore paths false).
Proof. unfold commandRestore. respects_auto. Qed.

Lemma printUsage_same_file (q : string) : respects (same_file q) printUsage.
Proof. respects_auto. Qed.

End CommandEffects.
Section Restore.
Context `{RT : Runtime}.

Lemma renameSync_ok (old new : string) (w : world) (c : Buffer) :
  fs w !! old = Some c ->
  renameSync old new w
  = (Ok tt, set_fs (fun files => <[new := c]> (delete old files)) w).
Proof. intros H. unfold renameSync, io_bind, readFileSync. now rewrite H. Qed.

Lemma copyFileSync_ok (src dest : string) (w : world) (c : Buffer) :
  fs w !! src = Some c ->
  copyFileSync src dest w = (Ok tt, set_fs (insert dest c) w).
Proof. intros H. unfold copyFileSync, io_bind, readFileSync. now rewrite H. Qed.

Lemma commandRestore_run (paths : Paths) (codeSign : bool) (w : world) (plist b : Buffer) :
  NoDup (files paths) ->
  fs w !! infoPlistPath paths = Some plist ->
  fs w !! backupPath paths = Some b ->
  (commandRestore paths codeSign w).1 = Ok tt /\
  fs (commandRestore paths codeSign w).2
  = match fs w !! infoPlistBackupPath paths with
    | Some pb => <[infoPlistPath paths := pb]>
                   (<[asarPath paths := b]> (delete (tempPath paths) (fs w)))
    | None => <[asarPath paths := b]> (delete (tempPath paths) (fs w))
    end.
Proof.
  intros Hd Hp Hb. unfold commandRestore.
  rewrite (io_bind_run _ _ w w tt (ensureExists_ok _ _ w plist Hp)).
  rewrite (io_bind_run _ _ w w tt (ensureExists_ok _ _ w b Hb)).
  rewrite (io_bind_run _ _ w w b (readFileSync_ok _ w b Hb)).
  rewrite (io_bind_run (writeFileSync (tempPath paths) b) _ w _ tt eq_refl).
  rewrite (io_bind_run _ _ _ _ tt (renameSync_ok _ _ _ b (lookup_insert_eq _ _ _))).
  match goal with |- context [io_bind (existsSync _) _ ?w0] => set (w2 := w0) end.
  assert (Hfs2 : fs w2 = <[asarPath paths := b]> (delete (tempPath paths) (fs w)))
    by (cbn; now rewrite delete_insert_eq).
  assert (Hpb : fs w2 !! infoPlistBackupPath paths = fs w !! infoPlistBackupPath paths).
  { rewrite Hfs2, lookup_insert_ne, lookup_delete_ne; [reflexivity | |].
    - apply (files_differ paths 5 1); [exact Hd | reflexivity | reflexivity | discriminate].
    - apply (files_differ paths 2 1); [exact Hd | reflexivity | reflexivity | discriminate]. }
  rewrite (io_bind_run (existsSync (infoPlistBackupPath paths)) _ w2 w2 _ eq_refl).
  rewrite bool_decide_is_Some, Hpb.
  destruct (fs w !! infoPlistBackupPath paths) as [pb|] eqn:Hpb0.
  - rewrite (io_bind_run _ _ _ _ tt (copyFileSync_ok _ _ w2 pb Hpb)).
    rewrite (io_bind_run (log _) _ _ _ tt eq_refl).
    destruct codeSign.
    + match goal with |- (tryCodeSign ?a ?w0).1 = _ /\ _ =>
        destruct (tryCodeSign_fs a w0) as [H1 H2] end.
      split; [exact H1 |]. rewrite H2. cbn [log set_fs snd fs]. now rewrite Hfs2.
    + split; [reflexivity |]. cbn [ret log set_fs snd fs]. now rewrite Hfs2.
  - rewrite (io_bind_run (warn _) _ _ _ tt eq_refl).
    rewrite (io_bind_run (log _) _ _ _ tt eq_refl).
    destruct codeSign.
    + match goal with |- (tryCodeSign ?a ?w0).1 = _ /\ _ =>
        destruct (tryCodeSign_fs a w0) as [H1 H2] end.
      split; [exact H1 |]. rewrite H2. cbn [log warn snd fs]. exact Hfs2.
    + split; [reflexivity |]. cbn [ret log warn snd fs]. exact Hfs2.
Qed.

(** The files after a restore, one by one. *)
Lemma commandRestore_lookup (paths : Paths) (codeSign : bool) (w : world)
    (plist b : Buffer) :
  NoDup (files paths) ->
  fs w !! infoPlistPath paths = Some plist ->
  fs w !! backupPath paths = Some b ->
  let r := commandRestore paths codeSign w in
  r.1 = Ok tt /\
  fs r.2 !! asarPath paths = Some b /\
  fs r.2 !! infoPlistPath paths
  = Some (default plist (fs w !! infoPlistBackupPath paths)) /\
  fs r.2 !! tempPath paths = None /\
  forall q : string,
    q <> asarPath paths -> q <> infoPlistPath paths -> q <> tempPath paths ->
    fs r.2 !! q = fs w !! q.
Proof.
  intros Hd Hp Hb r.
  destruct (commandRestore_run paths codeSign w plist b Hd Hp Hb) as [Hok Hfs].
  fold r in Hok, Hfs.
  assert (Hap : asarPath paths <> infoPlistPath paths)
    by (apply (files_differ paths 2 0); [exact Hd | reflexivity | reflexivity | discriminate]).
  assert (Hta : tempPath paths <> asarPath paths)
    by (apply (files_differ paths 5 2); [exact Hd | reflexivity | reflexivity | discriminate]).
  assert (Htp : tempPath paths <> infoPlistPath paths)
    by (apply (files_differ paths 5 0); [exact Hd | reflexivity | reflexivity | discriminate]).
  split; [exact Hok |]. rewrite Hfs.
  destruct (fs w !! infoPlistBackupPath paths) as [pb|]; cbn [default from_option id].
  - rewrite lookup_insert_ne, lookup_insert_eq by congruence.
    rewrite lookup_insert_eq.
    rewrite !lookup_insert_ne, lookup_delete_eq by congruence.
    repeat split. intros q H1 H2 H3.
    now rewrite !lookup_insert_ne, lookup_delete_ne by congruence.
  - rewrite lookup_insert_eq.
    rewrite lookup_insert_ne, lookup_delete_ne, Hp by congruence.
    rewrite lookup_insert_ne, lookup_delete_eq by congruence.
    repeat split. intros q H1 H2 H3.
    now rewrite lookup_insert_ne, lookup_delete_ne by congruence.
Qed.

(** Without the manifest or without the backup of the container, the
    restore stops before it writes. *)
Lemma commandRestore_stops (paths : Paths) (codeSign : bool) (w : world) :
  fs w !! infoPlistPath paths = None \/ fs w !! backupPath paths = None ->
  commandRestore paths codeSign w
  = (Throw (Error (match fs w !! infoPlistPath paths with
                   | None => "Info.plist not found: " +:+ infoPlistPath paths
                   | Some _ => "Darcula backup not found: " +:+ backupPath paths
                   end)), w).
Proof.
  intros H. unfold commandRestore.
  destruct (fs w !! infoPlistPath paths) as [plist|] eqn:Hp.
  - destruct H as [H|H]; [discriminate |].
    rewrite (io_bind_run _ _ w w tt (ensureExists_ok _ _ w plist Hp)).
    unfold ensureExists, io_bind, existsSync, throw.
    now rewrite bool_decide_is_Some, H.
  - unfold ensureExists, io_bind, existsSync, throw.
    now rewrite bool_decide_is_Some, Hp.
Qed.

End Restore.
Section PatchEffects.
Context `{RT : Runtime}.

(** After [ensureBackup] the two backups are there: the ones that were,
    or else the container it was given and the manifest. *)
Lemma ensureBackup_result (paths : Paths) (buf plist : Buffer) (w : world) :
  NoDup (files paths) ->
  fs w !! infoPlistPath paths = Some plist ->
  (ensureBackup paths buf w).1 = Ok tt /\
  fs (ensureBackup paths buf w).2 !! backupPath paths
  = Some (default buf (fs w !! backupPath paths)) /\
  fs (ensureBackup paths buf w).2 !! infoPlistBackupPath paths
  = Some (default plist (fs w !! infoPlistBackupPath paths)).
Proof.
  intros Hd Hp. pose proof (ensureBackup_fs paths buf w) as H. cbv zeta in H.
  assert (Hbp : backupPath paths <> infoPlistPath paths)
    by (apply (files_differ paths 3 0); [exact Hd | reflexivity | reflexivity | discriminate]).
  assert (Hbb : backupPath paths <> infoPlistBackupPath paths)
    by (apply (files_differ paths 3 1); [exact Hd | reflexivity | reflexivity | discriminate]).
  destruct (fs w !! backupPath paths) as [b|] eqn:Hb; cbn [default from_option id].
  - destruct (fs w !! infoPlistBackupPath paths) as [pb|] eqn:Hpb;
      cbn [default from_option id].
    + destruct H as [H1 H2]. rewrite H2. auto.
    + rewrite Hp in H. destruct H as [H1 H2]. rewrite H2.
      rewrite lookup_insert_ne, lookup_insert_eq by congruence. auto.
  - rewrite (lookup_insert_ne (fs w) (backupPath paths) (infoPlistBackupPath paths))
      in H by exact Hbb.
    destruct (fs w !! infoPlistBackupPath paths) as [pb|] eqn:Hpb;
      cbn [default from_option id].
    + destruct H as [H1 H2]. rewrite H2.
      rewrite lookup_insert_eq, lookup_insert_ne by exact Hbb. auto.
    + rewrite (lookup_insert_ne (fs w) (backupPath paths) (infoPlistPath paths))
        in H by exact Hbp.
      rewrite Hp in H. destruct H as [H1 H2]. rewrite H2.
      rewrite lookup_insert_ne, !lookup_insert_eq by congruence. auto.
Qed.

(** A patch command that returns has found the container and the
    manifest, and leaves the two backups and a manifest behind. *)
Lemma commandPatch_backed_up (paths : Paths) (codeSign : bool) (w w1 : world) :
  NoDup (files paths) ->
  commandPatch paths codeSign w = (Ok tt, w1) ->
  exists asar plist : Buffer,
    fs w !! asarPath paths = Some asar /\
    fs w !! infoPlistPath paths = Some plist /\
    fs w1 !! backupPath paths = Some (default asar (fs w !! backupPath paths)) /\
    fs w1 !! infoPlistBackupPath paths
    = Some (default plist (fs w !! infoPlistBackupPath paths)) /\
    is_Some (fs w1 !! infoPlistPath paths).
Proof.
  intros Hd Hrun. unfold commandPatch in Hrun.
  apply io_bind_inv in Hrun as ([] & w0 & H1 & Hrun).
  apply ensureExists_inv in H1 as [-> [plist Hp]].
  apply io_bind_inv in Hrun as ([] & w0 & H1 & Hrun).
  apply ensureExists_inv in H1 as [-> _].
  apply io_bind_inv in Hrun as (asar & w0 & H1 & Hrun).
  apply readFileSync_inv in H1 as [-> Ha].
  apply io_bind_inv in Hrun as ([] & wb & Hb & Hrun).
  destruct (ensureBackup_result paths asar plist w Hd Hp) as (_ & Hb1 & Hb2).
  rewrite Hb in Hb1, Hb2. cbn [snd] in Hb1, Hb2.
  assert (Hpb : is_Some (fs wb !! infoPlistPath paths)).
  { pose proof (still_there_ensureBackup (infoPlistPath paths) paths asar w) as H.
    rewrite Hb in H. apply H. eauto. }
  assert (D1 : backupPath paths <> tempPath paths)
    by (apply (files_differ paths 3 5); [exact Hd | reflexivity | reflexivity | discriminate]).
  assert (D2 : backupPath paths <> asarPath paths)
    by (apply (files_differ paths 3 2); [exact Hd | reflexivity | reflexivity | discriminate]).
  assert (D3 : backupPath paths <> infoPlistPath paths)
    by (apply (files_differ paths 3 0); [exact Hd | reflexivity | reflexivity | discriminate]).
  assert (D4 : backupPath paths <> metaPath paths)
    by (apply (files_differ paths 3 4); [exact Hd | reflexivity | reflexivity | discriminate]).
  assert (D5 : infoPlistBackupPath paths <> tempPath paths)
    by (apply (files_differ paths 1 5); [exact Hd | reflexivity | reflexivity | discriminate]).
  assert (D6 : infoPlistBackupPath paths <> asarPath paths)
    by (apply (files_differ paths 1 2); [exact Hd | reflexivity | reflexivity | discriminate]).
  assert (D7 : infoPlistBackupPath paths <> infoPlistPath paths)
    by (apply (files_differ paths 1 0); [exact Hd | reflexivity | reflexivity | discriminate]).
  assert (D8 : infoPlistBackupPath paths <> metaPath paths)
    by (apply (files_differ paths 1 4); [exact Hd | reflexivity | reflexivity | discriminate]).
  assert (D9 : infoPlistPath paths <> tempPath paths)
    by (apply (files_differ paths 0 5); [exact Hd | reflexivity | reflexivity | discriminate]).
  match type of Hrun with
  | ?rest wb = _ =>
      assert (K1 : respects (file_kept (backupPath paths)) rest) by respects_auto;
      assert (K2 : respects (file_kept (infoPlistBackupPath paths)) rest) by respects_auto;
      assert (K3 : respects (still_there (infoPlistPath paths)) rest) by respects_auto;
      specialize (K1 wb); specialize (K2 wb); specialize (K3 wb);
      rewrite Hrun in K1, K2, K3
  end.
  exists asar, plist. repeat split; auto.
Qed.

End PatchEffects.
(** X4. A restore run after a patch command that returned, from a world
    where no backup existed, brings the container and the manifest back to
    the bytes they had before the patch: the restore returns, and the two
    files are as they were. *)
Theorem commandRestore_undoes_commandPatch `{RT : Runtime}
    (paths : Paths) (codeSign codeSign' : bool) (w w1 : world) :
  NoDup (files paths) ->
  fs w !! backupPath paths = None ->
  fs w !! infoPlistBackupPath paths = None ->
  commandPatch paths codeSign w = (Ok tt, w1) ->
  let r := commandRestore paths codeSign' w1 in
  r.1 = Ok tt /\
  is_Some (fs w !! asarPath paths) /\
  fs r.2 !! asarPath paths = fs w !! asarPath paths /\
  is_Some (fs w !! infoPlistPath paths) /\
  fs r.2 !! infoPlistPath paths = fs w !! infoPlistPath paths.
Proof.
  intros Hd Hb Hpb Hrun r.
  destruct (commandPatch_backed_up paths codeSign w w1 Hd Hrun)
    as (asar & plist & Ha & Hp & Hb1 & Hpb1 & [plist1 Hp1]).
  rewrite Hb in Hb1. rewrite Hpb in Hpb1. cbn [default from_option id] in Hb1, Hpb1.
  destruct (commandRestore_lookup paths codeSign' w1 plist1 asar Hd Hp1 Hb1)
    as (Hok & Hasar & Hplist & _).
  fold r in Hok, Hasar, Hplist. rewrite Hpb1 in Hplist.
  rewrite Ha, Hp. repeat split; eauto.
Qed.

Lemma commandRestore_undoes_commandPatch_witness :
  let asar := Examples.app_asar Examples.bundle in
  let plist := list_byte_of_string "h0" in
  let w := Examples.app_world asar plist in
  let w1 := (commandPatch (RT := Mini.runtime) Examples.paths true w).2 in
  let r := commandRestore (RT := Mini.runtime) Examples.paths true w1 in
  fs w1 !! asarPath Examples.paths <> Some asar /\
  r.1 = Ok tt /\
  fs r.2 !! asarPath Examples.paths = Some asar /\
  fs r.2 !! infoPlistPath Examples.paths = Some plist.
Proof.
  intros asar plist w w1 r.
  assert (Hrun : (commandPatch (RT := Mini.runtime) Examples.paths true w).1 = Ok tt)
    by (vm_compute; reflexivity).
  destruct (commandRestore_undoes_commandPatch (RT := Mini.runtime)
              Examples.paths true true w w1)
    as (Hok & _ & Hasar & _ & Hplist).
  - exact (getPaths_distinct _).
  - vm_compute; reflexivity.
  - vm_compute; reflexivity.
  - rewrite (surjective_pairing (commandPatch Examples.paths true w)).
    now rewrite Hrun.
  - split; [vm_compute; discriminate |].
    split; [exact Hok |]. split; [exact Hasar | exact Hplist].
Defined.

(** X5. The patch command never changes a backup file that exists: whatever
    the container holds and whatever the outcome, a backup of the container
    or of the manifest that is there before the command is there after it,
    with the same bytes. *)
Theorem commandPatch_keeps_backups `{RT : Runtime}
    (paths : Paths) (codeSign : bool) (w : world) (q : string) (content : Buffer) :
  NoDup (files paths) ->
  q = backupPath paths \/ q = infoPlistBackupPath paths ->
  fs w !! q = Some content ->
  fs (commandPatch paths codeSign w).2 !! q = Some content.
Proof.
  intros Hd Hq.
  assert (D1 : backupPath paths <> tempPath paths)
    by (apply (files_differ paths 3 5); [exact Hd | reflexivity | reflexivity | discriminate]).
  assert (D2 : backupPath paths <> asarPath paths)
    by (apply (files_differ paths 3 2); [exact Hd | reflexivity | reflexivity | discriminate]).
  assert (D3 : backupPath paths <> infoPlistPath paths)
    by (apply (files_differ paths 3 0); [exact Hd | reflexivity | reflexivity | discriminate]).
  assert (D4 : backupPath paths <> metaPath paths)
    by (apply (files_differ paths 3 4); [exact Hd | reflexivity | reflexivity | discriminate]).
  assert (D5 : infoPlistBackupPath paths <> tempPath paths)
    by (apply (files_differ paths 1 5); [exact Hd | reflexivity | reflexivity | discriminate]).
  assert (D6 : infoPlistBackupPath paths <> asarPath paths)
    by (apply (files_differ paths 1 2); [exact Hd | reflexivity | reflexivity | discriminate]).
  assert (D7 : infoPlistBackupPath paths <> infoPlistPath paths)
    by (apply (files_differ paths 1 0); [exact Hd | reflexivity | reflexivity | discriminate]).
  assert (D8 : infoPlistBackupPath paths <> metaPath paths)
    by (apply (files_differ paths 1 4); [exact Hd | reflexivity | reflexivity | discriminate]).
  assert (K : respects (file_kept q) (commandPatch paths codeSign))
    by (destruct Hq as [-> | ->]; unfold commandPatch; respects_auto).
  apply K.
Qed.

Lemma commandPatch_keeps_backups_witness :
  let w := Examples.with_backups (list_byte_of_string "old container")
             (list_byte_of_string "old manifest")
             (Examples.app_world (Examples.app_asar Examples.bundle)
                                 (list_byte_of_string "h0")) in
  fs (commandPatch (RT := Mini.runtime) Examples.paths true w).2
    !! backupPath Examples.paths
  = Some (list_byte_of_string "old container").
Proof.
  intros w.
  apply (commandPatch_keeps_backups (RT := Mini.runtime) Examples.paths true w).
  - exact (getPaths_distinct _).
  - now left.
  - vm_compute; reflexivity.
Defined.


(** X7. Without the manifest, or without the backup of the container, the
    restore command throws "not found" and leaves the world as it is: no
    file is written, nothing is printed, nothing is signed. *)
Theorem commandRestore_without_backup `{RT : Runtime}
    (paths : Paths) (codeSign : bool) (w : world) :
  fs w !! infoPlistPath paths = None \/ fs w !! backupPath paths = None ->
  commandRestore paths codeSign w
  = (Throw (Error (match fs w !! infoPlistPath paths with
                   | None => "Info.plist not found: " +:+ infoPlistPath paths
                   | Some _ => "Darcula backup not found: " +:+ backupPath paths
                   end)), w).
Proof. apply commandRestore_stops. Qed.

Lemma commandRestore_without_backup_witness :
  let w := Examples.app_world (Examples.app_asar Examples.bundle)
                              (list_byte_of_string "h0") in
  commandRestore (RT := Mini.runtime) Examples.paths true w
  = (Throw (Error ("Darcula backup not found: " +:+ backupPath Examples.paths)), w).
Proof.
  intros w.
  apply (commandRestore_without_backup (RT := Mini.runtime) Examples.paths true w).
  right. vm_compute; reflexivity.
Defined.


Section Status.
Context `{RT : Runtime}.

Lemma getInfoPlistAsarHash_cases (p : string) (w : world) :
  (exists e, getInfoPlistAsarHash p w = (Throw e, w)) \/
  (exists h, getInfoPlistAsarHash p w = (Ok h, w)).
Proof.
  unfold getInfoPlistAsarHash, io_bind, readFileSync, throw, ret.
  destruct (fs w !! p) as [c|]; [| eauto].
  destruct (negb _); eauto.
Qed.

(** The status command throws before it prints, or prints its eight lines
    and returns. *)
Lemma commandStatus_cases (paths : Paths) (w : world) :
  (exists e, commandStatus paths w = (Throw e, w)) \/
  (exists (asar : Buffer) (loaded : loaded_bundle) (headerHash plistHash : string),
     fs w !! asarPath paths = Some asar /\
     loadBundleSourceFromAsar asar = Ok loaded /\
     getAsarHeaderHash asar = Ok headerHash /\
     getInfoPlistAsarHash (infoPlistPath paths) w = (Ok plistHash, w) /\
     commandStatus paths w
     = (Ok tt,
        {| fs := fs w;
           console_log :=
             console_log w ++
             ["app: " +:+ appPath paths;
              "asar: " +:+ asarPath paths;
              "backup: "
              +:+ (if bool_decide (is_Some (fs w !! backupPath paths))
                   then "yes" else "no");
              "plist-backup: "
              +:+ (if bool_decide (is_Some (fs w !! infoPlistBackupPath paths))
                   then "yes" else "no");
              "darcula-patched: "
              +:+ (if includes (bundleSource loaded) PATCH_MARKER then "yes" else "no");
              "asar-header-sha256: " +:+ headerHash;
              "plist-sha256: " +:+ plistHash;
              "integrity-match: "
              +:+ (if String.eqb headerHash plistHash then "yes" else "no")];
           console_warn := console_warn w;
           codesign_runs := codesign_runs w; clock := clock w |})).
Proof.
  unfold commandStatus.
  destruct (fs w !! infoPlistPath paths) as [plist|] eqn:Hp.
  2: { left. unfold ensureExists, io_bind, existsSync, throw.
       rewrite bool_decide_is_Some, Hp. eauto. }
  rewrite (io_bind_run _ _ w w tt (ensureExists_ok _ _ w plist Hp)).
  destruct (fs w !! asarPath paths) as [asar|] eqn:Ha.
  2: { left. unfold ensureExists, io_bind, existsSync, throw.
       rewrite bool_decide_is_Some, Ha. eauto. }
  rewrite (io_bind_run _ _ w w tt (ensureExists_ok _ _ w asar Ha)).
  rewrite (io_bind_run _ _ w w asar (readFileSync_ok _ w asar Ha)).
  destruct (loadBundleSourceFromAsar asar) as [loaded|e] eqn:Hload; [| left; eauto].
  rewrite (io_bind_run (lift (Ok loaded)) _ w w loaded eq_refl).
  destruct (getAsarHeaderHash asar) as [h|e] eqn:Hh; [| left; eauto].
  rewrite (io_bind_run (lift (Ok h)) _ w w h eq_refl).
  destruct (getInfoPlistAsarHash_cases (infoPlistPath paths) w) as [[e He] | [ph Hph]].
  { left. exists e. unfold io_bind. now rewrite He. }
  rewrite (io_bind_run _ _ w w ph Hph).
  right. exists asar, loaded, h, ph.
  split; [reflexivity |]. split; [exact Hload |]. split; [exact Hh |].
  split; [exact Hph |].
  repeat (first [ rewrite (io_bind_run (log _) _ _ _ tt eq_refl)
                | rewrite (io_bind_run (existsSync _) _ _ _ _ eq_refl) ];
          cbn [fs console_log console_warn codesign_runs clock]).
  unfold log. cbn [fs console_log console_warn codesign_runs clock].
  f_equal. f_equal. rewrite <- !app_assoc. reflexivity.
Qed.

End Status.

(** X9. The status command reads and prints, and does nothing else: it
    writes no file, warns of nothing and signs nothing.  When it throws it
    has printed nothing; when it returns it has printed eight lines, which
    tell whether each backup exists, whether the bundle carries the marker,
    the digest of the header and the value of the manifest, and whether
    these two are the same string. *)
Theorem commandStatus_read_only `{RT : Runtime} (paths : Paths) (w : world) :
  let r := commandStatus paths w in
  fs r.2 = fs w /\
  console_warn r.2 = console_warn w /\
  codesign_runs r.2 = codesign_runs w /\
  (forall e, r.1 = Throw e -> r.2 = w) /\
  (r.1 = Ok tt ->
   exists (asar : Buffer) (loaded : loaded_bundle) (headerHash plistHash : string),
     fs w !! asarPath paths = Some asar /\
     loadBundleSourceFromAsar asar = Ok loaded /\
     getAsarHeaderHash asar = Ok headerHash /\
     getInfoPlistAsarHash (infoPlistPath paths) w = (Ok plistHash, w) /\
     console_log r.2
     = console_log w ++
       ["app: " +:+ appPath paths;
        "asar: " +:+ asarPath paths;
        "backup: "
        +:+ (if bool_decide (is_Some (fs w !! backupPath paths)) then "yes" else "no");
        "plist-backup: "
        +:+ (if bool_decide (is_Some (fs w !! infoPlistBackupPath paths))
             then "yes" else "no");
        "darcula-patched: "
        +:+ (if includes (bundleSource loaded) PATCH_MARKER then "yes" else "no");
        "asar-header-sha256: " +:+ headerHash;
        "plist-sha256: " +:+ plistHash;
        "integrity-match: "
        +:+ (if String.eqb headerHash plistHash then "yes" else "no")]).
Proof.
  intros r. unfold r.
  destruct (commandStatus_cases paths w)
    as [[e ->] | (asar & loaded & h & ph & Ha & Hload & Hh & Hph & ->)]; cbn [fst snd].
  - split; [reflexivity |]. split; [reflexivity |]. split; [reflexivity |].
    split; [reflexivity | discriminate].
  - split; [reflexivity |]. split; [reflexivity |]. split; [reflexivity |].
    split; [discriminate |]. intros _. exists asar, loaded, h, ph.
    split; [exact Ha |]. split; [exact Hload |]. split; [exact Hh |].
    split; [exact Hph | reflexivity].
Qed.
(** X10. With signing off (or for the status command), the entry point
    runs no [codesign] and writes no file but the six files of the
    application it was pointed at: every other path holds after the run
    what it held before, whatever the outcome. *)
Theorem main_without_codesign `{RT : Runtime}
    (argv : list string) (parsed : Args.t) (w : world) :
  parseArgs argv = Ok parsed ->
  Args.codeSign parsed = false \/ Args.command parsed = "status" ->
  codesign_runs (main argv w).2 = codesign_runs w /\
  forall q : string,
    q ∉ files (getPaths (Args.appPath parsed)) ->
    fs (main argv w).2 !! q = fs w !! q.
Proof.
  intros Hparse Hoff. unfold main. rewrite Hparse.
  rewrite (io_bind_run (lift (Ok parsed)) _ w w parsed eq_refl). cbv zeta.
  destruct (String.eqb_spec (Args.command parsed) "status") as [_ | Hstatus].
  { split; [apply commandStatus_same_signatures |].
    intros q _. apply commandStatus_same_file. }
  destruct Hoff as [-> | Hoff]; [| contradiction].
  destruct (String.eqb (Args.command parsed) "patch").
  { split; [apply commandPatch_same_signatures |].
    intros q Hq. now apply commandPatch_same_file. }
  destruct (String.eqb (Args.command parsed) "restore").
  { split; [apply commandRestore_same_signatures |].
    intros q Hq. now apply commandRestore_same_file. }
  split; [reflexivity |]. intros q _. reflexivity.
Qed.

Lemma main_without_codesign_witness :
  let asar := Examples.app_asar Examples.bundle in
  let w := set_fs (insert "/Applications/Codex.app/Contents/Resources/icon.icns"
                          (list_byte_of_string "icon"))
             (Examples.app_world asar (list_byte_of_string "h0")) in
  let argv := ["node"; "codex-darcula-theme.js"; "patch"; "--no-codesign"] in
  (main (RT := Mini.runtime) argv w).1 = Ok tt /\
  fs (main (RT := Mini.runtime) argv w).2 !! asarPath Examples.paths <> Some asar /\
  codesign_runs (main (RT := Mini.runtime) argv w).2 = [] /\
  fs (main (RT := Mini.runtime) argv w).2
    !! "/Applications/Codex.app/Contents/Resources/icon.icns"
  = Some (list_byte_of_string "icon").
Proof.
  intros asar w argv.
  destruct (main_without_codesign (RT := Mini.runtime) argv
              {| Args.command := "patch"; Args.appPath := "/Applications/Codex.app";
                 Args.codeSign := false |} w)
    as [Hsign Hfiles].
  - reflexivity.
  - now left.
  - split; [vm_compute; reflexivity |]. split; [vm_compute; discriminate |].
    split; [exact Hsign |]. rewrite Hfiles; [vm_compute; reflexivity |].
    vm_compute. intros H. repeat (apply elem_of_cons in H as [H | H]; [discriminate |]).
    now apply elem_of_nil in H.
Defined.

(** X11. On a command line that it does not understand, the entry point
    throws and writes no file: an argument that [parseArgs] refuses is
    thrown before anything is printed, and a command other than "status",
    "patch" and "restore" is thrown after the four lines of the usage. *)
Theorem main_rejects_bad_command_line `{RT : Runtime} (argv : list string) (w : world) :
  (forall e, parseArgs argv = Throw e -> main argv w = (Throw e, w)) /\
  (forall parsed,
     parseArgs argv = Ok parsed ->
     Args.command parsed ∉ ["status"; "patch"; "restore"] ->
     (main argv w).1 = Throw (Error ("Unknown command: " +:+ Args.command parsed)) /\
     fs (main argv w).2 = fs w /\
     codesign_runs (main argv w).2 = codesign_runs w /\
     exists usage : list string,
       length usage = 4%nat /\
       console_log (main argv w).2 = console_log w ++ usage).
Proof.
  split.
  - intros e He. unfold main, io_bind, lift. now rewrite He.
  - intros parsed Hparse Hcmd. unfold main. rewrite Hparse.
    rewrite (io_bind_run (lift (Ok parsed)) _ w w parsed eq_refl). cbv zeta.
    rewrite !not_elem_of_cons in Hcmd. destruct Hcmd as (H1 & H2 & H3 & _).
    apply String.eqb_neq in H1, H2, H3. rewrite H1, H2, H3.
    unfold printUsage.
    repeat (rewrite (io_bind_run (log _) _ _ _ tt eq_refl);
            cbn [fs console_log console_warn codesign_runs clock]).
    unfold io_bind, log, throw.
    cbn [fst snd fs console_log console_warn codesign_runs clock].
    split; [reflexivity |]. split; [reflexivity |]. split; [reflexivity |].
    eexists. split; [| rewrite <- !app_assoc; reflexivity]. reflexivity.
Qed.

Lemma main_rejects_bad_command_line_witness :
  let w := Examples.app_world (Examples.app_asar Examples.bundle)
                              (list_byte_of_string "h0") in
  main (RT := Mini.runtime) ["node"; "codex-darcula-theme.js"; "patch"; "--force"] w
  = (Throw (Error "Unknown argument: --force"), w) /\
  (main (RT := Mini.runtime) ["node"; "codex-darcula-theme.js"; "unpatch"] w).1
  = Throw (Error "Unknown command: unpatch") /\
  fs (main (RT := Mini.runtime) ["node"; "codex-darcula-theme.js"; "unpatch"] w).2 = fs w.
Proof.
  intros w. split.
  - apply (main_rejects_bad_command_line (RT := Mini.runtime)
             ["node"; "codex-darcula-theme.js"; "patch"; "--force"] w).
    reflexivity.
  - destruct (main_rejects_bad_command_line (RT := Mini.runtime)
                ["node"; "codex-darcula-theme.js"; "unpatch"] w) as [_ H].
    destruct (H {| Args.command := "unpatch"; Args.appPath := "/Applications/Codex.app";
                   Args.codeSign := true |}) as (Hthrow & Hfs & _).
    + reflexivity.
    + cbn [Args.command]. intros Hin.
      repeat (apply elem_of_cons in Hin as [Hin | Hin]; [discriminate |]).
      now apply elem_of_nil in Hin.
    + split; [exact Hthrow | exact Hfs].
Defined.

(** ** The container that [buildAsar] writes *)

Section Written.
Context `{RT : Runtime}.

(** A field that was written is not changed by a write at another place. *)
Lemma readUInt32LE_write_other (buf buf' : Buffer) (value : Z) (offset other : nat) :
  writeUInt32LE buf value offset = Ok buf' ->
  (other + 4 <= offset \/ offset + 4 <= other)%nat ->
  readUInt32LE buf' other = readUInt32LE buf other.
Proof.
  intros Hw Hfar. unfold writeUInt32LE in Hw.
  destruct (_ && _)%bool; [|discriminate]. injection Hw as <-.
  unfold readUInt32LE.
  now rewrite !list_lookup_insert_ne by lia.
Qed.

Lemma readUInt32LE_app (buf rest : Buffer) (offset : nat) :
  Z.of_nat offset + 4 <= Buffer_length buf ->
  readUInt32LE (buf ++ rest) offset = readUInt32LE buf offset.
Proof.
  unfold Buffer_length, readUInt32LE. intros H.
  now rewrite !lookup_app_l by lia.
Qed.

(** The prelude of a container that [buildAsar] returns. *)
Lemma buildAsar_fields (header : json) (fileMap : gmap string Buffer) (asar : Buffer) :
  buildAsar header fileMap = Ok asar ->
  exists (rebuilt : json) (st : build_state),
    rebuildHeader header fileMap = Ok (rebuilt, st) /\
    let n := Buffer_length (utf8_encode (JSON_stringify rebuilt)) in
    readUInt32LE asar 0 = Ok 4 /\
    readUInt32LE asar 4 = Ok (n + 8) /\
    readUInt32LE asar 8 = Ok (n + 4) /\
    readUInt32LE asar 12 = Ok n /\
    Buffer_length asar = 16 + n + Buffer_length (concat (chunks st)).
Proof.
  unfold buildAsar.
  destruct (rebuildHeader header fileMap) as [[rebuilt st]|] eqn:Hre; [|discriminate].
  cbn [bind]. set (hdr := utf8_encode (JSON_stringify rebuilt)).
  destruct (writeUInt32LE (Buffer_alloc 16) 4 0) as [p1|] eqn:H1; [|discriminate].
  cbn [bind].
  destruct (writeUInt32LE p1 (Buffer_length hdr + 8) 4) as [p2|] eqn:H2; [|discriminate].
  cbn [bind].
  destruct (writeUInt32LE p2 (Buffer_length hdr + 4) 8) as [p3|] eqn:H3; [|discriminate].
  cbn [bind].
  destruct (writeUInt32LE p3 (Buffer_length hdr) 12) as [p4|] eqn:H4; [|discriminate].
  cbn [bind]. intros [= <-]. exists rebuilt, st.
  split; [reflexivity |]. cbv zeta. fold hdr.
  assert (L1 : length p1 = 16%nat)
    by (rewrite (writeUInt32LE_length _ _ _ _ H1); reflexivity).
  assert (L2 : length p2 = 16%nat) by (now rewrite (writeUInt32LE_length _ _ _ _ H2)).
  assert (L3 : length p3 = 16%nat) by (now rewrite (writeUInt32LE_length _ _ _ _ H3)).
  assert (L4 : length p4 = 16%nat) by (now rewrite (writeUInt32LE_length _ _ _ _ H4)).
  assert (R1 : readUInt32LE p1 0 = Ok 4).
  { rewrite <- (app_nil_r p1). now apply readUInt32LE_written with (buf := Buffer_alloc 16). }
  assert (R2 : readUInt32LE p2 4 = Ok (Buffer_length hdr + 8)).
  { rewrite <- (app_nil_r p2). now apply readUInt32LE_written with (buf := p1). }
  assert (R3 : readUInt32LE p3 8 = Ok (Buffer_length hdr + 4)).
  { rewrite <- (app_nil_r p3). now apply readUInt32LE_written with (buf := p2). }
  repeat split.
  - rewrite readUInt32LE_app by (unfold Buffer_length; lia).
    rewrite (readUInt32LE_write_other _ _ _ _ 0 H4) by lia.
    rewrite (readUInt32LE_write_other _ _ _ _ 0 H3) by lia.
    rewrite (readUInt32LE_write_other _ _ _ _ 0 H2) by lia. exact R1.
  - rewrite readUInt32LE_app by (unfold Buffer_length; lia).
    rewrite (readUInt32LE_write_other _ _ _ _ 4 H4) by lia.
    rewrite (readUInt32LE_write_other _ _ _ _ 4 H3) by lia. exact R2.
  - rewrite readUInt32LE_app by (unfold Buffer_length; lia).
    rewrite (readUInt32LE_write_other _ _ _ _ 8 H4) by lia. exact R3.
  - now apply readUInt32LE_written with (buf := p3).
  - unfold Buffer_length. rewrite !length_app. lia.
Qed.

End Written.

(** X12. Every container that [buildAsar] returns starts with the four
    little-endian fields 4, n + 8, n + 4 and n, where n is the number of
    bytes of the serialised header; the header follows, and then the bytes
    of the packed files, so that the container has 16 + n bytes and those
    of the files. *)
Theorem buildAsar_prelude `{RT : Runtime}
    (header : json) (fileMap : gmap string Buffer) (asar : Buffer) :
  buildAsar header fileMap = Ok asar ->
  exists (rebuilt : json) (st : build_state),
    rebuildHeader header fileMap = Ok (rebuilt, st) /\
    let headerJsonBuffer := utf8_encode (JSON_stringify rebuilt) in
    let n := Buffer_length headerJsonBuffer in
    readUInt32LE asar 0 = Ok 4 /\
    readUInt32LE asar 4 = Ok (n + 8) /\
    readUInt32LE asar 8 = Ok (n + 4) /\
    readUInt32LE asar 12 = Ok n /\
    Buffer_slice asar 16 (16 + n) = headerJsonBuffer /\
    drop (Z.to_nat (16 + n)) asar = concat (chunks st) /\
    Buffer_length asar = 16 + n + Buffer_length (concat (chunks st)).
Proof.
  intros Hbuild.
  destruct (buildAsar_fields _ _ _ Hbuild)
    as (rebuilt & st & Hre & F0 & F4 & F8 & F12 & Hlen).
  destruct (buildAsar_inv _ _ _ Hbuild)
    as (rebuilt' & st' & prelude & Hre' & Hp & Hasar & _).
  rewrite Hre in Hre'. injection Hre' as <- <-.
  exists rebuilt, st. split; [exact Hre |]. cbv zeta.
  split; [exact F0 |]. split; [exact F4 |]. split; [exact F8 |]. split; [exact F12 |].
  split; [| split; [| exact Hlen]].
  - rewrite Hasar. now apply slice_header.
  - rewrite Hasar. unfold Buffer_length.
    replace (Z.to_nat (16 + Z.of_nat (length (utf8_encode (JSON_stringify rebuilt)))))
      with (length prelude + length (utf8_encode (JSON_stringify rebuilt)))%nat by lia.
    rewrite <- drop_drop, drop_app_length. apply drop_app_length.
Qed.

Lemma buildAsar_prelude_witness :
  let asar := Examples.value_of []
                (buildAsar (RT := Mini.runtime) Examples.small_header
                           Examples.small_fileMap) in
  exists n : Z,
    readUInt32LE asar 0 = Ok 4 /\ readUInt32LE asar 4 = Ok (n + 8) /\
    readUInt32LE asar 8 = Ok (n + 4) /\ readUInt32LE asar 12 = Ok n.
Proof.
  intros asar.
  assert (Hbuild : buildAsar (RT := Mini.runtime) Examples.small_header
                             Examples.small_fileMap = Ok asar)
    by (vm_compute; reflexivity).
  destruct (buildAsar_prelude (RT := Mini.runtime) _ _ _ Hbuild)
    as (rebuilt & st & _ & F0 & F4 & F8 & F12 & _).
  eexists. split; [exact F0 |]. split; [exact F4 |]. split; [exact F8 | exact F12].
Defined.

(** X13. The header digest of a container that [buildAsar] returns is the
    digest of the serialised header and of nothing else: the bytes of the
    files do not enter it.  (A container of less than 20 bytes, which a
    header with no text to speak of and no file gives, has no digest:
    [getAsarHeaderHash] throws.) *)
Theorem getAsarHeaderHash_built `{RT : Runtime}
    (header : json) (fileMap : gmap string Buffer) (asar : Buffer) :
  buildAsar header fileMap = Ok asar ->
  exists (rebuilt : json) (st : build_state),
    rebuildHeader header fileMap = Ok (rebuilt, st) /\
    getAsarHeaderHash asar
    = if Buffer_length asar <? 20
      then Throw (Error "Invalid asar: too small")
      else Ok (sha256 (utf8_encode (JSON_stringify rebuilt))).
Proof.
  intros Hbuild.
  destruct (buildAsar_inv _ _ _ Hbuild)
    as (rebuilt & st & prelude & Hre & Hp & Hasar & Hread & _).
  exists rebuilt, st. split; [exact Hre |].
  unfold getAsarHeaderHash. destruct (Buffer_length asar <? 20); [reflexivity |].
  rewrite Hread. cbn [bind].
  destruct (Z.gtb_spec (16 + Buffer_length (utf8_encode (JSON_stringify rebuilt)))
              (Buffer_length asar)) as [Hgt|_].
  { rewrite Hasar in Hgt. unfold Buffer_length in Hgt. rewrite !length_app in Hgt. lia. }
  rewrite Hasar. now rewrite slice_header.
Qed.

Lemma getAsarHeaderHash_built_witness :
  let asar := Examples.value_of []
                (buildAsar (RT := Mini.runtime) Examples.small_header
                           Examples.small_fileMap) in
  exists rebuilt : json,
    getAsarHeaderHash (RT := Mini.runtime) asar
    = Ok (Mini.digest (list_byte_of_string (Mini.stringify rebuilt))).
Proof.
  intros asar.
  assert (Hbuild : buildAsar (RT := Mini.runtime) Examples.small_header
                             Examples.small_fileMap = Ok asar)
    by (vm_compute; reflexivity).
  destruct (getAsarHeaderHash_built (RT := Mini.runtime) _ _ _ Hbuild)
    as (rebuilt & st & _ & Hhash).
  exists rebuilt. rewrite Hhash.
  replace (Buffer_length asar <? 20) with false by (vm_compute; reflexivity).
  reflexivity.
Defined.

(** ** The number of blocks *)

Section Blocks.
Context `{RT : Runtime}.

Lemma blocks_of_count (fuel size : nat) :
  (0 < size)%nat ->
  forall bytes : Buffer,
    (length bytes <= fuel)%nat ->
    (length (blocks_of fuel size bytes) * size < length bytes + size /\
     length bytes <= length (blocks_of fuel size bytes) * size)%nat.
Proof.
  intros Hsize. induction fuel as [|fuel IH]; intros bytes Hlen.
  - destruct bytes; [cbn; lia | cbn in Hlen; lia].
  - destruct bytes as [|b bytes]; [cbn; lia |].
    cbn [blocks_of length].
    destruct (IH (drop size (b :: bytes))) as [H1 H2].
    { rewrite length_drop. cbn [length] in *. lia. }
    rewrite length_drop in H1, H2. cbn [length] in *.
    set (n := length (blocks_of fuel size (drop size (b :: bytes)))) in *.
    rewrite Nat.mul_succ_l.
    destruct (le_lt_dec size (S (length bytes))) as [Hle | Hlt]; [lia |].
    destruct n as [|n]; [lia |]. rewrite Nat.mul_succ_l in H1. lia.
Qed.

Lemma blocks_of_single (fuel size : nat) (bytes : Buffer) :
  bytes <> [] -> (length bytes <= size)%nat -> (0 < fuel)%nat ->
  blocks_of fuel size bytes = [bytes].
Proof.
  intros Hne Hlen Hfuel. destruct fuel as [|fuel]; [lia |].
  destruct bytes as [|b bytes]; [contradiction |].
  cbn [blocks_of]. rewrite take_ge, drop_ge by exact Hlen.
  now destruct fuel.
Qed.

End Blocks.

(** X14. The Integrity Record of a file lists one block digest for every
    4 MiB of the file, the incomplete last block counted: none for the
    empty file, and for a file of at most 4 MiB a single one, which is the
    digest of the whole file. *)
Theorem computeEntryIntegrity_blocks `{RT : Runtime} (fileBuffer : Buffer) :
  exists blocks : list string,
    computeEntryIntegrity fileBuffer = integrity_record (sha256 fileBuffer) blocks /\
    Z.of_nat (length blocks) * INTEGRITY_BLOCK_SIZE - INTEGRITY_BLOCK_SIZE
      < Buffer_length fileBuffer <= Z.of_nat (length blocks) * INTEGRITY_BLOCK_SIZE /\
    (fileBuffer = [] -> blocks = []) /\
    (fileBuffer <> [] -> Buffer_length fileBuffer <= INTEGRITY_BLOCK_SIZE ->
     blocks = [sha256 fileBuffer]).
Proof.
  exists (sha256 <$> consecutive_blocks (Z.to_nat INTEGRITY_BLOCK_SIZE) fileBuffer).
  split; [apply computeEntryIntegrity_expected |].
  unfold consecutive_blocks, Buffer_length.
  assert (HBS : Z.of_nat (Z.to_nat INTEGRITY_BLOCK_SIZE) = INTEGRITY_BLOCK_SIZE)
    by (apply Z2Nat.id; pose proof INTEGRITY_BLOCK_SIZE_pos; lia).
  assert (Hpos : (0 < Z.to_nat INTEGRITY_BLOCK_SIZE)%nat)
    by (pose proof INTEGRITY_BLOCK_SIZE_pos; lia).
  destruct (blocks_of_count (length fileBuffer) (Z.to_nat INTEGRITY_BLOCK_SIZE)
              Hpos fileBuffer (Nat.le_refl _)) as [H1 H2].
  rewrite length_fmap.
  set (size := Z.to_nat INTEGRITY_BLOCK_SIZE) in *. rewrite <- HBS. clearbody size.
  split; [| split].
  - set (n := length (blocks_of (length fileBuffer) size fileBuffer)) in *.
    rewrite <- Nat2Z.inj_mul. lia.
  - now intros ->.
  - intros Hne Hlen. rewrite blocks_of_single; [reflexivity | exact Hne | lia |].
    destruct fileBuffer; [contradiction | cbn; lia].
Qed.

(** ** What [extractFileMap] returns, and what it throws *)

Section Extracted.
Context `{RT : Runtime}.

Lemma elem_of_packed_paths (k : string) (ls : list (string * json)) :
  k ∈ packed_paths ls <-> exists entry, (k, entry) ∈ ls /\ is_unpacked entry = false.
Proof.
  unfold packed_paths. rewrite list_elem_of_fmap. split.
  - intros ([k' entry] & -> & Hin). apply list_elem_of_filter in Hin as [Hu Hin].
    now exists entry.
  - intros (entry & Hin & Hu). exists (k, entry). split; [reflexivity |].
    now apply list_elem_of_filter.
Qed.

(** The three outcomes of the callback of [extractFileMap]. *)
Lemma extract_visitor_cases (asarBuffer : Buffer) (dataOffset : Z) (relPath : string)
    (entry : json) (map : gmap string Buffer) :
  (entry = JNull /\
   extract_visitor asarBuffer dataOffset relPath entry map = Throw TypeError) \/
  (is_unpacked entry = true /\
   extract_visitor asarBuffer dataOffset relPath entry map = Ok map) \/
  (entry <> JNull /\ is_unpacked entry = false /\
   ((exists offset size : Z,
       Number (get entry "offset") = Some offset /\
       Number (get entry "size") = Some size /\
       0 <= dataOffset + offset /\
       dataOffset + offset + size <= Buffer_length asarBuffer /\
       extract_visitor asarBuffer dataOffset relPath entry map
       = Ok (<[relPath := Buffer_slice asarBuffer (dataOffset + offset)
                            (dataOffset + offset + size)]> map)) \/
    extract_visitor asarBuffer dataOffset relPath entry map
    = Throw (Error ("Invalid entry offsets for " +:+ relPath)))).
Proof.
  destruct (is_null entry) as [-> | Hnull]; [now left | right].
  destruct (is_unpacked entry) eqn:Hu; [left | right].
  { split; [reflexivity | now apply extract_visitor_unpacked]. }
  split; [exact Hnull |]. split; [reflexivity |].
  assert (Hrun :
            extract_visitor asarBuffer dataOffset relPath entry map
            = match Number (get entry "offset"), Number (get entry "size") with
              | Some offset, Some size =>
                  let start := dataOffset + offset in
                  let end_ := start + size in
                  if ((start <? 0) || (end_ >? Buffer_length asarBuffer))%bool
                  then Throw (Error ("Invalid entry offsets for " +:+ relPath))
                  else Ok (<[relPath := Buffer_slice asarBuffer start end_]> map)
              | _, _ => Throw (Error ("Invalid entry offsets for " +:+ relPath))
              end).
  { unfold extract_visitor, get_prop, is_unpacked in *.
    destruct entry; try contradiction; cbn [bind get]; try reflexivity.
    cbn [get] in Hu.
    destruct (assoc "unpacked" fields) as [[|[]| | | |]|]; try discriminate;
      reflexivity. }
  rewrite Hrun.
  destruct (Number (get entry "offset")) as [offset|]; [| now right].
  destruct (Number (get entry "size")) as [size|]; [| now right].
  cbv zeta.
  destruct (Z.ltb_spec (dataOffset + offset) 0); [now right |].
  destruct (Z.gtb_spec (dataOffset + offset + size) (Buffer_length asarBuffer));
    [now right |].
  left. exists offset, size. cbn [orb]. repeat split; auto; lia.
Qed.

(** Every value of the map is the slice that a packed leaf denotes, within
    the bounds that the callback checks. *)
Lemma extraction_values (asarBuffer : Buffer) (dataOffset : Z) :
  forall (ls : list (string * json)) (map0 map : gmap string Buffer),
    for_of (fun map leaf => extract_visitor asarBuffer dataOffset leaf.1 leaf.2 map)
           ls map0 = Ok map ->
    forall (k : string) (bytes : Buffer),
      map !! k = Some bytes ->
      map0 !! k = Some bytes \/
      exists (entry : json) (offset size : Z),
        (k, entry) ∈ ls /\ is_unpacked entry = false /\
        Number (get entry "offset") = Some offset /\
        Number (get entry "size") = Some size /\
        0 <= dataOffset + offset /\
        dataOffset + offset + size <= Buffer_length asarBuffer /\
        bytes = Buffer_slice asarBuffer (dataOffset + offset)
                             (dataOffset + offset + size).
Proof.
  induction ls as [|[rel entry] ls IH]; intros map0 map Hrun k bytes Hk.
  - injection Hrun as <-. now left.
  - cbn [for_of fst snd] in Hrun.
    destruct (extract_visitor_cases asarBuffer dataOffset rel entry map0)
      as [[_ E] | [[Hu E] | (Hnull & Hu & [(offset & size & Ho & Hs & H0 & H1 & E) | E])]];
      rewrite E in Hrun; cbn [bind] in Hrun; try discriminate.
    + destruct (IH _ _ Hrun k bytes Hk) as [H | (e & o & s & Hin & H)]; [now left |].
      right. exists e, o, s. split; [now right | exact H].
    + destruct (IH _ _ Hrun k bytes Hk) as [H | (e & o & s & Hin & H)].
      * destruct (decide (rel = k)) as [-> | Hne].
        -- rewrite lookup_insert_eq in H. injection H as <-.
           right. exists entry, offset, size. split; [now left |].
           repeat split; assumption || reflexivity.
        -- rewrite lookup_insert_ne in H by exact Hne. now left.
      * right. exists e, o, s. split; [now right | exact H].
Qed.

(** What the loop throws, it throws on a leaf. *)
Lemma extraction_error (asarBuffer : Buffer) (dataOffset : Z) :
  forall (ls : list (string * json)) (map0 : gmap string Buffer) (e : error),
    for_of (fun map leaf => extract_visitor asarBuffer dataOffset leaf.1 leaf.2 map)
           ls map0 = Throw e ->
    exists (relPath : string) (entry : json),
      (relPath, entry) ∈ ls /\
      ((entry = JNull /\ e = TypeError) \/
       (entry <> JNull /\ is_unpacked entry = false /\
        e = Error ("Invalid entry offsets for " +:+ relPath) /\
        forall offset size : Z,
          Number (get entry "offset") = Some offset ->
          Number (get entry "size") = Some size ->
          dataOffset + offset < 0 \/
          Buffer_length asarBuffer < dataOffset + offset + size)).
Proof.
  induction ls as [|[rel entry] ls IH]; intros map0 e Hrun; [discriminate |].
  cbn [for_of fst snd] in Hrun.
  destruct (extract_visitor asarBuffer dataOffset rel entry map0) as [map1|e1] eqn:E.
  - cbn [bind] in Hrun. destruct (IH _ _ Hrun) as (p & en & Hin & H).
    exists p, en. split; [now right | exact H].
  - cbn [bind] in Hrun. injection Hrun as <-. exists rel, entry. split; [now left |].
    destruct (extract_visitor_cases asarBuffer dataOffset rel entry map0)
      as [[-> E'] | [[Hu E'] | (Hnull & Hu & [(offset & size & Ho & Hs & H0 & H1 & E') | E'])]];
      rewrite E' in E; try discriminate.
    + injection E as <-. now left.
    + injection E as <-. right. split; [exact Hnull |]. split; [exact Hu |].
      split; [reflexivity |]. intros offset size Ho Hs.
      unfold extract_visitor, get_prop in E'.
      destruct entry; try contradiction; cbn [bind] in E';
        try (rewrite Ho, Hs in E'; cbv zeta in E';
             destruct (Z.ltb_spec (dataOffset + offset) 0); [now left |];
             destruct (Z.gtb_spec (dataOffset + offset + size)
                         (Buffer_length asarBuffer)); [right; lia | discriminate]).
      unfold is_unpacked in Hu. cbn [get] in *.
      destruct (assoc "unpacked" fields) as [[|[]| | | |]|]; try discriminate;
        rewrite Ho, Hs in E'; cbv zeta in E';
        (destruct (Z.ltb_spec (dataOffset + offset) 0); [now left |]);
        (destruct (Z.gtb_spec (dataOffset + offset + size)
                     (Buffer_length asarBuffer)); [right; lia | discriminate]).
Qed.

End Extracted.

(** X15. The map that [extractFileMap] returns has a key for every packed
    leaf of the header and for nothing else: an unpacked entry, a
    directory and a path that the header does not hold have none. *)
Theorem extractFileMap_keys `{RT : Runtime}
    (asarBuffer : Buffer) (header : json) (dataOffset : Z)
    (fileMap : gmap string Buffer) :
  extractFileMap asarBuffer header dataOffset = Ok fileMap ->
  forall relPath : string,
    is_Some (fileMap !! relPath)
    <-> exists entry : json,
          (relPath, entry) ∈ all_leaves header "" /\ is_unpacked entry = false.
Proof.
  rewrite extractFileMap_leaves. intros Hrun relPath.
  destruct (extraction_facts _ _ _ _ _ Hrun) as (Hleaves & Hdom & _).
  rewrite <- elem_of_packed_paths. split.
  - intros Hk. destruct (Hdom relPath Hk) as [[? Habs] | Hin]; [| exact Hin].
    now rewrite lookup_empty in Habs.
  - intros Hin. apply elem_of_packed_paths in Hin as (entry & Hin & Hu).
    destruct (Hleaves _ Hin) as [_ [Hu' | Hk]]; [cbn in Hu'; congruence | exact Hk].
Qed.

Lemma extractFileMap_keys_witness :
  is_Some (Examples.small_fileMap !! "lib/b.txt") /\
  ~ is_Some (Examples.small_fileMap !! "n.node").
Proof.
  assert (Hrun : extractFileMap (RT := Mini.runtime) Examples.small_asar
                   Examples.small_header 145 = Ok Examples.small_fileMap)
    by (vm_compute; reflexivity).
  pose proof (extractFileMap_keys (RT := Mini.runtime) _ _ _ _ Hrun) as Hkeys.
  split.
  - apply Hkeys. exists (Examples.file_entry "0" 3). split; [| reflexivity].
    vm_compute. right. left.
  - intros [bytes Hb]. vm_compute in Hb. discriminate.
Defined.

(** X16. Every value of the map that [extractFileMap] returns is the slice
    of the buffer that a packed leaf with that path denotes by its offset
    and its size, counted from the end of the header; the slice starts at
    or after the start of the buffer and ends at or before its end, and it
    has [size] bytes when [size] is not negative. *)
Theorem extractFileMap_values `{RT : Runtime}
    (asarBuffer : Buffer) (header : json) (dataOffset : Z)
    (fileMap : gmap string Buffer) (relPath : string) (bytes : Buffer) :
  extractFileMap asarBuffer header dataOffset = Ok fileMap ->
  fileMap !! relPath = Some bytes ->
  exists (entry : json) (offset size : Z),
    (relPath, entry) ∈ all_leaves header "" /\
    is_unpacked entry = false /\
    Number (get entry "offset") = Some offset /\
    Number (get entry "size") = Some size /\
    0 <= dataOffset + offset /\
    dataOffset + offset + size <= Buffer_length asarBuffer /\
    bytes = Buffer_slice asarBuffer (dataOffset + offset) (dataOffset + offset + size) /\
    (0 <= size ->
     Buffer_length bytes = size /\
     bytes = take (Z.to_nat size) (drop (Z.to_nat (dataOffset + offset)) asarBuffer)).
Proof.
  rewrite extractFileMap_leaves. intros Hrun Hk.
  destruct (extraction_values _ _ _ _ _ Hrun _ _ Hk)
    as [Habs | (entry & offset & size & Hin & Hu & Ho & Hs & H0 & H1 & ->)].
  { now rewrite lookup_empty in Habs. }
  exists entry, offset, size. repeat (split; [assumption |]).
  split; [reflexivity |]. intros Hsize.
  destruct (Buffer_slice_inside asarBuffer (dataOffset + offset)
              (dataOffset + offset + size)) as [Hslice Hlen]; [lia | lia |].
  replace (dataOffset + offset + size - (dataOffset + offset)) with size in * by lia.
  split; [exact Hlen | exact Hslice].
Qed.

Lemma extractFileMap_values_witness :
  exists (entry : json) (offset size : Z),
    ("a.txt", entry) ∈ all_leaves Examples.small_header "" /\
    Number (RT := Mini.runtime) (get entry "offset") = Some offset /\
    list_byte_of_string "de"
    = Buffer_slice Examples.small_asar (145 + offset) (145 + offset + size).
Proof.
  destruct (extractFileMap_values (RT := Mini.runtime) Examples.small_asar
              Examples.small_header 145 Examples.small_fileMap "a.txt"
              (list_byte_of_string "de"))
    as (entry & offset & size & Hin & _ & Ho & _ & _ & _ & Hb & _).
  - vm_compute; reflexivity.
  - vm_compute; reflexivity.
  - exists entry, offset, size. auto.
Defined.

(** X17. When [extractFileMap] throws, it throws on a leaf of the header: a
    TypeError on a leaf that is [null], and otherwise "Invalid entry
    offsets for" with the path of a packed leaf whose offset or size is not
    a finite number or whose bytes would start before the buffer or end
    after it. *)
Theorem extractFileMap_error `{RT : Runtime}
    (asarBuffer : Buffer) (header : json) (dataOffset : Z) (e : error) :
  extractFileMap asarBuffer header dataOffset = Throw e ->
  exists (relPath : string) (entry : json),
    (relPath, entry) ∈ all_leaves header "" /\
    ((entry = JNull /\ e = TypeError) \/
     (entry <> JNull /\ is_unpacked entry = false /\
      e = Error ("Invalid entry offsets for " +:+ relPath) /\
      forall offset size : Z,
        Number (get entry "offset") = Some offset ->
        Number (get entry "size") = Some size ->
        dataOffset + offset < 0 \/
        Buffer_length asarBuffer < dataOffset + offset + size)).
Proof.
  rewrite extractFileMap_leaves. apply extraction_error.
Qed.

Lemma extractFileMap_error_witness :
  let header := Examples.directory
                  [("a.txt", Examples.file_entry "0" 2);
                   ("b.txt", Examples.file_entry "2" 4)] in
  let asar := Examples.container (Mini.stringify header) "abcde" in
  extractFileMap (RT := Mini.runtime) asar header (Buffer_length asar - 5)
  = Throw (Error "Invalid entry offsets for b.txt") /\
  exists (relPath : string) (entry : json),
    (relPath, entry) ∈ all_leaves header "" /\
    ((entry = JNull /\ Error "Invalid entry offsets for b.txt" = TypeError) \/
     (entry <> JNull /\ is_unpacked entry = false /\
      Error "Invalid entry offsets for b.txt"
      = Error ("Invalid entry offsets for " +:+ relPath) /\
      forall offset size : Z,
        Number (RT := Mini.runtime) (get entry "offset") = Some offset ->
        Number (RT := Mini.runtime) (get entry "size") = Some size ->
        Buffer_length asar - 5 + offset < 0 \/
        Buffer_length asar < Buffer_length asar - 5 + offset + size)).
Proof.
  intros header asar.
  assert (Hrun : extractFileMap (RT := Mini.runtime) asar header (Buffer_length asar - 5)
                 = Throw (Error "Invalid entry offsets for b.txt"))
    by (vm_compute; reflexivity).
  split; [exact Hrun |].
  exact (extractFileMap_error (RT := Mini.runtime) _ _ _ _ Hrun).
Defined.

(** ** Bytes after the container *)

Section Trailing.
Context `{RT : Runtime}.

Lemma Buffer_slice_app (buf rest : Buffer) (start end_ : Z) :
  0 <= start <= end_ -> end_ <= Buffer_length buf ->
  Buffer_slice (buf ++ rest) start end_ = Buffer_slice buf start end_.
Proof.
  intros Hs He.
  destruct (Buffer_slice_inside buf start end_ Hs He) as [-> _].
  destruct (Buffer_slice_inside (buf ++ rest) start end_ Hs) as [-> _].
  { unfold Buffer_length in *. rewrite length_app. lia. }
  unfold Buffer_length in *.
  rewrite drop_app_le by lia. rewrite take_app_le; [reflexivity |].
  rewrite length_drop. lia.
Qed.

End Trailing.

(** X18. Bytes that follow a container are not seen: a buffer that
    [parseAsar] accepts is parsed to the same header, with the same offset
    of the data, when bytes are added at its end, and its header digest is
    the same. *)
Theorem trailing_bytes_ignored `{RT : Runtime}
    (buffer more : Buffer) (parsed : parsed_asar) :
  parseAsar buffer = Ok parsed ->
  parseAsar (buffer ++ more) = Ok parsed /\
  getAsarHeaderHash (buffer ++ more) = getAsarHeaderHash buffer /\
  exists hash : string, getAsarHeaderHash buffer = Ok hash.
Proof.
  unfold parseAsar, getAsarHeaderHash.
  assert (Hlen : Buffer_length (buffer ++ more)
                 = Buffer_length buffer + Buffer_length more)
    by (unfold Buffer_length; rewrite length_app; lia).
  assert (Hmore : 0 <= Buffer_length more) by (unfold Buffer_length; lia).
  destruct (Z.ltb_spec (Buffer_length buffer) 20) as [|H20]; [discriminate |].
  destruct (Z.ltb_spec (Buffer_length (buffer ++ more)) 20); [lia |].
  rewrite readUInt32LE_app by lia.
  destruct (readUInt32LE buffer 12) as [n|] eqn:Hn; [| discriminate]. cbn [bind].
  pose proof (readUInt32LE_range _ _ _ Hn) as Hrange.
  destruct (Z.gtb_spec (16 + n) (Buffer_length buffer)) as [|Hend]; [discriminate |].
  destruct (Z.gtb_spec (16 + n) (Buffer_length (buffer ++ more))); [lia |].
  rewrite Buffer_slice_app by lia.
  intros Hparse. split; [exact Hparse |]. split; [reflexivity | eauto].
Qed.

Lemma trailing_bytes_ignored_witness :
  exists parsed : parsed_asar,
    parseAsar (RT := Mini.runtime) (Examples.small_asar ++ list_byte_of_string "junk")
    = Ok parsed /\
    dataOffset parsed = 145 /\
    getAsarHeaderHash (RT := Mini.runtime)
      (Examples.small_asar ++ list_byte_of_string "junk")
    = getAsarHeaderHash (RT := Mini.runtime) Examples.small_asar.
Proof.
  destruct (parseAsar (RT := Mini.runtime) Examples.small_asar) as [parsed|e] eqn:Hparse;
    [| vm_compute in Hparse; discriminate].
  destruct (trailing_bytes_ignored (RT := Mini.runtime) Examples.small_asar
              (list_byte_of_string "junk") parsed Hparse) as (H1 & H2 & _).
  exists parsed. split; [exact H1 |]. split; [| exact H2].
  vm_compute in Hparse. injection Hparse as <-. reflexivity.
Defined.

(** ** When [buildAsar] returns, and what it throws *)

Section Rebuilt.
Context `{RT : Runtime}.
Variable fileMap : gmap string Buffer.

Lemma rebuild_leaf_outcome (relPath : string) (entry : json) (st : build_state) :
  match rebuild_leaf fileMap relPath entry st with
  | Ok _ => leaf_ready fileMap (relPath, entry)
  | Throw e => thrown_on fileMap e [(relPath, entry)]
  end.
Proof.
  destruct (is_null entry) as [-> | Hnull].
  { cbn. exists relPath, JNull. split; [now left | now left]. }
  destruct (is_unpacked entry) eqn:Hu.
  { destruct (rebuild_leaf_total fileMap relPath entry st Hnull (or_introl Hu))
      as (rebuilt & st' & ->).
    split; [exact Hnull | now left]. }
  destruct (fileMap !! relPath) as [buf|] eqn:Hb.
  { destruct (rebuild_leaf_total fileMap relPath entry st Hnull)
      as (rebuilt & st' & ->); [right; rewrite Hb; eauto |].
    split; [exact Hnull |]. right. cbn [fst]. rewrite Hb. eauto. }
  assert (E : rebuild_leaf fileMap relPath entry st
              = Throw (Error ("Missing data for file: " +:+ relPath))).
  { unfold rebuild_leaf, get_prop, is_unpacked in *.
    destruct entry; try contradiction; cbn [bind get] in *; rewrite ?Hb; try reflexivity.
    destruct (assoc "unpacked" fields) as [[|[]| | | |]|]; try discriminate;
      rewrite ?Hb; reflexivity. }
  rewrite E. exists relPath, entry. split; [now left |]. right. auto.
Qed.

Lemma rebuild_entry_throw
    (rebuild : json -> string -> build_state -> result (json * build_state))
    (prefix name : string) (entry : json) (e : error)
    (acc : list (string * json)) (st : build_state) :
  (if is_directory entry then rebuild entry (join_path prefix name) st
   else rebuild_leaf fileMap (join_path prefix name) entry st) = Throw e ->
  rebuild_entry rebuild fileMap prefix (acc, st) (name, entry) = Throw e.
Proof. unfold rebuild_entry. now intros ->. Qed.

Lemma thrown_on_app_l (e : error) (l1 l2 : list (string * json)) :
  thrown_on fileMap e l1 -> thrown_on fileMap e (l1 ++ l2).
Proof.
  intros (p & entry & Hin & H). exists p, entry. split; [| exact H].
  apply elem_of_app. now left.
Qed.

Lemma thrown_on_app_r (e : error) (l1 l2 : list (string * json)) :
  thrown_on fileMap e l2 -> thrown_on fileMap e (l1 ++ l2).
Proof.
  intros (p & entry & Hin & H). exists p, entry. split; [| exact H].
  apply elem_of_app. now right.
Qed.

(** [rebuildNode] returns exactly when the node is not [null] and every
    leaf is ready; it throws on the first leaf that is not. *)
Lemma rebuildNode_outcome (fuel : nat) :
  forall (node : json) (prefix : string) (st : build_state),
    (json_depth node < fuel)%nat ->
    match rebuildNode fuel fileMap node prefix st with
    | Ok _ => node <> JNull /\ Forall (leaf_ready fileMap) (all_leaves node prefix)
    | Throw e => (node = JNull /\ e = TypeError) \/ thrown_on fileMap e (all_leaves node prefix)
    end.
Proof.
  induction fuel as [|fuel IH]; intros node prefix st Hdepth; [lia |].
  destruct (is_null node) as [-> | Hnull]; [left; split; reflexivity |].
  rewrite rebuildNode_step by exact Hnull.
  rewrite all_leaves_entries.
  destruct (is_directory node) eqn:Hd.
  2: { rewrite files_of_leaf by exact Hd. split; [exact Hnull | constructor]. }
  assert (Hentries : forall name entry,
             (name, entry) ∈ Object_entries (files_of node) ->
             is_directory entry = true -> (json_depth entry < fuel)%nat).
  { intros name entry Hin He.
    pose proof (json_depth_directory_entry _ _ _ Hin He). lia. }
  assert (Hloop : forall entries acc st,
             (forall name entry, (name, entry) ∈ entries ->
                                 is_directory entry = true ->
                                 (json_depth entry < fuel)%nat) ->
             match for_of (rebuild_entry (rebuildNode fuel fileMap) fileMap prefix)
                          entries (acc, st) with
             | Ok _ => Forall (leaf_ready fileMap) (flat_map (entry_leaves prefix) entries)
             | Throw e => thrown_on fileMap e (flat_map (entry_leaves prefix) entries)
             end).
  { clear st Hentries.
    induction entries as [|[name entry] entries IHe]; intros acc st Hdepths;
      [cbn; constructor |].
    cbn [for_of flat_map]. unfold entry_leaves at 1 3. cbn [fst snd].
    assert (Hrest : forall n e, (n, e) ∈ entries -> is_directory e = true ->
                                (json_depth e < fuel)%nat)
      by (intros n e Hin; apply (Hdepths n e); now right).
    destruct (is_directory entry) eqn:He.
    - specialize (IH entry (join_path prefix name) st
                     (Hdepths name entry ltac:(now left) He)).
      destruct (rebuildNode fuel fileMap entry (join_path prefix name) st)
        as [[rebuilt st1]|e] eqn:E.
      + rewrite (rebuild_entry_ok fileMap _ prefix name entry rebuilt acc st st1)
          by (now rewrite He).
        cbn [bind]. specialize (IHe (obj_set acc name rebuilt) st1 Hrest).
        destruct (for_of _ entries _) as [r|e].
        * apply Forall_app. split; [apply IH | exact IHe].
        * now apply thrown_on_app_r.
      + rewrite (rebuild_entry_throw _ prefix name entry e acc st)
          by (now rewrite He).
        cbn [bind]. apply thrown_on_app_l.
        destruct IH as [[-> _] | IH]; [discriminate | exact IH].
    - pose proof (rebuild_leaf_outcome (join_path prefix name) entry st) as Hleaf.
      destruct (rebuild_leaf fileMap (join_path prefix name) entry st)
        as [[rebuilt st1]|e] eqn:E.
      + rewrite (rebuild_entry_ok fileMap _ prefix name entry rebuilt acc st st1)
          by (now rewrite He).
        cbn [bind]. specialize (IHe (obj_set acc name rebuilt) st1 Hrest).
        destruct (for_of _ entries _) as [r|e].
        * apply Forall_app. split; [now constructor | exact IHe].
        * now apply thrown_on_app_r.
      + rewrite (rebuild_entry_throw _ prefix name entry e acc st)
          by (now rewrite He).
        cbn [bind]. now apply thrown_on_app_l. }
  specialize (Hloop (Object_entries (files_of node)) [] st Hentries).
  destruct (for_of _ _ _) as [[out_files st']|e]; cbn [bind].
  - split; [exact Hnull | exact Hloop].
  - now right.
Qed.

End Rebuilt.

(** X19. [buildAsar] gets as far as writing the prelude exactly when the
    header is not [null], no leaf of it is [null], and the map holds the
    bytes of every packed leaf: it then returns, unless the serialised
    header is too long for the 32-bit fields, in which case it throws a
    RangeError. *)
Theorem buildAsar_returns `{RT : Runtime}
    (header : json) (fileMap : gmap string Buffer) :
  ((exists asar, buildAsar header fileMap = Ok asar)
   \/ buildAsar header fileMap = Throw RangeError)
  <-> (header <> JNull /\
       forall (relPath : string) (entry : json),
         (relPath, entry) ∈ all_leaves header "" ->
         entry <> JNull /\
         (is_unpacked entry = true \/ is_Some (fileMap !! relPath))).
Proof.
  pose proof (rebuildNode_outcome fileMap (S (json_depth header)) header ""
                {| chunks := []; runningOffset := 0 |} ltac:(lia)) as Hout.
  fold (rebuildHeader header fileMap) in Hout.
  split.
  - intros Hrun.
    destruct (rebuildHeader header fileMap) as [[rebuilt st]|e] eqn:Hre.
    + destruct Hout as [Hnull Hall]. split; [exact Hnull |].
      intros relPath entry Hin. rewrite Forall_forall in Hall.
      exact (Hall _ Hin).
    + unfold buildAsar in Hrun. rewrite Hre in Hrun. cbn [bind] in Hrun.
      destruct Hrun as [[asar Hrun] | Hrun]; [discriminate |].
      injection Hrun as ->.
      destruct Hout as [[_ Habs] | (p & entry & _ & [[_ Habs] | (_ & _ & _ & Habs)])];
        discriminate.
  - intros [Hnull Hall].
    destruct (rebuildNode_total fileMap (S (json_depth header)) header ""
                {| chunks := []; runningOffset := 0 |} Hnull ltac:(lia))
      as (rebuilt & st & Hre).
    { intros [relPath entry] Hin. exact (Hall relPath entry Hin). }
    fold (rebuildHeader header fileMap) in Hre.
    destruct (Z_lt_le_dec (Buffer_length (utf8_encode (JSON_stringify rebuilt)) + 8)
                (2 ^ 32)) as [Hfits | Hlong].
    + left. exact (buildAsar_total _ _ _ _ Hre Hfits).
    + right. exact (buildAsar_header_too_long _ _ _ _ Hre Hlong).
Qed.

Lemma buildAsar_returns_witness :
  (exists asar : Buffer,
     buildAsar (RT := Mini.runtime) Examples.small_header Examples.small_fileMap
     = Ok asar) /\
  forall (relPath : string) (entry : json),
    (relPath, entry) ∈ all_leaves Examples.small_header "" ->
    entry <> JNull /\
    (is_unpacked entry = true \/ is_Some (Examples.small_fileMap !! relPath)).
Proof.
  assert (Hrun : exists asar : Buffer,
             buildAsar (RT := Mini.runtime) Examples.small_header Examples.small_fileMap
             = Ok asar) by (eexists; vm_compute; reflexivity).
  split; [exact Hrun |].
  apply (buildAsar_returns (RT := Mini.runtime) Examples.small_header
           Examples.small_fileMap).
  now left.
Defined.

(** X20. What [buildAsar] throws: a TypeError when the header or a leaf of
    it is [null]; "Missing data for file" with the path of a packed leaf
    for which the map has no bytes; a RangeError when the serialised
    header is too long for the fields of the prelude; and nothing else. *)
Theorem buildAsar_error `{RT : Runtime}
    (header : json) (fileMap : gmap string Buffer) (e : error) :
  buildAsar header fileMap = Throw e ->
  (e = TypeError /\
   (header = JNull \/ exists relPath, (relPath, JNull) ∈ all_leaves header "")) \/
  (exists (relPath : string) (entry : json),
     (relPath, entry) ∈ all_leaves header "" /\ is_unpacked entry = false /\
     fileMap !! relPath = None /\
     e = Error ("Missing data for file: " +:+ relPath)) \/
  (e = RangeError /\
   exists (rebuilt : json) (st : build_state),
     rebuildHeader header fileMap = Ok (rebuilt, st) /\
     2 ^ 32 <= Buffer_length (utf8_encode (JSON_stringify rebuilt)) + 8).
Proof.
  pose proof (rebuildNode_outcome fileMap (S (json_depth header)) header ""
                {| chunks := []; runningOffset := 0 |} ltac:(lia)) as Hout.
  fold (rebuildHeader header fileMap) in Hout.
  intros Hrun.
  destruct (rebuildHeader header fileMap) as [[rebuilt st]|e'] eqn:Hre.
  - right. right.
    destruct (Z_lt_le_dec (Buffer_length (utf8_encode (JSON_stringify rebuilt)) + 8)
                (2 ^ 32)) as [Hfits | Hlong].
    + destruct (buildAsar_total _ _ _ _ Hre Hfits) as [asar Hok]. congruence.
    + rewrite (buildAsar_header_too_long _ _ _ _ Hre Hlong) in Hrun.
      injection Hrun as <-. split; [reflexivity |]. now exists rebuilt, st.
  - unfold buildAsar in Hrun. rewrite Hre in Hrun. cbn [bind] in Hrun.
    injection Hrun as ->.
    destruct Hout as [[-> ->] | (p & entry & Hin & [[-> ->] | (Hnull & Hu & Hb & ->)])].
    + left. split; [reflexivity | now left].
    + left. split; [reflexivity |]. right. now exists p.
    + right. left. now exists p, entry.
Qed.

Lemma buildAsar_error_witness :
  let fileMap : gmap string Buffer := <["a.txt" := list_byte_of_string "de"]> ∅ in
  buildAsar (RT := Mini.runtime) Examples.small_header fileMap
  = Throw (Error "Missing data for file: lib/b.txt") /\
  exists (relPath : string) (entry : json),
    (relPath, entry) ∈ all_leaves Examples.small_header "" /\
    is_unpacked entry = false /\ fileMap !! relPath = None /\
    Error "Missing data for file: lib/b.txt"
    = Error ("Missing data for file: " +:+ relPath).
Proof.
  intros fileMap.
  assert (Hrun : buildAsar (RT := Mini.runtime) Examples.small_header fileMap
                 = Throw (Error "Missing data for file: lib/b.txt"))
    by (vm_compute; reflexivity).
  split; [exact Hrun |].
  destruct (buildAsar_error (RT := Mini.runtime) _ _ _ Hrun)
    as [[Habs _] | [H | [Habs _]]]; [discriminate | exact H | discriminate].
Defined.

(** ** The patch command, run *)

Section PatchRuns.
Context `{RT : Runtime}.

Lemma setInfoPlistAsarHash_ok (p h : string) (w : world) (c : Buffer) :
  fs w !! p = Some c ->
  status (PlistBuddy_Set h c).1 = 0 ->
  setInfoPlistAsarHash p h w = (Ok tt, set_fs (insert p (PlistBuddy_Set h c).2) w).
Proof.
  intros Hc Hs. unfold setInfoPlistAsarHash, io_bind, readFileSync. rewrite Hc.
  destruct (PlistBuddy_Set h c) as [r c']. cbn [fst snd] in *.
  unfold writeFileSync. now rewrite Hs.
Qed.

Lemma ensureBackup_clock (paths : Paths) (buf : Buffer) (w : world) :
  clock (ensureBackup paths buf w).2 = clock w.
Proof.
  unfold ensureBackup, io_bind, existsSync, copyFileSync, readFileSync,
    writeFileSync, log, set_fs, io_bind.
  repeat (match goal with
          | |- context [bool_decide ?P] => destruct (bool_decide P)
          | |- context [match ?m !! ?k with Some _ => _ | None => _ end] =>
              destruct (m !! k)
          end;
          cbn [negb fs console_log console_warn codesign_runs clock fst snd]);
    auto.
Qed.

(** The command up to the backups, on an application that has its manifest
    and its container. *)
Lemma ensureBackup_run (paths : Paths) (buf plist : Buffer) (w : world) :
  NoDup (files paths) ->
  fs w !! infoPlistPath paths = Some plist ->
  ensureBackup paths buf w = (Ok tt, (ensureBackup paths buf w).2).
Proof.
  intros Hd Hp. destruct (ensureBackup_result paths buf plist w Hd Hp) as [Hok _].
  rewrite (surjective_pairing (ensureBackup paths buf w)) at 1. now rewrite Hok.
Qed.

Lemma ensureBackup_manifest (paths : Paths) (buf plist : Buffer) (w : world) :
  NoDup (files paths) ->
  fs w !! infoPlistPath paths = Some plist ->
  fs (ensureBackup paths buf w).2 !! infoPlistPath paths = Some plist.
Proof.
  intros Hd Hp. rewrite ensureBackup_other; [exact Hp | |].
  - apply (files_differ paths 0 3); [exact Hd | reflexivity | reflexivity | discriminate].
  - apply (files_differ paths 0 1); [exact Hd | reflexivity | reflexivity | discriminate].
Qed.

End PatchRuns.

(** The first four steps of [commandPatch], taken. *)
Ltac patch_start Hd Hp Ha :=
  unfold commandPatch;
  rewrite (io_bind_run _ _ _ _ tt (ensureExists_ok _ _ _ _ Hp));
  rewrite (io_bind_run _ _ _ _ tt (ensureExists_ok _ _ _ _ Ha));
  rewrite (io_bind_run _ _ _ _ _ (readFileSync_ok _ _ _ Ha));
  rewrite (io_bind_run _ _ _ _ tt (ensureBackup_run _ _ _ _ Hd Hp)).

Section PatchRuns2.
Context `{RT : Runtime}.

Lemma commandPatch_rewrite_run (paths : Paths) (codeSign : bool) (w : world)
    (asar plist : Buffer) (loaded : loaded_bundle) (patch : patch_result)
    (rebuiltAsar : Buffer) (originalHash rebuiltHash : string) :
  NoDup (files paths) ->
  fs w !! infoPlistPath paths = Some plist ->
  fs w !! asarPath paths = Some asar ->
  getAsarHeaderHash asar = Ok originalHash ->
  status (PlistBuddy_Print plist) = 0 ->
  loadBundleSourceFromAsar asar = Ok loaded ->
  patchBundleSource (bundleSource loaded) = Ok patch ->
  alreadyPatched patch = false ->
  buildAsar (loaded_header loaded)
    (<[TARGET_BUNDLE_PATH := utf8_encode (sourceText patch)]> (loaded_fileMap loaded))
  = Ok rebuiltAsar ->
  getAsarHeaderHash rebuiltAsar = Ok rebuiltHash ->
  status (PlistBuddy_Set rebuiltHash plist).1 = 0 ->
  let wb := (ensureBackup paths asar w).2 in
  commandPatch paths codeSign w
  = (if codeSign then tryCodeSign (appPath paths) else ret tt)
      {| fs := <[metaPath paths :=
                   utf8_encode
                     (JSON_stringify_indented
                        (meta_payload paths (clock w)
                           (trim (spawn_stdout (PlistBuddy_Print plist)))
                           originalHash rebuiltHash))]>
                 (<[infoPlistPath paths := (PlistBuddy_Set rebuiltHash plist).2]>
                    (<[asarPath paths := rebuiltAsar]>
                       (delete (tempPath paths) (fs wb))));
         console_log := console_log wb
                        ++ ["Darcula patch applied.";
                            "old sha256: " +:+ originalHash;
                            "new sha256: " +:+ rebuiltHash];
         console_warn := console_warn wb;
         codesign_runs := codesign_runs wb;
         clock := clock wb |}.
Proof.
  intros Hd Hp Ha Hh Hprint Hload Hpatch Hfresh Hbuild Hrh Hset wb.
  patch_start Hd Hp Ha. fold wb.
  pose proof (ensureBackup_manifest paths asar plist w Hd Hp) as Hpb. fold wb in Hpb.
  rewrite Hh. rewrite (io_bind_run (lift (Ok originalHash)) _ wb wb _ eq_refl).
  rewrite (io_bind_run _ _ wb wb _ (getInfoPlistAsarHash_ok _ wb plist Hpb Hprint)).
  rewrite Hload. rewrite (io_bind_run (lift (Ok loaded)) _ wb wb _ eq_refl).
  rewrite Hpatch. rewrite (io_bind_run (lift (Ok patch)) _ wb wb _ eq_refl).
  rewrite Hfresh. cbv zeta.
  rewrite Hbuild. rewrite (io_bind_run (lift (Ok rebuiltAsar)) _ wb wb _ eq_refl).
  rewrite Hrh. rewrite (io_bind_run (lift (Ok rebuiltHash)) _ wb wb _ eq_refl).
  rewrite (io_bind_run (writeFileSync (tempPath paths) rebuiltAsar) _ wb _ tt eq_refl).
  rewrite (io_bind_run _ _ _ _ tt
             (renameSync_ok _ _ _ rebuiltAsar (lookup_insert_eq _ _ _))).
  unfold set_fs at 1 2. cbn [fs console_log console_warn codesign_runs clock].
  rewrite delete_insert_eq.
  erewrite (io_bind_run (setInfoPlistAsarHash _ _) _ _ _ tt);
    [| apply (setInfoPlistAsarHash_ok _ _ _ plist); [| exact Hset]; cbn [fs];
       rewrite lookup_insert_ne, lookup_delete_ne;
       [exact Hpb
       | apply (files_differ paths 5 0); [exact Hd | reflexivity | reflexivity | discriminate]
       | apply (files_differ paths 2 0); [exact Hd | reflexivity | reflexivity | discriminate]]].
  unfold set_fs at 1. cbn [fs console_log console_warn codesign_runs clock].
  rewrite (io_bind_run (fun w0 => (Ok (clock w0), w0)) _ _ _ _ eq_refl).
  cbn [clock].
  unfold writeMeta.
  rewrite (io_bind_run (writeFileSync _ _) _ _ _ tt eq_refl).
  unfold set_fs at 1. cbn [fs console_log console_warn codesign_runs clock].
  repeat (rewrite (io_bind_run (log _) _ _ _ tt eq_refl);
          cbn [fs console_log console_warn codesign_runs clock]).
  unfold wb at 1. rewrite ensureBackup_clock. fold wb.
  rewrite <- !app_assoc. reflexivity.
Qed.

End PatchRuns2.

Section PatchOutcomes.
Context `{RT : Runtime}.

Lemma tryCodeSign_run (a : string) (w : world) :
  (tryCodeSign a w).1 = Ok tt /\
  fs (tryCodeSign a w).2 = fs w /\
  codesign_runs (tryCodeSign a w).2 = codesign_runs w ++ [a].
Proof.
  unfold tryCodeSign, io_bind, warn, log. now destruct (negb _).
Qed.

(** The last step of the commands: signing, or nothing. *)
Lemma signing_run (codeSign : bool) (a : string) (w : world) :
  ((if codeSign then tryCodeSign a else ret tt) w).1 = Ok tt /\
  fs ((if codeSign then tryCodeSign a else ret tt) w).2 = fs w /\
  codesign_runs ((if codeSign then tryCodeSign a else ret tt) w).2
  = codesign_runs w ++ (if codeSign then [a] else []).
Proof.
  destruct codeSign; [apply tryCodeSign_run |].
  cbn. now rewrite app_nil_r.
Qed.


End PatchOutcomes.

(** X21. The patch command returns whenever each of its steps can: on an
    application whose manifest is read, whose container is loaded and
    carries no marker, whose bundle is patched and whose container is
    rebuilt, and whose manifest is set.  It leaves the rebuilt container in
    place of the old one, the digest of its header in the manifest, no
    temporary file, a meta file that records the old and the new digests,
    and the two backups: those that were there, or else the old container
    and the old manifest.  It signs once if asked to, and not otherwise. *)
Theorem commandPatch_applies `{RT : Runtime}
    (paths : Paths) (codeSign : bool) (w : world)
    (asar plist : Buffer) (loaded : loaded_bundle) (patch : patch_result)
    (rebuiltAsar : Buffer) (originalHash rebuiltHash : string) :
  NoDup (files paths) ->
  fs w !! infoPlistPath paths = Some plist ->
  fs w !! asarPath paths = Some asar ->
  getAsarHeaderHash asar = Ok originalHash ->
  status (PlistBuddy_Print plist) = 0 ->
  loadBundleSourceFromAsar asar = Ok loaded ->
  patchBundleSource (bundleSource loaded) = Ok patch ->
  alreadyPatched patch = false ->
  buildAsar (loaded_header loaded)
    (<[TARGET_BUNDLE_PATH := utf8_encode (sourceText patch)]> (loaded_fileMap loaded))
  = Ok rebuiltAsar ->
  getAsarHeaderHash rebuiltAsar = Ok rebuiltHash ->
  status (PlistBuddy_Set rebuiltHash plist).1 = 0 ->
  let r := commandPatch paths codeSign w in
  r.1 = Ok tt /\
  fs r.2 !! asarPath paths = Some rebuiltAsar /\
  fs r.2 !! infoPlistPath paths = Some (PlistBuddy_Set rebuiltHash plist).2 /\
  fs r.2 !! tempPath paths = None /\
  fs r.2 !! metaPath paths
  = Some (utf8_encode
            (JSON_stringify_indented
               (meta_payload paths (clock w)
                  (trim (spawn_stdout (PlistBuddy_Print plist)))
                  originalHash rebuiltHash))) /\
  fs r.2 !! backupPath paths = Some (default asar (fs w !! backupPath paths)) /\
  fs r.2 !! infoPlistBackupPath paths
  = Some (default plist (fs w !! infoPlistBackupPath paths)) /\
  codesign_runs r.2 = codesign_runs w ++ (if codeSign then [appPath paths] else []).
Proof.
  intros Hd Hp Ha Hh Hprint Hload Hpatch Hfresh Hbuild Hrh Hset r. unfold r.
  rewrite (commandPatch_rewrite_run paths codeSign w asar plist loaded patch
             rebuiltAsar originalHash rebuiltHash) by assumption.
  destruct (ensureBackup_result paths asar plist w Hd Hp) as (_ & Hb & Hpb).
  destruct (ensureBackup_quiet paths asar w) as [_ Hsign].
  match goal with |- context [(if codeSign then _ else _) ?w0] =>
    destruct (signing_run codeSign (appPath paths) w0) as (Hok & Hfs & Hruns)
  end.
  rewrite Hok, Hfs, Hruns. cbn [fs codesign_runs]. rewrite Hsign.
  assert (D : forall i j p q, files paths !! i = Some p -> files paths !! j = Some q ->
                              i <> j -> p <> q)
    by (intros i j p q; now apply files_differ).
  split; [reflexivity |].
  split.
  { rewrite lookup_insert_ne, lookup_insert_ne, lookup_insert_eq; [reflexivity | |].
    - apply (D 0 2)%nat; [reflexivity | reflexivity | discriminate].
    - apply (D 4 2)%nat; [reflexivity | reflexivity | discriminate]. }
  split.
  { rewrite lookup_insert_ne, lookup_insert_eq; [reflexivity |].
    apply (D 4 0)%nat; [reflexivity | reflexivity | discriminate]. }
  split.
  { rewrite lookup_insert_ne, lookup_insert_ne, lookup_insert_ne, lookup_delete_eq;
      [reflexivity | | |].
    - apply (D 2 5)%nat; [reflexivity | reflexivity | discriminate].
    - apply (D 0 5)%nat; [reflexivity | reflexivity | discriminate].
    - apply (D 4 5)%nat; [reflexivity | reflexivity | discriminate]. }
  split; [now rewrite lookup_insert_eq |].
  split.
  { rewrite lookup_insert_ne, lookup_insert_ne, lookup_insert_ne, lookup_delete_ne;
      [exact Hb | | | |].
    - apply (D 5 3)%nat; [reflexivity | reflexivity | discriminate].
    - apply (D 2 3)%nat; [reflexivity | reflexivity | discriminate].
    - apply (D 0 3)%nat; [reflexivity | reflexivity | discriminate].
    - apply (D 4 3)%nat; [reflexivity | reflexivity | discriminate]. }
  split; [| reflexivity].
  rewrite lookup_insert_ne, lookup_insert_ne, lookup_insert_ne, lookup_delete_ne;
    [exact Hpb | | | |].
  - apply (D 5 1)%nat; [reflexivity | reflexivity | discriminate].
  - apply (D 2 1)%nat; [reflexivity | reflexivity | discriminate].
  - apply (D 0 1)%nat; [reflexivity | reflexivity | discriminate].
  - apply (D 4 1)%nat; [reflexivity | reflexivity | discriminate].
Qed.

Lemma commandPatch_applies_witness :
  let asar := Examples.app_asar Examples.bundle in
  let plist := list_byte_of_string "h0" in
  let w := Examples.app_world asar plist in
  let r := commandPatch (RT := Mini.runtime) Examples.paths true w in
  r.1 = Ok tt /\
  fs r.2 !! tempPath Examples.paths = None /\
  fs r.2 !! backupPath Examples.paths = Some asar /\
  fs r.2 !! infoPlistBackupPath Examples.paths = Some plist /\
  codesign_runs r.2 = ["/Applications/Codex.app"].
Proof.
  intros asar plist w r.
  destruct (getAsarHeaderHash (RT := Mini.runtime) asar) as [originalHash|e] eqn:Hh;
    [| vm_compute in Hh; discriminate].
  destruct (loadBundleSourceFromAsar (RT := Mini.runtime) asar) as [loaded|e] eqn:Hload;
    [| vm_compute in Hload; discriminate].
  destruct (patchBundleSource (RT := Mini.runtime) (bundleSource loaded))
    as [patch|e] eqn:Hpatch;
    [| vm_compute in Hload; injection Hload as <-; vm_compute in Hpatch; discriminate].
  destruct (buildAsar (RT := Mini.runtime) (loaded_header loaded)
              (<[TARGET_BUNDLE_PATH := utf8_encode (Runtime := Mini.runtime)
                                         (sourceText patch)]> (loaded_fileMap loaded)))
    as [rebuiltAsar|e] eqn:Hbuild;
    [| vm_compute in Hload; injection Hload as <-;
       vm_compute in Hpatch; injection Hpatch as <-;
       vm_compute in Hbuild; discriminate].
  destruct (getAsarHeaderHash (RT := Mini.runtime) rebuiltAsar) as [rebuiltHash|e] eqn:Hrh;
    [| vm_compute in Hload; injection Hload as <-;
       vm_compute in Hpatch; injection Hpatch as <-;
       vm_compute in Hbuild; injection Hbuild as <-;
       vm_compute in Hrh; discriminate].
  destruct (commandPatch_applies (RT := Mini.runtime) Examples.paths true w asar plist
              loaded patch rebuiltAsar originalHash rebuiltHash)
    as (Hok & _ & _ & Htemp & _ & Hb & Hpb & Hruns); try assumption.
  - exact (getPaths_distinct _).
  - vm_compute; reflexivity.
  - vm_compute; reflexivity.
  - reflexivity.
  - vm_compute in Hload. injection Hload as <-.
    vm_compute in Hpatch. injection Hpatch as <-. reflexivity.
  - reflexivity.
  - split; [exact Hok |]. split; [exact Htemp |].
    split; [exact Hb |]. split; [exact Hpb | exact Hruns].
Defined.



Section Failing.
Context `{RT : Runtime}.

Lemma io_bind_throw {A B : Type} (m : IO A) (k : A -> IO B) (w w1 : world) (e : error) :
  m w = (Throw e, w1) -> io_bind m k w = (Throw e, w1).
Proof. unfold io_bind. now intros ->. Qed.

Lemma ensureExists_missing (p d : string) (w : world) :
  fs w !! p = None ->
  ensureExists p d w = (Throw (Error (d +:+ " not found: " +:+ p)), w).
Proof.
  intros H. unfold ensureExists, io_bind, existsSync, throw.
  now rewrite bool_decide_is_Some, H.
Qed.

End Failing.

(** X23. A patch command that throws has left the application as it
    found it, provided that PlistBuddy cannot fail to set the manifest: it
    has signed nothing and, apart from the two backups, which it may have
    created, every file holds what it held, the container and the manifest
    among them, and no temporary file or meta file has been written. *)
Theorem commandPatch_all_or_nothing `{RT : Runtime}
    (paths : Paths) (codeSign : bool) (w : world) (e : error) :
  NoDup (files paths) ->
  (forall (plist : Buffer) (hash : string),
     fs w !! infoPlistPath paths = Some plist ->
     status (PlistBuddy_Set hash plist).1 = 0) ->
  (commandPatch paths codeSign w).1 = Throw e ->
  codesign_runs (commandPatch paths codeSign w).2 = codesign_runs w /\
  forall q : string,
    q <> backupPath paths -> q <> infoPlistBackupPath paths ->
    fs (commandPatch paths codeSign w).2 !! q = fs w !! q.
Proof.
  intros Hd Hset.
  destruct (fs w !! infoPlistPath paths) as [plist|] eqn:Hp.
  2: { unfold commandPatch.
       now rewrite (io_bind_throw _ _ _ _ _ (ensureExists_missing _ _ _ Hp)). }
  destruct (fs w !! asarPath paths) as [asar|] eqn:Ha.
  2: { unfold commandPatch.
       rewrite (io_bind_run _ _ _ _ tt (ensureExists_ok _ _ _ _ Hp)).
       now rewrite (io_bind_throw _ _ _ _ _ (ensureExists_missing _ _ _ Ha)). }
  specialize (Hset plist).
  patch_start Hd Hp Ha.
  pose proof (ensureBackup_manifest paths asar plist w Hd Hp) as Hpb.
  assert (Hwb : codesign_runs (ensureBackup paths asar w).2 = codesign_runs w /\
                forall q : string,
                  q <> backupPath paths -> q <> infoPlistBackupPath paths ->
                  fs (ensureBackup paths asar w).2 !! q = fs w !! q).
  { split; [apply (ensureBackup_quiet paths asar w) |]. intros q. apply ensureBackup_other. }
  set (wb := (ensureBackup paths asar w).2) in *.
  assert (D : forall i j p q, files paths !! i = Some p -> files paths !! j = Some q ->
                              i <> j -> p <> q)
    by (intros i j p0 q0; now apply files_differ).
  destruct (getAsarHeaderHash asar) as [originalHash|e1].
  2: { now rewrite (io_bind_throw (lift (Throw e1)) _ wb wb e1 eq_refl). }
  rewrite (io_bind_run (lift (Ok originalHash)) _ wb wb _ eq_refl).
  destruct (getInfoPlistAsarHash_cases (infoPlistPath paths) wb) as [[e1 He] | [ph Hph]].
  { now rewrite (io_bind_throw _ _ _ _ _ He). }
  rewrite (io_bind_run _ _ _ _ _ Hph).
  destruct (loadBundleSourceFromAsar asar) as [loaded|e1].
  2: { now rewrite (io_bind_throw (lift (Throw e1)) _ wb wb e1 eq_refl). }
  rewrite (io_bind_run (lift (Ok loaded)) _ wb wb _ eq_refl).
  destruct (patchBundleSource (bundleSource loaded)) as [[text marked]|e1].
  2: { now rewrite (io_bind_throw (lift (Throw e1)) _ wb wb e1 eq_refl). }
  rewrite (io_bind_run (lift (Ok _)) _ wb wb _ eq_refl).
  cbn [alreadyPatched sourceText].
  destruct marked.
  - destruct (negb (String.eqb ph originalHash)).
    + rewrite (io_bind_run _ _ _ _ tt
                 (setInfoPlistAsarHash_ok _ originalHash wb plist Hpb
                    (Hset originalHash eq_refl))).
      rewrite (io_bind_run (log _) _ _ _ tt eq_refl).
      match goal with |- context [(if codeSign then _ else _) ?w0] =>
        destruct (signing_run codeSign (appPath paths) w0) as (Hret & _ & _)
      end.
      rewrite Hret. discriminate.
    + discriminate.
  - cbv zeta.
    destruct (buildAsar _ _) as [rebuiltAsar|e1].
    2: { now rewrite (io_bind_throw (lift (Throw e1)) _ wb wb e1 eq_refl). }
    rewrite (io_bind_run (lift (Ok rebuiltAsar)) _ wb wb _ eq_refl).
    destruct (getAsarHeaderHash rebuiltAsar) as [rebuiltHash|e1].
    2: { now rewrite (io_bind_throw (lift (Throw e1)) _ wb wb e1 eq_refl). }
    rewrite (io_bind_run (lift (Ok rebuiltHash)) _ wb wb _ eq_refl).
    rewrite (io_bind_run (writeFileSync (tempPath paths) rebuiltAsar) _ wb _ tt eq_refl).
    rewrite (io_bind_run _ _ _ _ tt
               (renameSync_ok _ _ _ rebuiltAsar (lookup_insert_eq _ _ _))).
    unfold set_fs at 1 2. cbn [fs console_log console_warn codesign_runs clock].
    erewrite (io_bind_run (setInfoPlistAsarHash _ _) _ _ _ tt);
      [| apply (setInfoPlistAsarHash_ok _ _ _ plist);
         [| exact (Hset rebuiltHash eq_refl)]; cbn [fs];
         rewrite lookup_insert_ne, lookup_delete_ne, lookup_insert_ne;
         [exact Hpb
         | apply (D 5 0)%nat; [reflexivity | reflexivity | discriminate]
         | apply (D 5 0)%nat; [reflexivity | reflexivity | discriminate]
         | apply (D 2 0)%nat; [reflexivity | reflexivity | discriminate]]].
    rewrite (io_bind_run (fun w0 => (Ok (clock w0), w0)) _ _ _ _ eq_refl).
    unfold writeMeta.
    rewrite (io_bind_run (writeFileSync _ _) _ _ _ tt eq_refl).
    repeat rewrite (io_bind_run (log _) _ _ _ tt eq_refl).
    match goal with |- context [(if codeSign then _ else _) ?w0] =>
      destruct (signing_run codeSign (appPath paths) w0) as (Hret & _ & _)
    end.
    rewrite Hret. discriminate.
Qed.

Lemma commandPatch_all_or_nothing_witness :
  let asar := Examples.app_asar "var a=1;" in
  let plist := list_byte_of_string "h0" in
  let w := Examples.app_world asar plist in
  let r := commandPatch (RT := Mini.runtime) Examples.paths true w in
  r.1 = Throw (Error "Could not find nativeTheme anchor in bundle") /\
  codesign_runs r.2 = [] /\
  fs r.2 !! asarPath Examples.paths = Some asar /\
  fs r.2 !! infoPlistPath Examples.paths = Some plist /\
  fs r.2 !! tempPath Examples.paths = None /\
  fs r.2 !! metaPath Examples.paths = None.
Proof.
  intros asar plist w r.
  assert (Hthrow : r.1 = Throw (Error "Could not find nativeTheme anchor in bundle"))
    by (vm_compute; reflexivity).
  pose proof (commandPatch_all_or_nothing (RT := Mini.runtime) Examples.paths true w _
                (getPaths_distinct _) (fun _ _ _ => eq_refl) Hthrow) as [Hruns Hsame].
  fold r in Hruns, Hsame.
  split; [exact Hthrow |]. split; [exact Hruns |].
  rewrite !Hsame by (vm_compute; discriminate).
  repeat split; vm_compute; reflexivity.
Defined.
